(** * A verified model of the address book (main.py)

    The development embeds the domain classes of [main.py] ([Field], [Name],
    [Phone], [Birthday], [Record], [AddressBook]) together with the parts of
    the Python runtime they rely on ([str.isdigit], [datetime.strptime],
    [date.replace], [date + timedelta], [date.weekday], [date.strftime]),
    and proves properties of the resulting functions.

    Conventions.
    - A Python [str] is a list of Unicode code points.
    - A raised exception is a value of [exn]: the exception class together
      with a tag for the message text and its arguments.
    - Methods that mutate [self] are computations in a state-and-exception
      monad: the state they return is the one the object has at the moment
      the method returns or raises.
    - [date.today()] is an input of the model ([today]). *)

From Stdlib Require Import ZArith NArith List Bool Lia String Ascii.
Import ListNotations.

Open Scope Z_scope.

(* ================================================================== *)
(** * Python values: strings, exceptions, results *)

Module Py.

(** A Python string: the sequence of its code points. *)
Definition str := list N.

(** Code points of an ASCII literal. *)
Definition ascii_str (s : string) : str :=
  List.map N_of_ascii (list_ascii_of_string s).

Fixpoint str_eqb (a b : str) : bool :=
  match a, b with
  | [], [] => true
  | x :: a', y :: b' => N.eqb x y && str_eqb a' b'
  | _, _ => false
  end.

(** [len(s)] *)
Definition len (s : str) : Z := Z.of_nat (List.length s).

(** Message texts.  Each constructor stands for one message template of
    [main.py] or of the standard library, with the values formatted into
    it. *)
Inductive message : Type :=
| PhoneFormatMsg (value : str)
    (* f"Номер телефону має складатися з 10 цифр, отримано: '{value}'" *)
| PhoneNotFoundMsg (phone name : str)
    (* f"Телефон '{phone}' не знайдено в записі '{name}'" *)
| InvalidDateFormatMsg
    (* "Invalid date format. Use DD.MM.YYYY" *)
| TimeDataDoesNotMatchMsg (data : str)   (* _strptime: no regex match *)
| UnconvertedDataRemainsMsg (rest : str) (* _strptime: trailing text *)
| YearOutOfRangeMsg (year : Z)           (* date(...): year not in 1..9999 *)
| MonthOutOfRangeMsg (month : Z)         (* date(...): month not in 1..12 *)
| DayOutOfRangeMsg (day : Z)             (* date(...): day not in month *)
| DateValueOutOfRangeMsg                 (* date + timedelta overflow *)
| InvalidLiteralMsg (text : str)         (* int(text) *)
| NotInListMsg                           (* list.index, list.remove *)
| IndexOutOfRangeMsg.                    (* lst[i] = x *)

(** Exception classes that the modelled code can raise. *)
Inductive exn : Type :=
| ValueError (m : message)
| OverflowError (m : message)
| IndexError (m : message).

(** Outcome of an expression: a value, or a raised exception. *)
Inductive result (A : Type) : Type :=
| Ok (a : A)
| Raise (e : exn).
Arguments Ok {A} a.
Arguments Raise {A} e.

Definition bind {A B} (x : result A) (f : A -> result B) : result B :=
  match x with
  | Ok a => f a
  | Raise e => Raise e
  end.

(** [try: x  except ValueError: raise ValueError(m)] *)
Definition except_ValueError {A} (x : result A) (m : message) : result A :=
  match x with
  | Raise (ValueError _) => Raise (ValueError m)
  | _ => x
  end.

Definition is_Ok {A} (x : result A) : bool :=
  match x with Ok _ => true | Raise _ => false end.

(** ** Computations on a mutable object of type [S] *)

Definition M (S A : Type) : Type := S -> result A * S.

Definition ret {S A} (a : A) : M S A := fun s => (Ok a, s).

Definition mbind {S A B} (m : M S A) (f : A -> M S B) : M S B :=
  fun s => match m s with
           | (Ok a, s') => f a s'
           | (Raise e, s') => (Raise e, s')
           end.

(** Evaluate an expression that does not touch the object. *)
Definition lift {S A} (x : result A) : M S A := fun s => (x, s).

Definition get {S} : M S S := fun s => (Ok s, s).
Definition put {S} (s : S) : M S unit := fun _ => (Ok tt, s).
Definition raise {S A} (e : exn) : M S A := fun s => (Raise e, s).

End Py.
Import Py.

Declare Scope py_scope.
Delimit Scope py_scope with py.
Notation "x <- m ;; k" := (mbind m (fun x => k))
  (at level 61, m at next level, right associativity) : py_scope.
Notation "m ;;; k" := (mbind m (fun _ => k))
  (at level 61, right associativity) : py_scope.
Notation "'let?' x := m 'in' k" := (bind m (fun x => k))
  (at level 61, x name, m at next level, right associativity) : py_scope.
Open Scope py_scope.

(* ================================================================== *)
(** * Unicode character classes used by [str.isdigit], [\d] and [int] *)

Module Unicode.

Definition in_range (lo hi c : N) : bool := N.leb lo c && N.leb c hi.

Definition in_ranges (rs : list (N * N)) (c : N) : bool :=
  existsb (fun r => in_range (fst r) (snd r) c) rs.

(** Code points of general category Nd (Unicode 14.0, the database of
    CPython 3.11).  Every range is a union of blocks of ten consecutive
    digits 0..9 starting at its lower end. *)
Definition decimal_ranges : list (N * N) := [
    (48, 57); (1632, 1641); (1776, 1785); (1984, 1993); (2406, 2415);
    (2534, 2543); (2662, 2671); (2790, 2799); (2918, 2927); (3046, 3055);
    (3174, 3183); (3302, 3311); (3430, 3439); (3558, 3567); (3664, 3673);
    (3792, 3801); (3872, 3881); (4160, 4169); (4240, 4249); (6112, 6121);
    (6160, 6169); (6470, 6479); (6608, 6617); (6784, 6793); (6800, 6809);
    (6992, 7001); (7088, 7097); (7232, 7241); (7248, 7257); (42528, 42537);
    (43216, 43225); (43264, 43273); (43472, 43481); (43504, 43513);
    (43600, 43609); (44016, 44025); (65296, 65305); (66720, 66729);
    (68912, 68921); (69734, 69743); (69872, 69881); (69942, 69951);
    (70096, 70105); (70384, 70393); (70736, 70745); (70864, 70873);
    (71248, 71257); (71360, 71369); (71472, 71481); (71904, 71913);
    (72016, 72025); (72784, 72793); (73040, 73049); (73120, 73129);
    (92768, 92777); (92864, 92873); (93008, 93017); (120782, 120831);
    (123200, 123209); (123632, 123641); (125264, 125273); (130032, 130041)
  ]%N.

(** Code points whose Numeric_Type is Digit or Decimal: the characters for
    which [str.isdigit] holds (Unicode 14.0). *)
Definition digit_ranges : list (N * N) := [
    (48, 57); (178, 179); (185, 185); (1632, 1641); (1776, 1785);
    (1984, 1993); (2406, 2415); (2534, 2543); (2662, 2671); (2790, 2799);
    (2918, 2927); (3046, 3055); (3174, 3183); (3302, 3311); (3430, 3439);
    (3558, 3567); (3664, 3673); (3792, 3801); (3872, 3881); (4160, 4169);
    (4240, 4249); (4969, 4977); (6112, 6121); (6160, 6169); (6470, 6479);
    (6608, 6618); (6784, 6793); (6800, 6809); (6992, 7001); (7088, 7097);
    (7232, 7241); (7248, 7257); (8304, 8304); (8308, 8313); (8320, 8329);
    (9312, 9320); (9332, 9340); (9352, 9360); (9450, 9450); (9461, 9469);
    (9471, 9471); (10102, 10110); (10112, 10120); (10122, 10130);
    (42528, 42537); (43216, 43225); (43264, 43273); (43472, 43481);
    (43504, 43513); (43600, 43609); (44016, 44025); (65296, 65305);
    (66720, 66729); (68160, 68163); (68912, 68921); (69216, 69224);
    (69714, 69722); (69734, 69743); (69872, 69881); (69942, 69951);
    (70096, 70105); (70384, 70393); (70736, 70745); (70864, 70873);
    (71248, 71257); (71360, 71369); (71472, 71481); (71904, 71913);
    (72016, 72025); (72784, 72793); (73040, 73049); (73120, 73129);
    (92768, 92777); (92864, 92873); (93008, 93017); (120782, 120831);
    (123200, 123209); (123632, 123641); (125264, 125273); (127232, 127242);
    (130032, 130041)
  ]%N.

(** The character test behind [str.isdecimal] and the regex class [\d]. *)
Definition is_decimal (c : N) : bool := in_ranges decimal_ranges c.

(** The character test behind [str.isdigit]. *)
Definition is_digit (c : N) : bool := in_ranges digit_ranges c.

(** The ASCII digits ['0'..'9']. *)
Definition is_ascii_digit (c : N) : bool := in_range 48 57 c.

(** Decimal value of a character of category Nd. *)
Fixpoint decimal_value_in (rs : list (N * N)) (c : N) : option Z :=
  match rs with
  | [] => None
  | (lo, hi) :: rs' =>
      if in_range lo hi c then Some (Z.of_N ((c - lo) mod 10))
      else decimal_value_in rs' c
  end.

Definition decimal_value (c : N) : option Z :=
  decimal_value_in decimal_ranges c.

(** [s.isdigit()]: true when [s] is not empty and all its characters are
    digits. *)
Definition isdigit (s : str) : bool :=
  negb (Z.eqb (len s) 0) && forallb is_digit s.

(** [s.isdecimal()] *)
Definition isdecimal (s : str) : bool :=
  negb (Z.eqb (len s) 0) && forallb is_decimal s.

(** [int(s)], restricted to the texts a regex group of [_strptime] can
    capture: a non-empty run of decimal digits, possibly after blanks
    (which [int] strips).  Signs and underscores never occur there. *)
Fixpoint int_acc (acc : Z) (s : str) : option Z :=
  match s with
  | [] => Some acc
  | c :: s' =>
      match decimal_value c with
      | Some v => int_acc (10 * acc + v) s'
      | None => None
      end
  end.

Fixpoint lstrip_blank (s : str) : str :=
  match s with
  | c :: s' => if N.eqb c 32 then lstrip_blank s' else s
  | [] => []
  end.

Definition int (s : str) : result Z :=
  match lstrip_blank s with
  | [] => Raise (ValueError (InvalidLiteralMsg s))
  | t => match int_acc 0 t with
         | Some n => Ok n
         | None => Raise (ValueError (InvalidLiteralMsg s))
         end
  end.

End Unicode.

(* ================================================================== *)
(** * The [date] class of the standard library *)

Module Date.

Definition MINYEAR : Z := 1.
Definition MAXYEAR : Z := 9999.
Definition _MAXORDINAL : Z := 3652059.

(** A [date] object: its three fields. *)
Record date : Type := mkdate { year : Z; month : Z; day : Z }.

(** [lst[i]] for an index that is in range. *)
Definition item (lst : list Z) (i : Z) : Z := nth (Z.to_nat i) lst 0.

Definition _DAYS_IN_MONTH : list Z :=
  [-1; 31; 28; 31; 30; 31; 30; 31; 31; 30; 31; 30; 31].

(** The table the module builds by accumulating [_DAYS_IN_MONTH[1:]]. *)
Definition _DAYS_BEFORE_MONTH : list Z :=
  -1 :: fst (fold_left (fun '(acc, dbm) dim => (acc ++ [dbm], dbm + dim))
                       (tl _DAYS_IN_MONTH) ([], 0)).

Definition _is_leap (year : Z) : bool :=
  (year mod 4 =? 0) && (negb (year mod 100 =? 0) || (year mod 400 =? 0)).

Definition _days_before_year (year : Z) : Z :=
  let y := year - 1 in
  y * 365 + y / 4 - y / 100 + y / 400.

Definition _days_in_month (year month : Z) : Z :=
  if (month =? 2) && _is_leap year then 29
  else item _DAYS_IN_MONTH month.

Definition _days_before_month (year month : Z) : Z :=
  item _DAYS_BEFORE_MONTH month + Z.b2z ((2 <? month) && _is_leap year).

Definition _ymd2ord (year month day : Z) : Z :=
  _days_before_year year + _days_before_month year month + day.

Definition _DI400Y : Z := _days_before_year 401.
Definition _DI100Y : Z := _days_before_year 101.
Definition _DI4Y : Z := _days_before_year 5.

Definition _ord2ymd (n : Z) : Z * Z * Z :=
  let n := n - 1 in
  let n400 := n / _DI400Y in
  let n := n mod _DI400Y in
  let year := n400 * 400 + 1 in
  let n100 := n / _DI100Y in
  let n := n mod _DI100Y in
  let n4 := n / _DI4Y in
  let n := n mod _DI4Y in
  let n1 := n / 365 in
  let n := n mod 365 in
  let year := year + (n100 * 100 + n4 * 4 + n1) in
  if (n1 =? 4) || (n100 =? 4) then (year - 1, 12, 31)
  else
    let leapyear := (n1 =? 3) && (negb (n4 =? 24) || (n100 =? 3)) in
    let month := Z.shiftr (n + 50) 5 in
    let preceding :=
      item _DAYS_BEFORE_MONTH month + Z.b2z ((2 <? month) && leapyear) in
    let '(month, preceding) :=
      if n <? preceding
      then (month - 1,
            preceding - (item _DAYS_IN_MONTH (month - 1)
                         + Z.b2z ((month - 1 =? 2) && leapyear)))
      else (month, preceding) in
    let n := n - preceding in
    (year, month, n + 1).

(** [_check_date_fields], reached through [date(year, month, day)]. *)
Definition _check_date_fields (year month day : Z) : result (Z * Z * Z) :=
  if negb ((MINYEAR <=? year) && (year <=? MAXYEAR))
  then Raise (ValueError (YearOutOfRangeMsg year))
  else if negb ((1 <=? month) && (month <=? 12))
  then Raise (ValueError (MonthOutOfRangeMsg month))
  else
    let dim := _days_in_month year month in
    if negb ((1 <=? day) && (day <=? dim))
    then Raise (ValueError (DayOutOfRangeMsg day))
    else Ok (year, month, day).

(** [date(year, month, day)] *)
Definition __new__ (year month day : Z) : result date :=
  let? ymd := _check_date_fields year month day in
  let '(y, m, d) := ymd in Ok (mkdate y m d).

(** [self.replace(year=y)]: month and day keep their values. *)
Definition replace_year (self : date) (y : Z) : result date :=
  __new__ y (month self) (day self).

Definition toordinal (self : date) : Z :=
  _ymd2ord (year self) (month self) (day self).

Definition fromordinal (n : Z) : result date :=
  let '(y, m, d) := _ord2ymd n in __new__ y m d.

(** [self + timedelta(days=n)] *)
Definition __add__ (self : date) (days : Z) : result date :=
  let o := toordinal self + days in
  if (0 <? o) && (o <=? _MAXORDINAL) then fromordinal o
  else Raise (OverflowError DateValueOutOfRangeMsg).

(** Monday is 0, Sunday is 6. *)
Definition weekday (self : date) : Z := (toordinal self + 6) mod 7.

(** [_cmp] on the tuples [(year, month, day)]: -1, 0 or 1. *)
Definition _cmp (x y : date) : Z :=
  if year x <? year y then -1 else if year y <? year x then 1
  else if month x <? month y then -1 else if month y <? month x then 1
  else if day x <? day y then -1 else if day y <? day x then 1
  else 0.

Definition __lt__ (x y : date) : bool := _cmp x y <? 0.
Definition __le__ (x y : date) : bool := _cmp x y <=? 0.

(** The character of a digit value 0..9. *)
Definition digit_char (v : Z) : N := Z.to_N (48 + v).

(** [%02d] *)
Definition fmt_02d (n : Z) : str :=
  [digit_char (n / 10 mod 10); digit_char (n mod 10)].

(** The decimal digits of [n] in front of [acc], the most significant
    first.  A number has no more decimal digits than [fuel] when [fuel]
    is the number of its binary digits. *)
Fixpoint decimal_digits (fuel : nat) (n : Z) (acc : str) : str :=
  match fuel with
  | O => acc
  | S fuel' =>
      let acc' := digit_char (n mod 10) :: acc in
      if n <? 10 then acc' else decimal_digits fuel' (n / 10) acc'
  end.

(** [%d]: the number in decimal, nothing in front of it. *)
Definition fmt_d (n : Z) : str :=
  decimal_digits (S (Z.to_nat (Z.log2 n))) n [].

(** [self.strftime("%d.%m.%Y")], which goes through [time.strftime] to the
    [strftime] of the C library.  [%d] and [%m] are zero-filled to two
    digits.  [%Y] is the year in decimal and the C library (glibc) does not
    fill it: the year 999 gives 999 and the year 5 gives 5; from the year
    1000 on these are four digits. *)
Definition strftime_dmY (self : date) : str :=
  fmt_02d (day self) ++ [46%N] ++ fmt_02d (month self) ++ [46%N]
  ++ fmt_d (year self).

(** The dates a [date] object can hold. *)
Definition valid (d : date) : Prop :=
  MINYEAR <= year d <= MAXYEAR /\ 1 <= month d <= 12 /\
  1 <= day d <= _days_in_month (year d) (month d).

Definition validb (d : date) : bool :=
  is_Ok (_check_date_fields (year d) (month d) (day d)).

End Date.

(* ================================================================== *)
(** * [datetime.strptime(value, "%d.%m.%Y").date()] *)

Module Strptime.
Import Unicode.

(** The regular expression that [_strptime.TimeRE] builds for the format
    is

      (?P<d>3[0-1]|[1-2]\d|0[1-9]|[1-9]| [1-9])\.(?P<m>1[0-2]|0[1-9]|[1-9])\.(?P<Y>\d\d\d\d)

    It is embedded as a backtracking matcher in continuation-passing
    style: a pattern takes the continuation for what follows it and the
    text still to be matched, and an alternation tries its branches from
    left to right, moving on when the rest of the match fails.  The flag
    IGNORECASE changes nothing for these character classes. *)

Definition orelse {A} (x y : option A) : option A :=
  match x with
  | Some _ => x
  | None => y
  end.

(** One character of the class [p]. *)
Definition cls {A} (p : N -> bool) (k : N -> str -> option A) (s : str)
  : option A :=
  match s with
  | c :: r => if p c then k c r else None
  | [] => None
  end.

Definition ch (a : ascii) : N := N_of_ascii a.
Definition chr (a : ascii) (c : N) : bool := N.eqb c (ch a).
Definition rng (a b : ascii) (c : N) : bool := in_range (ch a) (ch b) c.

(** [(?P<d>3[0-1]|[1-2]\d|0[1-9]|[1-9]| [1-9])] *)
Definition re_d {A} (k : str -> str -> option A) (s : str) : option A :=
  orelse (cls (chr "3") (fun a => cls (rng "0" "1") (fun b => k [a; b])) s)
 (orelse (cls (rng "1" "2") (fun a => cls is_decimal (fun b => k [a; b])) s)
 (orelse (cls (chr "0") (fun a => cls (rng "1" "9") (fun b => k [a; b])) s)
 (orelse (cls (rng "1" "9") (fun a => k [a]) s)
         (cls (chr " ") (fun a => cls (rng "1" "9") (fun b => k [a; b])) s)))).

(** [(?P<m>1[0-2]|0[1-9]|[1-9])] *)
Definition re_m {A} (k : str -> str -> option A) (s : str) : option A :=
  orelse (cls (chr "1") (fun a => cls (rng "0" "2") (fun b => k [a; b])) s)
 (orelse (cls (chr "0") (fun a => cls (rng "1" "9") (fun b => k [a; b])) s)
         (cls (rng "1" "9") (fun a => k [a]) s)).

(** [(?P<Y>\d\d\d\d)] *)
Definition re_Y {A} (k : str -> str -> option A) (s : str) : option A :=
  cls is_decimal (fun a => cls is_decimal (fun b =>
  cls is_decimal (fun c => cls is_decimal (fun d => k [a; b; c; d])))) s.

(** [\.] *)
Definition re_dot {A} (k : str -> option A) (s : str) : option A :=
  cls (chr ".") (fun _ => k) s.

(** [format_regex.match(data_string)]: the three groups and the text left
    after the end of the match. *)
Definition format_regex_match (data_string : str)
  : option (str * str * str * str) :=
  re_d (fun d => re_dot (re_m (fun m => re_dot (re_Y (fun Y rest =>
    Some (d, m, Y, rest)))))) data_string.

(** [_strptime._strptime]: the fields [year, month, day] of its result. *)
Definition _strptime (data_string : str) : result (Z * Z * Z) :=
  match format_regex_match data_string with
  | None => Raise (ValueError (TimeDataDoesNotMatchMsg data_string))
  | Some (d, m, Y, rest) =>
      if negb (len rest =? 0)
      then Raise (ValueError (UnconvertedDataRemainsMsg rest))
      else
        let? year := int Y in
        let? month := int m in
        let? day := int d in
        (* julian = datetime_date(year, month, day).toordinal() - ... *)
        let? _ := Date.__new__ year month day in
        Ok (year, month, day)
  end.

(** [datetime.strptime(data_string, "%d.%m.%Y").date()] *)
Definition strptime_date (data_string : str) : result Date.date :=
  let? ymd := _strptime data_string in
  let '(y, m, d) := ymd in Date.__new__ y m d.

End Strptime.

(* ================================================================== *)
(** * The field classes *)

(** [class Name(Field)]: [Field.__init__] stores the value, [__str__]
    returns it. *)
Module Name.
Record t : Type := mk { value : str }.
Definition __init__ (value : str) : t := mk value.
Definition __str__ (self : t) : str := value self.
End Name.

(** [class Phone(Field)].  The test [isinstance(value, str)] holds for
    every [value] of type [str]. *)
Module Phone.
Record t : Type := mk { value : str }.

Definition __init__ (value : str) : result t :=
  if negb (Unicode.isdigit value) || negb (len value =? 10)
  then Raise (ValueError (PhoneFormatMsg value))
  else Ok (mk value).

Definition __str__ (self : t) : str := value self.

(** Two [Phone] objects carry nothing but their value; the model
    identifies objects of equal value. *)
Definition eqb (p q : t) : bool := str_eqb (value p) (value q).
End Phone.

(** [class Birthday(Field)] *)
Module Birthday.
Record t : Type := mk { value : Date.date }.

Definition __init__ (value : str) : result t :=
  except_ValueError
    (let? d := Strptime.strptime_date value in Ok (mk d))
    InvalidDateFormatMsg.

Definition __str__ (self : t) : str := Date.strftime_dmY (value self).
End Birthday.

(* ================================================================== *)
(** * [class Record] *)

Module Record.

Record t : Type := mk {
  name : Name.t;
  phones : list Phone.t;
  birthday : option Birthday.t
}.

Definition set_phones (self : t) (ps : list Phone.t) : t :=
  mk (name self) ps (birthday self).

Definition set_birthday (self : t) (b : option Birthday.t) : t :=
  mk (name self) (phones self) b.

Definition __init__ (name : str) : t := mk (Name.__init__ name) [] None.

(** The loop of [find_phone] over [self.phones]. *)
Fixpoint find_phone_in (ps : list Phone.t) (phone : str) : option Phone.t :=
  match ps with
  | [] => None
  | p :: ps' =>
      if str_eqb (Phone.value p) phone then Some p
      else find_phone_in ps' phone
  end.

Definition find_phone (phone : str) : M t (option Phone.t) :=
  self <- get;; ret (find_phone_in (phones self) phone).

(** [lst.index(x)] *)
Fixpoint list_index (lst : list Phone.t) (x : Phone.t) : result Z :=
  match lst with
  | [] => Raise (ValueError NotInListMsg)
  | y :: lst' =>
      if Phone.eqb y x then Ok 0
      else let? i := list_index lst' x in Ok (i + 1)
  end.

(** [lst.remove(x)] *)
Fixpoint list_remove (lst : list Phone.t) (x : Phone.t)
  : result (list Phone.t) :=
  match lst with
  | [] => Raise (ValueError NotInListMsg)
  | y :: lst' =>
      if Phone.eqb y x then Ok lst'
      else let? r := list_remove lst' x in Ok (y :: r)
  end.

(** [lst[i] = x] for an index [0 <= i]. *)
Fixpoint list_setitem (lst : list Phone.t) (i : nat) (x : Phone.t)
  : result (list Phone.t) :=
  match lst, i with
  | [], _ => Raise (IndexError IndexOutOfRangeMsg)
  | _ :: lst', O => Ok (x :: lst')
  | y :: lst', S i' => let? r := list_setitem lst' i' x in Ok (y :: r)
  end.

Definition add_phone (phone : str) : M t unit :=
  p <- lift (Phone.__init__ phone);;
  self <- get;;
  put (set_phones self (phones self ++ [p])).

Definition remove_phone (phone : str) : M t unit :=
  phone_obj <- find_phone phone;;
  match phone_obj with
  | Some phone_obj =>
      self <- get;;
      ps <- lift (list_remove (phones self) phone_obj);;
      put (set_phones self ps)
  | None =>
      self <- get;;
      raise (ValueError (PhoneNotFoundMsg phone (Name.value (name self))))
  end.

Definition edit_phone (old_phone new_phone : str) : M t unit :=
  phone_obj <- find_phone old_phone;;
  match phone_obj with
  | Some phone_obj =>
      self <- get;;
      idx <- lift (list_index (phones self) phone_obj);;
      p <- lift (Phone.__init__ new_phone);;
      self <- get;;
      ps <- lift (list_setitem (phones self) (Z.to_nat idx) p);;
      put (set_phones self ps)
  | None =>
      self <- get;;
      raise (ValueError
               (PhoneNotFoundMsg old_phone (Name.value (name self))))
  end.

Definition add_birthday (birthday : str) : M t unit :=
  b <- lift (Birthday.__init__ birthday);;
  self <- get;;
  put (set_birthday self (Some b)).

End Record.

(* ================================================================== *)
(** * [class AddressBook(UserDict)] *)

Module AddressBook.
Import Date.

(** [self.data]: a [dict] from names to records, as the list of its items
    in insertion order. *)
Definition t : Type := list (str * Record.t).

(** [d[key] = value]: an existing key keeps its place. *)
Fixpoint dict_setitem (d : t) (key : str) (value : Record.t) : t :=
  match d with
  | [] => [(key, value)]
  | (k, v) :: d' =>
      if str_eqb k key then (k, value) :: d'
      else (k, v) :: dict_setitem d' key value
  end.

(** [d.get(key)] *)
Fixpoint dict_get (d : t) (key : str) : option Record.t :=
  match d with
  | [] => None
  | (k, v) :: d' => if str_eqb k key then Some v else dict_get d' key
  end.

(** [key in d] *)
Definition dict_contains (d : t) (key : str) : bool :=
  existsb (fun kv => str_eqb (fst kv) key) d.

(** [del d[key]] for a key that is present. *)
Fixpoint dict_delitem (d : t) (key : str) : t :=
  match d with
  | [] => []
  | (k, v) :: d' =>
      if str_eqb k key then d' else (k, v) :: dict_delitem d' key
  end.

Definition keys (d : t) : list str := List.map fst d.
Definition values (d : t) : list Record.t := List.map snd d.

(** [AddressBook()] *)
Definition __init__ : t := [].

Definition add_record (record : Record.t) : M t unit :=
  data <- get;;
  put (dict_setitem data (Name.value (Record.name record)) record).

Definition find (name : str) : M t (option Record.t) :=
  data <- get;; ret (dict_get data name).

Definition delete (name : str) : M t unit :=
  data <- get;;
  if dict_contains data name then put (dict_delitem data name)
  else ret tt.

(** One element of the list that [get_upcoming_birthdays] returns: a dict
    with the keys ["name"] and ["congratulation_date"]. *)
Record entry : Type := mkentry {
  entry_name : str;
  congratulation_date : str
}.

(** The body of the loop over [self.data.values()]: the list [upcoming]
    after the iteration for [record]. *)
Definition upcoming_step (today next_week : date) (record : Record.t)
    (upcoming : list entry) : result (list entry) :=
  match Record.birthday record with
  | None => Ok upcoming
  | Some b =>
      let bday := Birthday.value b in
      let? bday_this_year := replace_year bday (year today) in
      let? bday_this_year :=
        if __lt__ bday_this_year today
        then replace_year bday_this_year (year today + 1)
        else Ok bday_this_year in
      if __le__ today bday_this_year && __le__ bday_this_year next_week
      then
        let congratulation_date := bday_this_year in
        let? congratulation_date :=
          if weekday congratulation_date =? 5
          then __add__ congratulation_date 2
          else if weekday congratulation_date =? 6
          then __add__ congratulation_date 1
          else Ok congratulation_date in
        Ok (upcoming ++
            [mkentry (Name.value (Record.name record))
                     (strftime_dmY congratulation_date)])
      else Ok upcoming
  end.

Fixpoint upcoming_loop (today next_week : date) (records : list Record.t)
    (upcoming : list entry) : result (list entry) :=
  match records with
  | [] => Ok upcoming
  | record :: rest =>
      let? upcoming := upcoming_step today next_week record upcoming in
      upcoming_loop today next_week rest upcoming
  end.

Definition get_upcoming_birthdays (today : date) : M t (list entry) :=
  next_week <- lift (__add__ today 7);;
  data <- get;;
  lift (upcoming_loop today next_week (values data) []).

End AddressBook.

(* ================================================================== *)
(** * Specification-level notions *)

(** The phone [x] does not have the value [phone]. *)
Definition differs (phone : str) (x : Phone.t) : Prop :=
  Phone.value x <> phone.

(** [record.name.value] *)
Definition name_of (r : Record.t) : str := Name.value (Record.name r).

(** Every record of the book sits under its own name. *)
Definition keyed_by_name (d : AddressBook.t) : Prop :=
  Forall (fun kv => fst kv = name_of (snd kv)) d.

Module Spec.

(** The last record of [rs] whose name is [n], if any. *)
Fixpoint latest (n : str) (rs : list Record.t) : option Record.t :=
  match rs with
  | [] => None
  | r :: rs' =>
      match latest n rs' with
      | Some x => Some x
      | None =>
          if str_eqb (Name.value (Record.name r)) n then Some r else None
      end
  end.

(** The book after the calls [add_record(r)] for the records of [rs], in
    that order. *)
Definition add_records (rs : list Record.t) (book : AddressBook.t)
  : AddressBook.t :=
  fold_left (fun b r => snd (AddressBook.add_record r b)) rs book.

Import Date.

(** The month and day of [b] in the year [y]. *)
Definition in_year (y : Z) (b : date) : date := mkdate y (month b) (day b).

(** The birthday applied to the current year, rolled forward to the
    following year when that date is earlier than today. *)
Definition next_birthday (today b : date) : date :=
  if __lt__ (in_year (year today) b) today
  then in_year (year today + 1) b
  else in_year (year today) b.

(** Number of days from [today] to [d]. *)
Definition days_until (today d : date) : Z := toordinal d - toordinal today.

(** [d] lies in the window from [today] to [today + 7 days], both
    included. *)
Definition in_window (today d : date) : bool :=
  (0 <=? days_until today d) && (days_until today d <=? 7).

(** The record has a birthday, and its next occurrence is in the window. *)
Definition qualifies (today : date) (r : Record.t) : bool :=
  match Record.birthday r with
  | None => false
  | Some b => in_window today (next_birthday today (Birthday.value b))
  end.

(** Days by which a date is moved: 2 from a Saturday, 1 from a Sunday. *)
Definition weekend_shift (d : date) : Z :=
  if weekday d =? 5 then 2 else if weekday d =? 6 then 1 else 0.

(** [s] is the text DD.MM.YYYY of the date [d]: two digits for the day, a
    dot, two digits for the month, a dot, four digits for the year. *)
Definition is_DDMMYYYY (s : str) (d : date) : Prop :=
  exists d1 d0 m1 m0 y3 y2 y1 y0 : Z,
    Forall (fun v => 0 <= v <= 9) [d1; d0; m1; m0; y3; y2; y1; y0]
    /\ s = [digit_char d1; digit_char d0; 46%N;
            digit_char m1; digit_char m0; 46%N;
            digit_char y3; digit_char y2; digit_char y1; digit_char y0]
    /\ day d = 10 * d1 + d0
    /\ month d = 10 * m1 + m0
    /\ year d = 1000 * y3 + 100 * y2 + 10 * y1 + y0.

(** [e] is the entry of the qualifying record [r]: it carries the name of
    [r] and the text of a date [cd] that lies [weekend_shift] days after
    the next birthday. *)
Definition congratulates (today : date) (r : Record.t)
    (e : AddressBook.entry) : Prop :=
  AddressBook.entry_name e = name_of r
  /\ exists b cd,
      Record.birthday r = Some b
      /\ let nb := next_birthday today (Birthday.value b) in
         valid nb /\ valid cd
         /\ toordinal cd = toordinal nb + weekend_shift nb
         /\ AddressBook.congratulation_date e = strftime_dmY cd.

(** The same, with the cases of the weekend rule spelled out. *)
Definition weekend_rule (today : date) (r : Record.t)
    (e : AddressBook.entry) : Prop :=
  AddressBook.entry_name e = name_of r
  /\ exists b cd,
      Record.birthday r = Some b
      /\ let nb := next_birthday today (Birthday.value b) in
         in_window today nb = true
         /\ valid cd
         /\ (weekday nb = 5 -> days_until nb cd = 2 /\ weekday cd = 0)
         /\ (weekday nb = 6 -> days_until nb cd = 1 /\ weekday cd = 0)
         /\ (weekday nb <> 5 -> weekday nb <> 6 -> cd = nb)
         /\ is_DDMMYYYY (AddressBook.congratulation_date e) cd.

(** The texts of a day for [%d]: 1..9, 01..09, 10..31, or a blank and
    1..9.  After a first digit 1 or 2 the second digit may be any decimal
    digit of Unicode. *)
Definition day_token (s : str) : bool :=
  match s with
  | [a] => Strptime.rng "1" "9" a
  | [a; b] =>
      (Strptime.chr "3" a && Strptime.rng "0" "1" b)
      || (Strptime.rng "1" "2" a && Unicode.is_decimal b)
      || (Strptime.chr "0" a && Strptime.rng "1" "9" b)
      || (Strptime.chr " " a && Strptime.rng "1" "9" b)
  | _ => false
  end.

(** The texts of a month for [%m]: 1..9, 01..09, 10..12. *)
Definition month_token (s : str) : bool :=
  match s with
  | [a] => Strptime.rng "1" "9" a
  | [a; b] =>
      (Strptime.chr "1" a && Strptime.rng "0" "2" b)
      || (Strptime.chr "0" a && Strptime.rng "1" "9" b)
  | _ => false
  end.

(** The texts of a year for [%Y]: four decimal digits. *)
Definition year_token (s : str) : bool :=
  match s with
  | [a; b; c; d] =>
      Unicode.is_decimal a && Unicode.is_decimal b
      && Unicode.is_decimal c && Unicode.is_decimal d
  | _ => false
  end.

(** [s] reads as the date [d]: a day, a dot, a month, a dot and a year
    whose numbers are the fields of [d], a date of the calendar. *)
Definition denotes (s : str) (d : date) : Prop :=
  exists ds ms ys,
    s = ds ++ [46%N] ++ ms ++ [46%N] ++ ys
    /\ day_token ds = true /\ month_token ms = true
    /\ year_token ys = true
    /\ Unicode.int ds = Ok (day d) /\ Unicode.int ms = Ok (month d)
    /\ Unicode.int ys = Ok (year d)
    /\ valid d.

(** [s] has the exact shape DD.MM.YYYY: ten characters, ASCII digits
    except for the dots at the third and sixth place. *)
Definition exact_shape (s : str) : bool :=
  match s with
  | [d1; d0; p; m1; m0; q; y3; y2; y1; y0] =>
      forallb Unicode.is_ascii_digit [d1; d0; m1; m0; y3; y2; y1; y0]
      && N.eqb p 46 && N.eqb q 46
  | _ => false
  end.

(** Every birthday stored in the records is a date. *)
Definition birthdays_valid (rs : list Record.t) : Prop :=
  forall r b,
    In r rs -> Record.birthday r = Some b -> valid (Birthday.value b).

(** Number of entries of [out] that carry the name [n]. *)
Definition entries_named (n : str) (out : list AddressBook.entry) : nat :=
  List.length (filter (fun e => str_eqb (AddressBook.entry_name e) n) out).

End Spec.

(** ** Example books *)

(** A record with a name and a birthday, built through the methods. *)
Definition contact (name birthday : string) : Record.t :=
  snd (Record.add_birthday (ascii_str birthday)
         (Record.__init__ (ascii_str name))).

(** The book after [add_record] of each record of [rs]. *)
Definition book_of (rs : list Record.t) : AddressBook.t :=
  Spec.add_records rs AddressBook.__init__.

(** Bob was born on February 29. *)
Definition leap_book : AddressBook.t :=
  book_of [contact "Bob" "29.02.2024"].

(** Alice's birthday is January 3, Bob's is February 29. *)
Definition alice_and_bob : AddressBook.t :=
  book_of [contact "Alice" "03.01.2000"; contact "Bob" "29.02.2024"].

(** Birthdays on Friday 6, Saturday 7 and Sunday 8 November 2026, one
    on 20 November, and a contact without birthday. *)
Definition november_book : AddressBook.t :=
  book_of [contact "Fay" "06.11.1991"; contact "Sam" "07.11.1990";
           contact "Sue" "08.11.1985"; contact "Carol" "20.11.1970";
           Record.__init__ (ascii_str "Nobody")].

(** The record of the example: phones 1111111111 and 2222222222. *)
Definition two_phones : Record.t :=
  Record.mk (Name.mk (ascii_str "Ann"))
            [Phone.mk (ascii_str "1111111111");
             Phone.mk (ascii_str "2222222222")] None.

(** A second record of the name Ann, without phones, and a record of the
    name Bob. *)
Definition ann_again : Record.t := Record.__init__ (ascii_str "Ann").
Definition bob_record : Record.t :=
  Record.mk (Name.mk (ascii_str "Bob")) [Phone.mk (ascii_str "5555555555")]
            None.

(* ================================================================== *)
(** * Auxiliary definitions for the calendar proofs *)

Module DateAux.
Import Date.

(** The last part of [_ord2ymd]: month and day of the [n]-th day (from 0)
    of a year. *)
Definition month_day (n : Z) (leapyear : bool) : Z * Z :=
  let month := Z.shiftr (n + 50) 5 in
  let preceding :=
    item _DAYS_BEFORE_MONTH month + Z.b2z ((2 <? month) && leapyear) in
  let '(month, preceding) :=
    if n <? preceding
    then (month - 1,
          preceding - (item _DAYS_IN_MONTH (month - 1)
                       + Z.b2z ((month - 1 =? 2) && leapyear)))
    else (month, preceding) in
  (month, n - preceding + 1).

Definition month_day_ok (leapyear : bool) (n : nat) : bool :=
  let '(m, d) := month_day (Z.of_nat n) leapyear in
  (1 <=? m) && (m <=? 12) && (1 <=? d)
  && (d <=? (if (m =? 2) && leapyear then 29 else item _DAYS_IN_MONTH m))
  && (item _DAYS_BEFORE_MONTH m + Z.b2z ((2 <? m) && leapyear) + d
      =? Z.of_nat n + 1).

(** Month lengths and offsets, given whether the year is a leap year. *)
Definition dim (leap : bool) (m : Z) : Z :=
  if (m =? 2) && leap then 29 else item _DAYS_IN_MONTH m.
Definition dbm (leap : bool) (m : Z) : Z :=
  item _DAYS_BEFORE_MONTH m + Z.b2z ((2 <? m) && leap).

Definition month_row_ok (leap : bool) (m1 : nat) : bool :=
  let a := Z.of_nat m1 in
  (0 <=? dbm leap a) && (1 <=? dim leap a) && (dim leap a <=? 31)
  && (dbm leap a + dim leap a <=? 365 + Z.b2z leap)
  && forallb (fun m2 => let b := Z.of_nat m2 in
                implb (a <? b) (dbm leap a + dim leap a <=? dbm leap b))
             (seq 1 12).

End DateAux.

(* ================================================================== *)
(** * Auxiliary definitions for the proofs about texts of dates *)

Module StrptimeAux.
Import Date Unicode.

(** The two-digit text of [10 * a + b] is a token of [tok] and reads as
    that number, when the number lies between [lo] and [hi]. *)
Definition two_digits_ok (tok : str -> bool) (lo hi : Z) (a b : nat) : bool :=
  let v := 10 * Z.of_nat a + Z.of_nat b in
  let s := [digit_char (Z.of_nat a); digit_char (Z.of_nat b)] in
  implb ((lo <=? v) && (v <=? hi))
        (tok s && match int s with Ok n => n =? v | Raise _ => false end).

Definition two_digits_table (tok : str -> bool) (lo hi : Z) : bool :=
  forallb (fun a => forallb (two_digits_ok tok lo hi a) (seq 0 10)) (seq 0 10).

Definition digit_ok (v : nat) : bool :=
  let c := digit_char (Z.of_nat v) in
  is_decimal c && is_ascii_digit c && negb (N.eqb c 32)
  && match decimal_value c with Some n => n =? Z.of_nat v | None => false end.
End StrptimeAux.

(* ================================================================== *)
(** * The command handlers and the decorator [input_error] *)

Module Handlers.
Import AddressBook.

(** What a handler body can raise: an exception of the classes above, the
    [ValueError] of an unpacking [a, b, *_ = args] that finds too few
    values, or [KeyError(key)]. *)
Inductive raised : Type :=
| Core (e : exn)
| NotEnoughValues (expected got : Z)
| KeyError (key : str).

Inductive outcome (A : Type) : Type :=
| Return (a : A)
| Raised (e : raised).
Arguments Return {A} a.
Arguments Raised {A} e.

(** A handler works on the book it is given. *)
Definition H (A : Type) : Type := AddressBook.t -> outcome A * AddressBook.t.

Definition hret {A} (a : A) : H A := fun book => (Return a, book).

Definition hbind {A B} (m : H A) (f : A -> H B) : H B :=
  fun book => match m book with
              | (Return a, book') => f a book'
              | (Raised e, book') => (Raised e, book')
              end.

Definition hraise {A} (e : raised) : H A := fun book => (Raised e, book).

Definition of_result {A} (x : result A) : outcome A :=
  match x with
  | Ok a => Return a
  | Raise e => Raised (Core e)
  end.

(** A method call on the book. *)
Definition call {A} (m : M AddressBook.t A) : H A :=
  fun book => let '(x, book') := m book in (of_result x, book').

(** A method call on [record], the object that the book holds under the
    key [name]: the book sees what the call does to the object.  (Every
    [Record] object is stored under one key.) *)
Definition on_record {A} (name : str) (record : Record.t)
    (m : M Record.t A) : H A :=
  fun book => let '(x, record') := m record in
              (of_result x, dict_setitem book name record').

(** The texts that a decorated handler returns.  A text made of ASCII
    literals and values is given as it is; the other constructors stand
    for one message each. *)
Inductive reply : Type :=
| Text (s : str)
| ErrorText (m : message)
    (* str(e) for the ValueError with the message m *)
| NotEnoughValuesText (expected got : Z)
    (* str(e) for the ValueError of an unpacking *)
| NotEnoughArgumentsText
    (* "Недостатньо аргументів для команди." *)
| ContactNotFoundText (key : str)
    (* f"Контакт '{e}' не знайдено." for e = KeyError(key) *)
| BirthdayNotSetText (name : str)
    (* f"День народження для '{name}' не вказано." *)
| NoBirthdaysText.
    (* "Найближчого тижня іменинників немає." *)

(** [input_error(func)]: [ValueError], [IndexError] and [KeyError] become
    texts; any other exception goes on to the caller. *)
Definition input_error (func : H reply) : H reply :=
  fun book =>
    match func book with
    | (Return r, book') => (Return r, book')
    | (Raised (Core (ValueError m)), book') => (Return (ErrorText m), book')
    | (Raised (NotEnoughValues expected got), book') =>
        (Return (NotEnoughValuesText expected got), book')
    | (Raised (Core (IndexError _)), book') =>
        (Return NotEnoughArgumentsText, book')
    | (Raised (KeyError key), book') =>
        (Return (ContactNotFoundText key), book')
    | (Raised e, book') => (Raised e, book')
    end.

(** [len(args)] *)
Definition count (args : list str) : Z := Z.of_nat (List.length args).

(** [name, *_ = args] *)
Definition unpack1 (args : list str) : H str :=
  match args with
  | a :: _ => hret a
  | _ => hraise (NotEnoughValues 1 (count args))
  end.

(** [name, phone, *_ = args] *)
Definition unpack2 (args : list str) : H (str * str) :=
  match args with
  | a :: b :: _ => hret (a, b)
  | _ => hraise (NotEnoughValues 2 (count args))
  end.

(** [name, old_phone, new_phone, *_ = args] *)
Definition unpack3 (args : list str) : H (str * str * str) :=
  match args with
  | a :: b :: c :: _ => hret (a, b, c)
  | _ => hraise (NotEnoughValues 3 (count args))
  end.

(** [sep.join(parts)] *)
Fixpoint join (sep : str) (parts : list str) : str :=
  match parts with
  | [] => []
  | [p] => p
  | p :: rest => p ++ sep ++ join sep rest
  end.

Declare Scope handler_scope.
Notation "x <- m ;; k" := (hbind m (fun x => k))
  (at level 61, m at next level, right associativity) : handler_scope.
Notation "m ;;; k" := (hbind m (fun _ => k))
  (at level 61, right associativity) : handler_scope.
Local Open Scope handler_scope.

(** The bodies of the handlers. *)

Definition add_contact_body (args : list str) : H reply :=
  np <- unpack2 args;;
  let '(name, phone) := np in
  record <- call (find name);;
  rm <- match record with
        | None =>
            let record := Record.__init__ name in
            call (add_record record);;;
            hret (record, Text (ascii_str "Contact added."))
        | Some record => hret (record, Text (ascii_str "Contact updated."))
        end;;
  let '(record, message) := rm in
  (if negb (len phone =? 0)
   then on_record name record (Record.add_phone phone)
   else hret tt);;;
  hret message.

Definition change_contact_body (args : list str) : H reply :=
  non <- unpack3 args;;
  let '(name, old_phone, new_phone) := non in
  record <- call (find name);;
  match record with
  | None => hraise (KeyError name)
  | Some record =>
      on_record name record (Record.edit_phone old_phone new_phone);;;
      hret (Text (ascii_str "Contact updated."))
  end.

Definition show_phone_body (args : list str) : H reply :=
  name <- unpack1 args;;
  record <- call (find name);;
  match record with
  | None => hraise (KeyError name)
  | Some record =>
      hret (Text (join (ascii_str "; ")
                       (List.map Phone.value (Record.phones record))))
  end.

Definition add_birthday_body (args : list str) : H reply :=
  nb <- unpack2 args;;
  let '(name, birthday) := nb in
  record <- call (find name);;
  match record with
  | None => hraise (KeyError name)
  | Some record =>
      on_record name record (Record.add_birthday birthday);;;
      hret (Text (ascii_str "Birthday added."))
  end.

Definition show_birthday_body (args : list str) : H reply :=
  name <- unpack1 args;;
  record <- call (find name);;
  match record with
  | None => hraise (KeyError name)
  | Some record =>
      match Record.birthday record with
      | None => hret (BirthdayNotSetText name)
      | Some b => hret (Text (Birthday.__str__ b))
      end
  end.

(** [f"{entry['name']}: {entry['congratulation_date']}"] *)
Definition entry_line (e : entry) : str :=
  entry_name e ++ ascii_str ": " ++ congratulation_date e.

Definition birthdays_body (today : Date.date) (args : list str) : H reply :=
  upcoming <- call (get_upcoming_birthdays today);;
  match upcoming with
  | [] => hret NoBirthdaysText
  | _ => hret (Text (join [10%N] (List.map entry_line upcoming)))
  end.

(** The handlers as the module defines them, under [@input_error]. *)
Definition add_contact (args : list str) : H reply :=
  input_error (add_contact_body args).
Definition change_contact (args : list str) : H reply :=
  input_error (change_contact_body args).
Definition show_phone (args : list str) : H reply :=
  input_error (show_phone_body args).
Definition add_birthday (args : list str) : H reply :=
  input_error (add_birthday_body args).
Definition show_birthday (args : list str) : H reply :=
  input_error (show_birthday_body args).
Definition birthdays (today : Date.date) (args : list str) : H reply :=
  input_error (birthdays_body today args).

End Handlers.

(** ** Well-formed books *)

(** A phone number as [Phone] accepts it. *)
Definition phone_ok (p : Phone.t) : Prop :=
  Unicode.isdigit (Phone.value p) = true /\ len (Phone.value p) = 10.

(** The phones of the record are phone numbers and its birthday, if any,
    is a date. *)
Definition record_ok (r : Record.t) : Prop :=
  Forall phone_ok (Record.phones r)
  /\ forall b, Record.birthday r = Some b -> Date.valid (Birthday.value b).

(** The keys of the book differ, every record is stored under its own
    name, and every record is well formed. *)
Definition book_ok (book : AddressBook.t) : Prop :=
  NoDup (AddressBook.keys book) /\ keyed_by_name book
  /\ Forall record_ok (AddressBook.values book).

(** The three mutators of [Record] keep the name and keep the record well
    formed; when they raise, they raise [ValueError] and change
    nothing. *)
Definition mutator_ok (m : M Record.t unit) : Prop :=
  forall self,
    Record.name (snd (m self)) = Record.name self
    /\ (record_ok self -> record_ok (snd (m self)))
    /\ (forall e, fst (m self) = Raise e ->
          snd (m self) = self /\ exists msg, e = ValueError msg).

(* ================================================================== *)
(** * Reading a command line: [parse_input] *)

Module Console.

(** The characters for which [str.isspace] holds; [str.strip()] and
    [str.split()] remove and split at exactly these (Unicode 14.0). *)
Definition space_ranges : list (N * N) := [
    (9, 13); (28, 32); (133, 133); (160, 160); (5760, 5760);
    (8192, 8202); (8232, 8233); (8239, 8239); (8287, 8287); (12288, 12288)
  ]%N.

Definition is_space (c : N) : bool := Unicode.in_ranges space_ranges c.

(** [s.lstrip()], [s.rstrip()], [s.strip()] *)
Fixpoint lstrip (s : str) : str :=
  match s with
  | c :: s' => if is_space c then lstrip s' else s
  | [] => []
  end.

Definition rstrip (s : str) : str := rev (lstrip (rev s)).

Definition strip (s : str) : str := rstrip (lstrip s).

(** [s.split()]: the words between runs of whitespace; [word] is the word
    that is being read. *)
Fixpoint split_from (word : str) (s : str) : list str :=
  match s with
  | [] => match word with [] => [] | _ => [word] end
  | c :: s' =>
      if is_space c
      then match word with
           | [] => split_from [] s'
           | _ => word :: split_from [] s'
           end
      else split_from (word ++ [c]) s'
  end.

Definition split (s : str) : list str := split_from [] s.

Section WithLower.

(** [str.lower], the lower-casing of the Unicode database. *)
Variable lower : str -> str.

(** [parse_input(user_input)]: the command and the list of arguments. *)
Definition parse_input (user_input : str) : str * list str :=
  let parts := split (strip user_input) in
  let command := match parts with
                 | p :: _ => lower p
                 | [] => []
                 end in
  let args := tl parts in
  (command, args).

End WithLower.

End Console.

(** A word: not empty, and without whitespace. *)
Definition is_word (w : str) : Prop :=
  w <> [] /\ forallb (fun c => negb (Console.is_space c)) w = true.

(* ================================================================== *)
(** * Strings *)

Lemma str_eqb_eq (a b : str) : str_eqb a b = true <-> a = b.
Proof.
  revert b; induction a as [|x a IH]; intros [|y b]; simpl;
    try (split; [discriminate | congruence]); try tauto.
  rewrite andb_true_iff, N.eqb_eq, IH. split.
  - intros [-> ->]; reflexivity.
  - intros [= -> ->]; auto.
Qed.

Lemma str_eqb_refl (a : str) : str_eqb a a = true.
Proof. apply str_eqb_eq; reflexivity. Qed.

Lemma str_eqb_neq (a b : str) : str_eqb a b = false <-> a <> b.
Proof.
  rewrite <- str_eqb_eq. destruct (str_eqb a b); split; congruence.
Qed.

(* ================================================================== *)
(** * Phone numbers *)

Section PhoneFacts.
Import Unicode.

Lemma in_range_spec (lo hi c : N) :
  in_range lo hi c = true <-> (lo <= c <= hi)%N.
Proof.
  unfold in_range. rewrite andb_true_iff, !N.leb_le. tauto.
Qed.

(** Below U+0080 the digits of [str.isdigit] are ['0'..'9'] only. *)
Lemma is_digit_ascii (c : N) :
  (c < 128)%N -> is_digit c = is_ascii_digit c.
Proof.
  intros Hc. unfold is_digit, in_ranges, digit_ranges.
  cbn [existsb fst snd].
  assert (Hout : forall lo hi, (128 <= lo)%N -> in_range lo hi c = false).
  { intros lo hi Hlo. unfold in_range.
    destruct (N.leb_spec lo c); [lia | reflexivity]. }
  repeat match goal with
         | |- context [in_range ?lo ?hi c] => rewrite (Hout lo hi) by lia
         end.
  rewrite !orb_false_r. reflexivity.
Qed.

Lemma len_eq_length (s : str) (n : nat) :
  len s = Z.of_nat n <-> List.length s = n.
Proof. unfold len. lia. Qed.

Lemma isdigit_spec (s : str) :
  isdigit s = true <-> s <> [] /\ Forall (fun c => is_digit c = true) s.
Proof.
  unfold isdigit. rewrite andb_true_iff, negb_true_iff, forallb_forall,
    Forall_forall, Z.eqb_neq.
  unfold len. destruct s; simpl; split; intros [H1 H2]; split; auto;
    try congruence; lia.
Qed.

End PhoneFacts.

(** C3 (counterexample).  The ten-character string made of U+00B2
    (SUPERSCRIPT TWO) is accepted by [Phone], although none of its
    characters is a decimal digit: [str.isdigit] holds for it, while
    [str.isdecimal] and the test for ['0'..'9'] do not. *)
Lemma phone_accepts_superscript_digits :
  Phone.__init__ (repeat 178%N 10) = Ok (Phone.mk (repeat 178%N 10))
  /\ forallb Unicode.is_decimal (repeat 178%N 10) = false
  /\ forallb Unicode.is_ascii_digit (repeat 178%N 10) = false.
Proof. repeat split; vm_compute; reflexivity. Qed.

(** C3 (amended).  [Phone(s)] succeeds exactly when [s] has ten characters
    and each of them is a digit in the sense of [str.isdigit]; the new
    object then renders as [s].  Every other string is rejected with the
    validation error.  For a string of ASCII characters the accepted ones
    are exactly the ten-character strings over ['0'..'9']. *)
Theorem phone_init_spec (s : str) :
  let digits := Forall (fun c => Unicode.is_digit c = true) s
                /\ List.length s = 10%nat in
  (digits -> exists p, Phone.__init__ s = Ok p /\ Phone.__str__ p = s)
  /\ (~ digits -> Phone.__init__ s = Raise (ValueError (PhoneFormatMsg s)))
  /\ (Forall (fun c => (c < 128)%N) s ->
      (digits <-> Forall (fun c => Unicode.is_ascii_digit c = true) s
                  /\ List.length s = 10%nat)).
Proof.
  intros digits. unfold Phone.__init__.
  assert (Hd : Unicode.isdigit s = true /\ (len s =? 10) = true <-> digits).
  { unfold digits. rewrite isdigit_spec, Z.eqb_eq.
    rewrite (len_eq_length s 10). split.
    - tauto.
    - intros [HF HL]. repeat split; auto. intros ->; discriminate. }
  split; [|split].
  - intros H. apply Hd in H. destruct H as [-> ->]. simpl.
    exists (Phone.mk s). split; reflexivity.
  - intros H.
    destruct (Unicode.isdigit s) eqn:E1; simpl; [|reflexivity].
    destruct (len s =? 10) eqn:E2; simpl; [|reflexivity].
    exfalso. apply H, Hd. split; reflexivity.
  - intros Hascii. unfold digits. rewrite !Forall_forall in *.
    split; intros [HF HL]; split; auto; intros c Hc.
    + rewrite <- is_digit_ascii by auto. auto.
    + rewrite is_digit_ascii by auto. auto.
Qed.

Lemma phone_init_spec_witness :
  (exists p, Phone.__init__ (ascii_str "0123456789") = Ok p
             /\ Phone.__str__ p = ascii_str "0123456789")
  /\ Phone.__init__ (ascii_str "12a") =
     Raise (ValueError (PhoneFormatMsg (ascii_str "12a"))).
Proof.
  split.
  - apply (phone_init_spec (ascii_str "0123456789")).
    split; [|reflexivity].
    apply Forall_forall. intros c Hc. simpl in Hc.
    repeat (destruct Hc as [<-|Hc]; [reflexivity|]). destruct Hc.
  - apply (phone_init_spec (ascii_str "12a")).
    intros [_ H]. discriminate H.
Defined.

(* ================================================================== *)
(** * Records *)

Section RecordFacts.
Import Record.

Lemma find_phone_in_none (ps : list Phone.t) (phone : str) :
  find_phone_in ps phone = None <-> Forall (differs phone) ps.
Proof.
  induction ps as [|p ps IH]; simpl.
  - split; auto.
  - destruct (str_eqb (Phone.value p) phone) eqn:E.
    + apply str_eqb_eq in E. split; [discriminate|].
      intros H. inversion H; subst. contradiction.
    + apply str_eqb_neq in E. rewrite IH. split.
      * intros H. constructor; assumption.
      * intros H. inversion H; assumption.
Qed.

Lemma find_phone_in_first (l1 l2 : list Phone.t) (p : Phone.t) (phone : str) :
  Forall (differs phone) l1 -> Phone.value p = phone ->
  find_phone_in (l1 ++ p :: l2) phone = Some p.
Proof.
  intros H Hp. induction H as [|x l Hx _ IH]; simpl.
  - rewrite Hp, str_eqb_refl. reflexivity.
  - apply str_eqb_neq in Hx. rewrite Hx. exact IH.
Qed.

Lemma find_phone_in_some (ps : list Phone.t) (phone : str) (p : Phone.t) :
  find_phone_in ps phone = Some p ->
  exists l1 l2, ps = l1 ++ p :: l2 /\ Phone.value p = phone
                /\ Forall (differs phone) l1.
Proof.
  induction ps as [|x ps IH]; simpl; [discriminate|].
  destruct (str_eqb (Phone.value x) phone) eqn:E.
  - intros [= ->]. apply str_eqb_eq in E.
    exists [], ps. repeat split; auto.
  - intros H. destruct (IH H) as (l1 & l2 & -> & Hp & Hl).
    apply str_eqb_neq in E.
    exists (x :: l1), l2. repeat split; auto.
Qed.

Lemma list_index_first (l1 l2 : list Phone.t) (p : Phone.t) :
  Forall (differs (Phone.value p)) l1 ->
  list_index (l1 ++ p :: l2) p = Ok (Z.of_nat (List.length l1)).
Proof.
  intros H. induction H as [|x l Hx _ IH]; simpl.
  - unfold Phone.eqb. rewrite str_eqb_refl. reflexivity.
  - unfold Phone.eqb at 1. apply str_eqb_neq in Hx. rewrite Hx, IH.
    simpl. f_equal. lia.
Qed.

Lemma list_setitem_middle (l1 l2 : list Phone.t) (p q : Phone.t) :
  list_setitem (l1 ++ p :: l2) (List.length l1) q = Ok (l1 ++ q :: l2).
Proof.
  induction l1 as [|x l1 IH]; simpl; [reflexivity|].
  rewrite IH. reflexivity.
Qed.

Lemma list_remove_first (l1 l2 : list Phone.t) (p : Phone.t) :
  Forall (differs (Phone.value p)) l1 ->
  list_remove (l1 ++ p :: l2) p = Ok (l1 ++ l2).
Proof.
  intros H. induction H as [|x l Hx _ IH]; simpl.
  - unfold Phone.eqb. rewrite str_eqb_refl. reflexivity.
  - unfold Phone.eqb at 1. apply str_eqb_neq in Hx. rewrite Hx, IH.
    reflexivity.
Qed.

(** [edit_phone] on a record whose first phone equal to [old_phone] is
    [p]. *)
Lemma edit_phone_found (self : t) (old new : str) l1 p l2 :
  phones self = l1 ++ p :: l2 ->
  Forall (differs old) l1 -> Phone.value p = old ->
  edit_phone old new self =
  match Phone.__init__ new with
  | Ok q => (Ok tt, set_phones self (l1 ++ q :: l2))
  | Raise e => (Raise e, self)
  end.
Proof.
  intros Hps Hl Hp.
  unfold edit_phone, find_phone, mbind, get, ret, lift, put.
  rewrite Hps, (find_phone_in_first l1 l2 p old Hl Hp), Hps.
  rewrite list_index_first by (rewrite Hp; exact Hl).
  destruct (Phone.__init__ new) as [q|e]; [|reflexivity].
  rewrite Nat2Z.id, list_setitem_middle. reflexivity.
Qed.

Lemma edit_phone_absent (self : t) (old new : str) :
  Forall (differs old) (phones self) ->
  edit_phone old new self =
  (Raise (ValueError (PhoneNotFoundMsg old (Name.value (name self)))), self).
Proof.
  intros H. apply find_phone_in_none in H.
  unfold edit_phone, find_phone, mbind, get, ret, raise. rewrite H.
  reflexivity.
Qed.

Lemma remove_phone_found (self : t) (phone : str) l1 p l2 :
  phones self = l1 ++ p :: l2 ->
  Forall (differs phone) l1 -> Phone.value p = phone ->
  remove_phone phone self = (Ok tt, set_phones self (l1 ++ l2)).
Proof.
  intros Hps Hl Hp.
  unfold remove_phone, find_phone, mbind, get, ret, lift, put.
  rewrite Hps, (find_phone_in_first l1 l2 p phone Hl Hp), Hps.
  rewrite list_remove_first by (rewrite Hp; exact Hl). reflexivity.
Qed.

Lemma remove_phone_absent (self : t) (phone : str) :
  Forall (differs phone) (phones self) ->
  remove_phone phone self =
  (Raise (ValueError (PhoneNotFoundMsg phone (Name.value (name self)))),
   self).
Proof.
  intros H. apply find_phone_in_none in H.
  unfold remove_phone, find_phone, mbind, get, ret, raise. rewrite H.
  reflexivity.
Qed.

Lemma phone_init_raises (s : str) (e : exn) :
  Phone.__init__ s = Raise e -> e = ValueError (PhoneFormatMsg s).
Proof.
  unfold Phone.__init__.
  destruct (negb (Unicode.isdigit s) || negb (len s =? 10)); congruence.
Qed.

Lemma phone_init_value (s : str) (q : Phone.t) :
  Phone.__init__ s = Ok q -> Phone.value q = s.
Proof.
  unfold Phone.__init__.
  destruct (negb (Unicode.isdigit s) || negb (len s =? 10));
    [discriminate|]. intros [= <-]. reflexivity.
Qed.

(** Either some phone of the list has the value [phone], and then the list
    splits at the first such phone, or none has. *)
Lemma phones_split_or_absent (ps : list Phone.t) (phone : str) :
  (exists l1 p l2, ps = l1 ++ p :: l2 /\ Forall (differs phone) l1
                   /\ Phone.value p = phone)
  \/ Forall (differs phone) ps.
Proof.
  destruct (find_phone_in ps phone) as [p|] eqn:E.
  - left. destruct (find_phone_in_some _ _ _ E) as (l1 & l2 & H1 & H2 & H3).
    exists l1, p, l2. auto.
  - right. apply find_phone_in_none. exact E.
Qed.

End RecordFacts.

(** C6.  [edit_phone(old, new)] on any record:
    - when the first phone with value [old] is [p], at position
      [length l1], and [new] is a valid number, the call succeeds and
      leaves a record whose phone list is the old one with [Phone(new)] at
      that position, every other phone staying where it was, and whose
      name and birthday are the old ones;
    - when no phone has the value [old], the call raises the not-found
      error and the record is untouched;
    - when [new] is malformed the call raises a [ValueError] and the
      record is untouched; the error is the validation error of [new]
      unless [old] is absent (the lookup comes first). *)
Theorem edit_phone_spec (self : Record.t) (old new : str) :
  (forall l1 p l2 q,
      Record.phones self = l1 ++ p :: l2 ->
      Forall (differs old) l1 -> Phone.value p = old ->
      Phone.__init__ new = Ok q ->
      exists self',
        Record.edit_phone old new self = (Ok tt, self')
        /\ Record.phones self' = l1 ++ q :: l2
        /\ Record.name self' = Record.name self
        /\ Record.birthday self' = Record.birthday self
        /\ Phone.value q = new)
  /\ (Forall (differs old) (Record.phones self) ->
      Record.edit_phone old new self
      = (Raise (ValueError
                  (PhoneNotFoundMsg old (Name.value (Record.name self)))),
         self))
  /\ (forall e, Phone.__init__ new = Raise e ->
      exists m, Record.edit_phone old new self = (Raise (ValueError m), self)
                /\ (~ Forall (differs old) (Record.phones self) ->
                    m = PhoneFormatMsg new)).
Proof.
  split; [|split].
  - intros l1 p l2 q Hps Hl Hp Hq.
    rewrite (edit_phone_found self old new l1 p l2 Hps Hl Hp), Hq.
    eexists. split; [reflexivity|]. cbn [Record.set_phones Record.phones
      Record.name Record.birthday].
    do 3 (split; [reflexivity|]). apply phone_init_value; assumption.
  - apply edit_phone_absent.
  - intros e He. pose proof (phone_init_raises _ _ He) as ->.
    destruct (phones_split_or_absent (Record.phones self) old)
      as [(l1 & p & l2 & Hps & Hl & Hp)|Habs].
    + exists (PhoneFormatMsg new).
      rewrite (edit_phone_found self old new l1 p l2 Hps Hl Hp), He.
      split; reflexivity.
    + eexists. rewrite (edit_phone_absent self old new Habs).
      split; [reflexivity|]. intros H; contradiction.
Qed.

Lemma edit_phone_spec_witness :
  (exists self',
      Record.edit_phone (ascii_str "1111111111") (ascii_str "3333333333")
                        two_phones
      = (Ok tt, self')
      /\ Record.phones self' = [Phone.mk (ascii_str "3333333333");
                                Phone.mk (ascii_str "2222222222")]
      /\ Record.name self' = Record.name two_phones
      /\ Record.birthday self' = Record.birthday two_phones
      /\ Phone.value (Phone.mk (ascii_str "3333333333"))
         = ascii_str "3333333333")
  /\ Record.edit_phone (ascii_str "9999999999") (ascii_str "0000000000")
                       two_phones
     = (Raise (ValueError (PhoneNotFoundMsg (ascii_str "9999999999")
                                            (ascii_str "Ann"))),
        two_phones).
Proof.
  split.
  - apply (proj1 (edit_phone_spec two_phones (ascii_str "1111111111")
                                  (ascii_str "3333333333"))
                 [] (Phone.mk (ascii_str "1111111111"))
                 [Phone.mk (ascii_str "2222222222")]
                 (Phone.mk (ascii_str "3333333333")));
      [reflexivity | constructor | reflexivity | reflexivity].
  - apply (proj1 (proj2 (edit_phone_spec two_phones
                           (ascii_str "9999999999")
                           (ascii_str "0000000000")))).
    repeat constructor; discriminate.
Defined.

(** C9.  A call of [add_phone], [edit_phone] or [remove_phone] that raises
    leaves the record as it was: same name, same phones in the same order,
    same birthday.  The exception is a [ValueError] (validation or
    not-found). *)
Theorem failed_phone_mutation_is_atomic (self self' : Record.t) (e : exn) :
  (forall phone,
      Record.add_phone phone self = (Raise e, self') ->
      self' = self /\ exists m, e = ValueError m)
  /\ (forall old new,
      Record.edit_phone old new self = (Raise e, self') ->
      self' = self /\ exists m, e = ValueError m)
  /\ (forall phone,
      Record.remove_phone phone self = (Raise e, self') ->
      self' = self /\ exists m, e = ValueError m).
Proof.
  split; [|split].
  - intros phone. unfold Record.add_phone, mbind, lift, get, put.
    destruct (Phone.__init__ phone) as [p|e'] eqn:E; [discriminate|].
    intros [= <- <-]. split; [reflexivity|].
    rewrite (phone_init_raises _ _ E). eauto.
  - intros old new.
    destruct (phones_split_or_absent (Record.phones self) old)
      as [(l1 & p & l2 & Hps & Hl & Hp)|Habs].
    + rewrite (edit_phone_found self old new l1 p l2 Hps Hl Hp).
      destruct (Phone.__init__ new) as [q|e'] eqn:E; [discriminate|].
      intros [= <- <-]. split; [reflexivity|].
      rewrite (phone_init_raises _ _ E). eauto.
    + rewrite (edit_phone_absent self old new Habs).
      intros [= <- <-]. eauto.
  - intros phone.
    destruct (phones_split_or_absent (Record.phones self) phone)
      as [(l1 & p & l2 & Hps & Hl & Hp)|Habs].
    + rewrite (remove_phone_found self phone l1 p l2 Hps Hl Hp).
      discriminate.
    + rewrite (remove_phone_absent self phone Habs).
      intros [= <- <-]. eauto.
Qed.

Lemma failed_phone_mutation_is_atomic_witness :
  snd (Record.add_phone (ascii_str "12345") two_phones) = two_phones
  /\ snd (Record.edit_phone (ascii_str "2222222222") (ascii_str "22-22")
                            two_phones) = two_phones
  /\ snd (Record.remove_phone (ascii_str "9999999999") two_phones)
     = two_phones.
Proof.
  split; [|split].
  - apply (proj1 (failed_phone_mutation_is_atomic two_phones
             (snd (Record.add_phone (ascii_str "12345") two_phones))
             (ValueError (PhoneFormatMsg (ascii_str "12345"))))
             (ascii_str "12345")).
    reflexivity.
  - apply (proj1 (proj2 (failed_phone_mutation_is_atomic two_phones
             (snd (Record.edit_phone (ascii_str "2222222222")
                                     (ascii_str "22-22") two_phones))
             (ValueError (PhoneFormatMsg (ascii_str "22-22")))))
             (ascii_str "2222222222") (ascii_str "22-22")).
    reflexivity.
  - apply (proj2 (proj2 (failed_phone_mutation_is_atomic two_phones
             (snd (Record.remove_phone (ascii_str "9999999999") two_phones))
             (ValueError (PhoneNotFoundMsg (ascii_str "9999999999")
                                           (ascii_str "Ann")))))
             (ascii_str "9999999999")).
    reflexivity.
Defined.

(* ================================================================== *)
(** * The address book as a dictionary *)

Section BookFacts.
Import AddressBook.

Lemma dict_contains_In (d : t) (k : str) :
  dict_contains d k = true <-> In k (keys d).
Proof.
  unfold dict_contains, keys. rewrite existsb_exists, in_map_iff.
  split.
  - intros (kv & Hin & Hk). apply str_eqb_eq in Hk. eauto.
  - intros (kv & Hk & Hin). exists kv. split; auto.
    apply str_eqb_eq; assumption.
Qed.

Lemma dict_get_setitem_same (d : t) (k : str) (v : Record.t) :
  dict_get (dict_setitem d k v) k = Some v.
Proof.
  induction d as [|[k0 v0] d IH]; simpl.
  - rewrite str_eqb_refl; reflexivity.
  - destruct (str_eqb k0 k) eqn:E; simpl; rewrite E; auto.
Qed.

Lemma dict_get_setitem_other (d : t) (k k' : str) (v : Record.t) :
  k' <> k -> dict_get (dict_setitem d k v) k' = dict_get d k'.
Proof.
  intros Hne.
  assert (Hk : str_eqb k k' = false) by (apply str_eqb_neq; congruence).
  induction d as [|[k0 v0] d IH]; simpl.
  - rewrite Hk. reflexivity.
  - destruct (str_eqb k0 k) eqn:E; simpl.
    + apply str_eqb_eq in E; subst k0. rewrite Hk. reflexivity.
    + rewrite IH. reflexivity.
Qed.

Lemma keys_setitem (d : t) (k : str) (v : Record.t) :
  keys (dict_setitem d k v)
  = if dict_contains d k then keys d else keys d ++ [k].
Proof.
  induction d as [|[k0 v0] d IH]; simpl; [reflexivity|].
  unfold dict_contains in *. simpl.
  destruct (str_eqb k0 k) eqn:E; simpl; [reflexivity|].
  unfold keys in *. rewrite IH.
  destruct (existsb _ d); reflexivity.
Qed.

Lemma NoDup_keys_setitem (d : t) (k : str) (v : Record.t) :
  NoDup (keys d) -> NoDup (keys (dict_setitem d k v)).
Proof.
  intros H. rewrite keys_setitem.
  destruct (dict_contains d k) eqn:E; [assumption|].
  assert (~ In k (keys d)) as Hnin.
  { rewrite <- dict_contains_In, E. discriminate. }
  clear E. induction (keys d) as [|x l IH]; simpl.
  - constructor; [intros []|constructor].
  - inversion H; subst. constructor.
    + rewrite in_app_iff. simpl. intros [?|[?|[]]]; [auto|].
      subst. apply Hnin. left; reflexivity.
    + apply IH; auto. intros ?; apply Hnin; right; assumption.
Qed.

Lemma keyed_by_name_setitem (d : t) (r : Record.t) :
  keyed_by_name d -> keyed_by_name (dict_setitem d (name_of r) r).
Proof.
  unfold keyed_by_name. induction d as [|[k0 v0] d IH]; simpl; intros H.
  - constructor; [reflexivity|constructor].
  - inversion H; subst.
    destruct (str_eqb k0 (name_of r)) eqn:E.
    + apply str_eqb_eq in E. constructor; [exact E|assumption].
    + constructor; auto.
Qed.

Lemma keyed_by_name_keys (d : t) :
  keyed_by_name d -> List.map name_of (values d) = keys d.
Proof.
  unfold keyed_by_name, values, keys. induction 1 as [|kv d Hkv _ IH]; simpl.
  - reflexivity.
  - rewrite IH, Hkv. reflexivity.
Qed.

Lemma add_records_cons (r : Record.t) (rs : list Record.t) (b : t) :
  Spec.add_records (r :: rs) b
  = Spec.add_records rs (dict_setitem b (name_of r) r).
Proof. reflexivity. Qed.

Lemma add_records_invariant (rs : list Record.t) (b : t) :
  NoDup (keys b) -> keyed_by_name b ->
  NoDup (keys (Spec.add_records rs b)) /\ keyed_by_name (Spec.add_records rs b).
Proof.
  revert b. induction rs as [|r rs IH]; intros b Hn Hk.
  - split; assumption.
  - rewrite add_records_cons. apply IH.
    + apply NoDup_keys_setitem; assumption.
    + apply keyed_by_name_setitem; assumption.
Qed.

Lemma dict_get_add_records (rs : list Record.t) (b : t) (n : str) :
  dict_get (Spec.add_records rs b) n
  = match Spec.latest n rs with
    | Some x => Some x
    | None => dict_get b n
    end.
Proof.
  revert b. induction rs as [|r rs IH]; intros b; [reflexivity|].
  rewrite add_records_cons, IH. simpl.
  destruct (Spec.latest n rs); [reflexivity|].
  fold (name_of r).
  destruct (str_eqb (name_of r) n) eqn:E.
  - apply str_eqb_eq in E; subst n. apply dict_get_setitem_same.
  - apply dict_get_setitem_other. apply str_eqb_neq in E. congruence.
Qed.

End BookFacts.

(** C8.  [add_record(r)] puts [r] under the key [r.name.value]: a later
    [find] of that name returns [r], an entry that was there under this
    name is replaced in place (the keys stay as they are), otherwise the
    name is added as a new key, and the entries of other names are not
    touched.  After any sequence of [add_record] calls on a new book all
    keys differ, every record is stored under its own name, so no two
    entries have the same name, and [find(n)] returns the record added
    last under the name [n]. *)
Theorem add_record_spec (rs : list Record.t) :
  let book := Spec.add_records rs AddressBook.__init__ in
  (NoDup (AddressBook.keys book)
   /\ keyed_by_name book
   /\ NoDup (List.map name_of (AddressBook.values book))
   /\ forall n, AddressBook.find n book = (Ok (Spec.latest n rs), book))
  /\ forall (b : AddressBook.t) (r : Record.t),
      let b' := snd (AddressBook.add_record r b) in
      fst (AddressBook.add_record r b) = Ok tt
      /\ AddressBook.find (name_of r) b' = (Ok (Some r), b')
      /\ AddressBook.keys b'
         = (if AddressBook.dict_contains b (name_of r)
            then AddressBook.keys b
            else AddressBook.keys b ++ [name_of r])
      /\ forall n, n <> name_of r ->
                   AddressBook.find n b' = (fst (AddressBook.find n b), b').
Proof.
  intros book. split.
  - destruct (add_records_invariant rs AddressBook.__init__) as [Hn Hk].
    { constructor. } { constructor. }
    fold book in Hn, Hk. repeat split; auto.
    + rewrite keyed_by_name_keys; assumption.
    + intros n. unfold AddressBook.find, mbind, get, ret, book.
      rewrite dict_get_add_records.
      destruct (Spec.latest n rs); reflexivity.
  - intros b r b'. unfold b', AddressBook.add_record, AddressBook.find,
      mbind, get, put, ret. simpl. fold (name_of r).
    repeat split.
    + rewrite dict_get_setitem_same. reflexivity.
    + apply keys_setitem.
    + intros n Hn. rewrite dict_get_setitem_other by assumption.
      reflexivity.
Qed.

Lemma add_record_spec_witness :
  (NoDup (AddressBook.keys (book_of [two_phones; bob_record; ann_again]))
   /\ NoDup (List.map name_of
               (AddressBook.values
                  (book_of [two_phones; bob_record; ann_again])))
   /\ AddressBook.find (ascii_str "Ann")
        (book_of [two_phones; bob_record; ann_again])
      = (Ok (Some ann_again), book_of [two_phones; bob_record; ann_again])
   /\ AddressBook.find (ascii_str "Bob")
        (book_of [two_phones; bob_record; ann_again])
      = (Ok (Some bob_record), book_of [two_phones; bob_record; ann_again])
   /\ AddressBook.find (ascii_str "Zoe")
        (book_of [two_phones; bob_record; ann_again])
      = (Ok None, book_of [two_phones; bob_record; ann_again]))
  /\ fst (AddressBook.add_record ann_again (book_of [two_phones; bob_record]))
     = Ok tt
  /\ AddressBook.find (ascii_str "Ann")
       (snd (AddressBook.add_record ann_again
               (book_of [two_phones; bob_record])))
     = (Ok (Some ann_again),
        snd (AddressBook.add_record ann_again
               (book_of [two_phones; bob_record])))
  /\ AddressBook.keys
       (snd (AddressBook.add_record ann_again
               (book_of [two_phones; bob_record])))
     = [ascii_str "Ann"; ascii_str "Bob"]
  /\ AddressBook.find (ascii_str "Bob")
       (snd (AddressBook.add_record ann_again
               (book_of [two_phones; bob_record])))
     = (Ok (Some bob_record),
        snd (AddressBook.add_record ann_again
               (book_of [two_phones; bob_record]))).
Proof.
  destruct (add_record_spec [two_phones; bob_record; ann_again])
    as [(Hk & _ & Hn & Hf) Hs].
  destruct (Hs (book_of [two_phones; bob_record]) ann_again)
    as (H1 & H2 & H3 & H4).
  split.
  - split; [exact Hk|]. split; [exact Hn|].
    split; [exact (Hf (ascii_str "Ann"))|].
    split; [exact (Hf (ascii_str "Bob")) | exact (Hf (ascii_str "Zoe"))].
  - split; [exact H1|]. split; [exact H2|]. split; [exact H3|].
    apply (H4 (ascii_str "Bob")). discriminate.
Defined.

(** C10.  [get_upcoming_birthdays] does not change the book: whether it
    returns or raises, the dictionary it leaves is the one it was called
    on, with the same keys and the same records (names, phones,
    birthdays). *)
Theorem get_upcoming_birthdays_pure (today : Date.date)
    (book : AddressBook.t) :
  snd (AddressBook.get_upcoming_birthdays today book) = book.
Proof.
  unfold AddressBook.get_upcoming_birthdays, mbind, lift, get.
  destruct (Date.__add__ today 7); reflexivity.
Qed.

(* ================================================================== *)
(** * The calendar: ordinals, order and arithmetic of dates *)

Section DateFacts.
Import Date DateAux.

Lemma is_leap_decomp (n400 n100 n4 n1 : Z) :
  0 <= n100 <= 3 -> 0 <= n4 <= 24 -> 0 <= n1 <= 3 ->
  _is_leap (n400 * 400 + 1 + (n100 * 100 + n4 * 4 + n1))
  = (n1 =? 3) && (negb (n4 =? 24) || (n100 =? 3)).
Proof.
  intros H100 H4 H1. unfold _is_leap.
  destruct (Z.eqb_spec n1 3), (Z.eqb_spec n4 24), (Z.eqb_spec n100 3); simpl;
  repeat match goal with
  | |- context [?a =? ?b] => destruct (Z.eqb_spec a b); simpl
  end; try reflexivity; exfalso; Z.div_mod_to_equations; lia.
Qed.

Lemma days_before_year_decomp (n400 n100 n4 n1 : Z) :
  0 <= n100 <= 3 -> 0 <= n4 <= 24 -> 0 <= n1 <= 3 ->
  _days_before_year (n400 * 400 + 1 + (n100 * 100 + n4 * 4 + n1))
  = n400 * 146097 + n100 * 36524 + n4 * 1461 + n1 * 365.
Proof.
  intros H100 H4 H1. unfold _days_before_year.
  Z.div_mod_to_equations. lia.
Qed.

Lemma month_day_table (leapyear : bool) :
  forallb (month_day_ok leapyear) (seq 0 365) = true.
Proof. destruct leapyear; vm_compute; reflexivity. Qed.

Lemma month_day_spec (n : Z) (leapyear : bool) (m d : Z) :
  0 <= n < 365 -> month_day n leapyear = (m, d) ->
  1 <= m <= 12
  /\ 1 <= d <= (if (m =? 2) && leapyear then 29 else item _DAYS_IN_MONTH m)
  /\ item _DAYS_BEFORE_MONTH m + Z.b2z ((2 <? m) && leapyear) + d = n + 1.
Proof.
  intros Hn Hmd.
  pose proof (month_day_table leapyear) as T.
  rewrite forallb_forall in T. specialize (T (Z.to_nat n)).
  unfold month_day_ok in T. rewrite Z2Nat.id, Hmd in T by lia.
  rewrite !andb_true_iff, !Z.leb_le, Z.eqb_eq in T.
  assert (In (Z.to_nat n) (seq 0 365)) as Hin by (apply in_seq; lia).
  specialize (T Hin). lia.
Qed.

Lemma ord2ymd_eq (n : Z) :
  _ord2ymd n =
  let n0 := n - 1 in
  let n400 := n0 / 146097 in
  let r400 := n0 mod 146097 in
  let n100 := r400 / 36524 in
  let r100 := r400 mod 36524 in
  let n4 := r100 / 1461 in
  let r4 := r100 mod 1461 in
  let n1 := r4 / 365 in
  let r1 := r4 mod 365 in
  let year := n400 * 400 + 1 + (n100 * 100 + n4 * 4 + n1) in
  if (n1 =? 4) || (n100 =? 4) then (year - 1, 12, 31)
  else
    let '(m, d) :=
      month_day r1 ((n1 =? 3) && (negb (n4 =? 24) || (n100 =? 3))) in
    (year, m, d).
Proof.
  unfold _ord2ymd, month_day. cbv zeta.
  change _DI400Y with 146097. change _DI100Y with 36524.
  change _DI4Y with 1461.
  destruct (_ || _); [reflexivity|].
  destruct (_ <? _); reflexivity.
Qed.

Lemma ord2ymd_correct (n y m d : Z) :
  1 <= n <= _MAXORDINAL -> _ord2ymd n = (y, m, d) ->
  valid (mkdate y m d) /\ _ymd2ord y m d = n.
Proof.
  intros Hn. rewrite ord2ymd_eq. cbv zeta. unfold _MAXORDINAL in Hn.
  set (n0 := n - 1).
  set (n400 := n0 / 146097). set (r400 := n0 mod 146097).
  set (n100 := r400 / 36524). set (r100 := r400 mod 36524).
  set (n4 := r100 / 1461). set (r4 := r100 mod 1461).
  set (n1 := r4 / 365). set (r1 := r4 mod 365).
  assert (H400 : 0 <= n400 <= 24 /\ 0 <= r400 < 146097
                 /\ n0 = 146097 * n400 + r400).
  { subst n400 r400. Z.div_mod_to_equations. lia. }
  assert (H100 : 0 <= n100 <= 4 /\ 0 <= r100 < 36524
                 /\ r400 = 36524 * n100 + r100).
  { subst n100 r100. Z.div_mod_to_equations. lia. }
  assert (H4 : 0 <= n4 <= 24 /\ 0 <= r4 < 1461
                 /\ r100 = 1461 * n4 + r4).
  { subst n4 r4. Z.div_mod_to_equations. lia. }
  assert (H1 : 0 <= n1 <= 4 /\ 0 <= r1 < 365 /\ r4 = 365 * n1 + r1).
  { subst n1 r1. Z.div_mod_to_equations. lia. }
  clearbody n400 r400 n100 r100 n4 r4 n1 r1.
  destruct ((n1 =? 4) || (n100 =? 4)) eqn:E.
  - intros [= <- <- <-].
    assert (Hsp : (n100 = 4 /\ n4 = 0 /\ n1 = 0 /\ r1 = 0)
                  \/ (n100 <= 3 /\ n1 = 4 /\ r1 = 0)).
    { apply orb_true_iff in E. rewrite !Z.eqb_eq in E. lia. }
    unfold valid, _ymd2ord, _days_in_month, _days_before_month,
      _days_before_year, _is_leap, MINYEAR, MAXYEAR. simpl.
    change (item _DAYS_IN_MONTH 12) with 31.
    change (item _DAYS_BEFORE_MONTH 12) with 334.
    repeat match goal with
    | |- context [?a =? ?b] => destruct (Z.eqb_spec a b); simpl
    end; Z.div_mod_to_equations; lia.
  - apply orb_false_iff in E. rewrite !Z.eqb_neq in E.
    destruct (month_day r1 _) as [m' d'] eqn:Emd.
    intros [= <- <- <-].
    apply month_day_spec in Emd; [|lia].
    destruct Emd as (Hm & Hd & Hsum).
    unfold valid, _ymd2ord, _days_in_month, _days_before_month. simpl.
    rewrite is_leap_decomp, days_before_year_decomp by lia.
    unfold MINYEAR, MAXYEAR. lia.
Qed.

Lemma month_table (leap : bool) :
  forallb (month_row_ok leap) (seq 1 12) = true.
Proof. destruct leap; vm_compute; reflexivity. Qed.

Lemma month_bounds (leap : bool) (m : Z) :
  1 <= m <= 12 ->
  0 <= dbm leap m /\ 1 <= dim leap m <= 31
  /\ dbm leap m + dim leap m <= 365 + Z.b2z leap.
Proof.
  intros Hm. pose proof (month_table leap) as T.
  rewrite forallb_forall in T. specialize (T (Z.to_nat m)).
  unfold month_row_ok in T. cbv zeta in T. rewrite Z2Nat.id in T by lia.
  rewrite !andb_true_iff, !Z.leb_le in T.
  assert (In (Z.to_nat m) (seq 1 12)) as Hin by (apply in_seq; lia).
  specialize (T Hin). lia.
Qed.

Lemma month_offsets_grow (leap : bool) (m1 m2 : Z) :
  1 <= m1 -> m1 < m2 -> m2 <= 12 ->
  dbm leap m1 + dim leap m1 <= dbm leap m2.
Proof.
  intros H1 H12 H2. pose proof (month_table leap) as T.
  rewrite forallb_forall in T. specialize (T (Z.to_nat m1)).
  unfold month_row_ok in T. cbv zeta in T. rewrite Z2Nat.id in T by lia.
  rewrite !andb_true_iff, forallb_forall in T.
  assert (In (Z.to_nat m1) (seq 1 12)) as Hin by (apply in_seq; lia).
  destruct (T Hin) as [_ T2]. specialize (T2 (Z.to_nat m2)).
  rewrite Z2Nat.id in T2 by lia.
  assert (In (Z.to_nat m2) (seq 1 12)) as Hin2 by (apply in_seq; lia).
  specialize (T2 Hin2).
  destruct (Z.ltb_spec m1 m2); [|lia]. simpl in T2.
  apply Z.leb_le in T2. exact T2.
Qed.

Lemma days_before_year_succ (y : Z) :
  _days_before_year (y + 1) = _days_before_year y + 365 + Z.b2z (_is_leap y).
Proof.
  unfold _days_before_year, _is_leap.
  repeat match goal with
  | |- context [?a =? ?b] => destruct (Z.eqb_spec a b); simpl
  end; Z.div_mod_to_equations; lia.
Qed.

Lemma days_before_year_mono (y1 y2 : Z) :
  y1 <= y2 -> _days_before_year y1 <= _days_before_year y2.
Proof.
  unfold _days_before_year. intros H. Z.div_mod_to_equations. lia.
Qed.

Lemma ymd2ord_eq (y m d : Z) :
  _ymd2ord y m d = _days_before_year y + dbm (_is_leap y) m + d.
Proof. unfold _ymd2ord, _days_before_month, dbm. lia. Qed.

Lemma days_in_month_eq (y m : Z) : _days_in_month y m = dim (_is_leap y) m.
Proof. reflexivity. Qed.

Lemma toordinal_year_bounds (d : date) :
  valid d ->
  _days_before_year (year d) < toordinal d <= _days_before_year (year d + 1).
Proof.
  intros (Hy & Hm & Hd). unfold toordinal.
  rewrite ymd2ord_eq, days_before_year_succ.
  rewrite days_in_month_eq in Hd.
  pose proof (month_bounds (_is_leap (year d)) (month d) Hm). lia.
Qed.

Lemma toordinal_range (d : date) :
  valid d -> 1 <= toordinal d <= _MAXORDINAL.
Proof.
  intros H. pose proof (toordinal_year_bounds d H) as Hb.
  destruct H as ((Hy1 & Hy2) & _). unfold MINYEAR, MAXYEAR in *.
  pose proof (days_before_year_mono 1 (year d) Hy1) as H1.
  pose proof (days_before_year_mono (year d + 1) 10000 ltac:(lia)) as H2.
  change (_days_before_year 1) with 0 in H1.
  change (_days_before_year 10000) with 3652059 in H2.
  unfold _MAXORDINAL. lia.
Qed.

(** The order of dates is the order of their ordinals. *)
Lemma toordinal_lt (x y : date) :
  valid x -> valid y -> _cmp x y = -1 -> toordinal x < toordinal y.
Proof.
  intros Hx Hy. unfold _cmp.
  destruct (Z.ltb_spec (year x) (year y)) as [Hlt|Hge].
  - intros _. pose proof (toordinal_year_bounds x Hx).
    pose proof (toordinal_year_bounds y Hy).
    pose proof (days_before_year_mono (year x + 1) (year y) ltac:(lia)). lia.
  - destruct (Z.ltb_spec (year y) (year x)); [discriminate|].
    assert (Ey : year x = year y) by lia.
    destruct Hx as (_ & Hmx & Hdx), Hy as (_ & Hmy & Hdy).
    rewrite days_in_month_eq in Hdx, Hdy.
    unfold toordinal. rewrite !ymd2ord_eq, Ey. rewrite Ey in Hdx.
    destruct (Z.ltb_spec (month x) (month y)) as [Hm|Hm].
    + intros _.
      pose proof (month_offsets_grow (_is_leap (year y)) (month x) (month y)
                    ltac:(lia) Hm ltac:(lia)). lia.
    + destruct (Z.ltb_spec (month y) (month x)); [discriminate|].
      assert (Em : month x = month y) by lia. rewrite Em.
      destruct (Z.ltb_spec (day x) (day y)); [lia|].
      destruct (Z.ltb_spec (day y) (day x)); discriminate.
Qed.

Lemma cmp_antisym (x y : date) : _cmp y x = - _cmp x y.
Proof.
  unfold _cmp.
  repeat match goal with
  | |- context [?a <? ?b] => destruct (Z.ltb_spec a b)
  end; lia.
Qed.

Lemma cmp_zero (x y : date) : _cmp x y = 0 -> x = y.
Proof.
  unfold _cmp. destruct x, y; simpl.
  repeat match goal with
  | |- context [?a <? ?b] => destruct (Z.ltb_spec a b)
  end; try discriminate. intros _. f_equal; lia.
Qed.

Lemma cmp_values (x y : date) : _cmp x y = -1 \/ _cmp x y = 0 \/ _cmp x y = 1.
Proof.
  unfold _cmp.
  repeat match goal with
  | |- context [?a <? ?b] => destruct (Z.ltb_spec a b)
  end; auto.
Qed.

Lemma cmp_toordinal (x y : date) :
  valid x -> valid y ->
  _cmp x y = Z.sgn (toordinal x - toordinal y).
Proof.
  intros Hx Hy. destruct (cmp_values x y) as [H|[H|H]].
  - pose proof (toordinal_lt x y Hx Hy H). lia.
  - rewrite H. apply cmp_zero in H. subst. rewrite Z.sub_diag. reflexivity.
  - assert (H' : _cmp y x = -1) by (rewrite cmp_antisym; lia).
    pose proof (toordinal_lt y x Hy Hx H'). lia.
Qed.

Lemma lt_toordinal (x y : date) :
  valid x -> valid y -> __lt__ x y = (toordinal x <? toordinal y).
Proof.
  intros Hx Hy. unfold __lt__. rewrite cmp_toordinal by assumption.
  destruct (Z.ltb_spec (toordinal x) (toordinal y));
    destruct (Z.ltb_spec (Z.sgn (toordinal x - toordinal y)) 0); lia.
Qed.

Lemma le_toordinal (x y : date) :
  valid x -> valid y -> __le__ x y = (toordinal x <=? toordinal y).
Proof.
  intros Hx Hy. unfold __le__. rewrite cmp_toordinal by assumption.
  destruct (Z.leb_spec (toordinal x) (toordinal y));
    destruct (Z.leb_spec (Z.sgn (toordinal x - toordinal y)) 0); lia.
Qed.

Lemma toordinal_inj (x y : date) :
  valid x -> valid y -> toordinal x = toordinal y -> x = y.
Proof.
  intros Hx Hy E. apply cmp_zero. rewrite cmp_toordinal by assumption.
  rewrite E, Z.sub_diag. reflexivity.
Qed.

Lemma new_valid (y m d : Z) :
  valid (mkdate y m d) -> __new__ y m d = Ok (mkdate y m d).
Proof.
  unfold valid, __new__, _check_date_fields. simpl. intros (Hy & Hm & Hd).
  destruct (Z.leb_spec MINYEAR y), (Z.leb_spec y MAXYEAR); try lia.
  destruct (Z.leb_spec 1 m), (Z.leb_spec m 12); try lia.
  destruct (Z.leb_spec 1 d), (Z.leb_spec d (_days_in_month y m)); try lia.
  reflexivity.
Qed.

Lemma new_ok (y m d : Z) (x : date) :
  __new__ y m d = Ok x -> x = mkdate y m d /\ valid x.
Proof.
  unfold valid, __new__, _check_date_fields.
  destruct (Z.leb_spec MINYEAR y), (Z.leb_spec y MAXYEAR); try discriminate.
  destruct (Z.leb_spec 1 m), (Z.leb_spec m 12); try discriminate.
  destruct (Z.leb_spec 1 d), (Z.leb_spec d (_days_in_month y m));
    try discriminate.
  simpl. intros [= <-]. simpl. split; [reflexivity | lia].
Qed.

Lemma fromordinal_ok (n : Z) :
  1 <= n <= _MAXORDINAL ->
  exists d, fromordinal n = Ok d /\ valid d /\ toordinal d = n.
Proof.
  intros Hn. unfold fromordinal.
  destruct (_ord2ymd n) as [[y m] d] eqn:E.
  destruct (ord2ymd_correct n y m d Hn E) as [Hv Ho].
  exists (mkdate y m d). rewrite new_valid by assumption. auto.
Qed.

Lemma add_ok (x : date) (k : Z) :
  valid x -> 0 < toordinal x + k <= _MAXORDINAL ->
  exists d, __add__ x k = Ok d /\ valid d /\ toordinal d = toordinal x + k.
Proof.
  intros Hx Hk. unfold __add__. cbv zeta.
  destruct (Z.ltb_spec 0 (toordinal x + k)); [|lia].
  destruct (Z.leb_spec (toordinal x + k) _MAXORDINAL); [|lia].
  apply fromordinal_ok. lia.
Qed.

Lemma add_inv (x d : date) (k : Z) :
  valid x -> __add__ x k = Ok d ->
  valid d /\ toordinal d = toordinal x + k.
Proof.
  intros Hx. unfold __add__. cbv zeta.
  destruct (Z.ltb_spec 0 (toordinal x + k)); [|discriminate].
  destruct (Z.leb_spec (toordinal x + k) _MAXORDINAL); [|discriminate].
  simpl. intros E.
  destruct (fromordinal_ok (toordinal x + k)) as (d' & E' & Hv & Ho); [lia|].
  rewrite E in E'. injection E' as <-. auto.
Qed.

Lemma add_overflow (x : date) (k : Z) :
  ~ (0 < toordinal x + k <= _MAXORDINAL) ->
  __add__ x k = Raise (OverflowError DateValueOutOfRangeMsg).
Proof.
  intros H. unfold __add__. cbv zeta.
  destruct (Z.ltb_spec 0 (toordinal x + k));
    destruct (Z.leb_spec (toordinal x + k) _MAXORDINAL);
    try reflexivity; lia.
Qed.

(** A later date is not of an earlier year. *)
Lemma year_le (x y : date) :
  valid x -> valid y -> toordinal x <= toordinal y -> year x <= year y.
Proof.
  intros Hx Hy H.
  destruct (Z.le_gt_cases (year x) (year y)) as [|Hlt]; [assumption|].
  pose proof (toordinal_year_bounds x Hx).
  pose proof (toordinal_year_bounds y Hy).
  pose proof (days_before_year_mono (year y + 1) (year x) ltac:(lia)). lia.
Qed.

(** The digits of a number of four digits. *)
Lemma decimal_digits_four (fuel : nat) (n : Z) (acc : str) :
  1000 <= n <= 9999 ->
  decimal_digits (S (S (S (S fuel)))) n acc
  = [digit_char (n / 1000 mod 10); digit_char (n / 100 mod 10);
     digit_char (n / 10 mod 10); digit_char (n mod 10)] ++ acc.
Proof.
  intros H. cbn [decimal_digits]. cbv zeta.
  destruct (Z.ltb_spec n 10); [lia|].
  destruct (Z.ltb_spec (n / 10) 10); [Z.div_mod_to_equations; lia|].
  destruct (Z.ltb_spec (n / 10 / 10) 10); [Z.div_mod_to_equations; lia|].
  destruct (Z.ltb_spec (n / 10 / 10 / 10) 10);
    [|Z.div_mod_to_equations; lia].
  replace (n / 10 / 10) with (n / 100) by (Z.div_mod_to_equations; lia).
  replace (n / 100 / 10) with (n / 1000) by (Z.div_mod_to_equations; lia).
  reflexivity.
Qed.

Lemma fmt_d_four (n : Z) :
  1000 <= n <= 9999 ->
  fmt_d n = [digit_char (n / 1000 mod 10); digit_char (n / 100 mod 10);
             digit_char (n / 10 mod 10); digit_char (n mod 10)].
Proof.
  intros H. unfold fmt_d.
  assert (L : 9 <= Z.log2 n)
    by (apply Z.log2_le_pow2; [lia | change (2 ^ 9) with 512; lia]).
  destruct (Z.to_nat (Z.log2 n)) as [|[|[|k]]] eqn:E; try lia.
  rewrite decimal_digits_four by assumption. apply app_nil_r.
Qed.

(** A number below 1000 has at most three digits. *)
Lemma decimal_digits_short (fuel : nat) (n : Z) (acc : str) :
  0 <= n < 1000 ->
  (List.length (decimal_digits fuel n acc) <= 3 + List.length acc)%nat.
Proof.
  intros H. destruct fuel as [|[|[|fuel]]]; cbn [decimal_digits]; cbv zeta.
  - lia.
  - destruct (n <? 10); cbn [List.length]; lia.
  - destruct (n <? 10); [cbn [List.length]; lia|].
    destruct (n / 10 <? 10); cbn [List.length]; lia.
  - destruct (n <? 10); [cbn [List.length]; lia|].
    destruct (n / 10 <? 10); [cbn [List.length]; lia|].
    destruct (Z.ltb_spec (n / 10 / 10) 10);
      [cbn [List.length]; lia | Z.div_mod_to_equations; lia].
Qed.

Lemma fmt_d_short (n : Z) :
  0 <= n < 1000 -> (List.length (fmt_d n) <= 3)%nat.
Proof.
  intros H. unfold fmt_d.
  pose proof (decimal_digits_short (S (Z.to_nat (Z.log2 n))) n [] H) as L.
  exact L.
Qed.

End DateFacts.

(* ================================================================== *)
(** * Upcoming birthdays *)

Section UpcomingFacts.
Import Date DateAux AddressBook Spec.

Lemma replace_year_ok (b : date) (y : Z) (d : date) :
  replace_year b y = Ok d -> d = in_year y b /\ valid d.
Proof. unfold replace_year, in_year. apply new_ok. Qed.

Lemma weekend_shift_range (d : date) : 0 <= weekend_shift d <= 2.
Proof.
  unfold weekend_shift.
  destruct (weekday d =? 5); [lia|]. destruct (weekday d =? 6); lia.
Qed.

(** The end of an iteration, for the date [d2] that the birthday falls on:
    the window test, the weekend shift and the new entry. *)
Lemma upcoming_step_tail (today nw d2 : date) (name : str)
    (acc out : list entry) :
  valid today -> valid nw -> toordinal nw = toordinal today + 7 ->
  valid d2 ->
  (if __le__ today d2 && __le__ d2 nw
   then
     let? cd := (if weekday d2 =? 5 then __add__ d2 2
                 else if weekday d2 =? 6 then __add__ d2 1 else Ok d2) in
     Ok (acc ++ [mkentry name (strftime_dmY cd)])
   else Ok acc) = Ok out ->
  if in_window today d2
  then exists cd, valid cd
                  /\ toordinal cd = toordinal d2 + weekend_shift d2
                  /\ out = acc ++ [mkentry name (strftime_dmY cd)]
  else out = acc.
Proof.
  intros Ht Hnw Hnw7 Hv2.
  rewrite !le_toordinal by assumption. rewrite Hnw7.
  unfold in_window, days_until.
  replace (0 <=? toordinal d2 - toordinal today)
    with (toordinal today <=? toordinal d2)
    by (destruct (Z.leb_spec (toordinal today) (toordinal d2));
        destruct (Z.leb_spec 0 (toordinal d2 - toordinal today)); lia).
  replace (toordinal d2 - toordinal today <=? 7)
    with (toordinal d2 <=? toordinal today + 7)
    by (destruct (Z.leb_spec (toordinal d2) (toordinal today + 7));
        destruct (Z.leb_spec (toordinal d2 - toordinal today) 7); lia).
  destruct ((toordinal today <=? toordinal d2)
            && (toordinal d2 <=? toordinal today + 7));
    [|intros [= <-]; reflexivity].
  unfold weekend_shift, bind.
  destruct (weekday d2 =? 5).
  - destruct (__add__ d2 2) as [cd|e] eqn:E; [|discriminate].
    apply add_inv in E; [|assumption]. intros [= <-]. exists cd. tauto.
  - destruct (weekday d2 =? 6).
    + destruct (__add__ d2 1) as [cd|e] eqn:E; [|discriminate].
      apply add_inv in E; [|assumption]. intros [= <-]. exists cd. tauto.
    + intros [= <-]. exists d2.
      split; [assumption | split; [lia | reflexivity]].
Qed.

(** One iteration of the loop, when it does not raise. *)
Lemma upcoming_step_ok (today nw : date) (r : Record.t) (acc out : list entry) :
  valid today -> valid nw -> toordinal nw = toordinal today + 7 ->
  (forall b, Record.birthday r = Some b -> valid (Birthday.value b)) ->
  upcoming_step today nw r acc = Ok out ->
  if qualifies today r
  then exists e, out = acc ++ [e] /\ congratulates today r e
  else out = acc.
Proof.
  intros Ht Hnw Hnw7 Hb. unfold upcoming_step, qualifies.
  destruct (Record.birthday r) as [b|] eqn:Eb; [|intros [= <-]; reflexivity].
  unfold bind at 1.
  destruct (replace_year (Birthday.value b) (year today)) as [d1|e1] eqn:E1;
    [|discriminate].
  apply replace_year_ok in E1. destruct E1 as [-> Hv1].
  unfold next_birthday, bind at 1.
  destruct (__lt__ (in_year (year today) (Birthday.value b)) today) eqn:Elt.
  - destruct (replace_year _ (year today + 1)) as [d2|e2] eqn:E2;
      [|discriminate].
    apply replace_year_ok in E2. destruct E2 as [E2 Hv2].
    change (in_year (year today + 1) (in_year (year today) (Birthday.value b)))
      with (in_year (year today + 1) (Birthday.value b)) in E2.
    subst d2. intros H.
    apply upcoming_step_tail in H; auto.
    destruct (in_window today _); [|assumption].
    destruct H as (cd & Hvcd & Hocd & ->).
    eexists. split; [reflexivity|]. split; [reflexivity|].
    exists b, cd. unfold next_birthday. rewrite Elt. cbv zeta. auto.
  - intros H. apply upcoming_step_tail in H; auto.
    destruct (in_window today _); [|assumption].
    destruct H as (cd & Hvcd & Hocd & ->).
    eexists. split; [reflexivity|]. split; [reflexivity|].
    exists b, cd. unfold next_birthday. rewrite Elt. cbv zeta. auto.
Qed.

Lemma upcoming_loop_ok (today nw : date) (rs : list Record.t) :
  valid today -> valid nw -> toordinal nw = toordinal today + 7 ->
  birthdays_valid rs ->
  forall acc out,
  upcoming_loop today nw rs acc = Ok out ->
  exists es, out = acc ++ es
             /\ Forall2 (congratulates today) (filter (qualifies today) rs) es.
Proof.
  intros Ht Hnw Hnw7. induction rs as [|r rs IH]; intros Hb acc out; simpl.
  - intros [= <-]. exists []. rewrite app_nil_r. split; constructor.
  - unfold bind.
    destruct (upcoming_step today nw r acc) as [acc'|e] eqn:E; [|discriminate].
    intros Hloop.
    apply upcoming_step_ok in E; auto;
      [|intros b; apply Hb; left; reflexivity].
    destruct (IH (fun r' b' H => Hb r' b' (or_intror H)) acc' out Hloop)
      as (es & -> & HF).
    destruct (qualifies today r).
    + destruct E as (e & -> & He). exists (e :: es).
      rewrite <- app_assoc. split; [reflexivity|]. constructor; assumption.
    + subst acc'. exists es. split; [reflexivity|assumption].
Qed.

Lemma get_upcoming_birthdays_ok (today : date) (book : AddressBook.t)
    (out : list entry) :
  valid today -> birthdays_valid (values book) ->
  fst (get_upcoming_birthdays today book) = Ok out ->
  Forall2 (congratulates today) (filter (qualifies today) (values book)) out.
Proof.
  intros Ht Hb. unfold get_upcoming_birthdays, mbind, lift, get.
  destruct (__add__ today 7) as [nw|e] eqn:E; [|discriminate]. simpl.
  apply add_inv in E; [|assumption]. destruct E as [Hnw Hnw7].
  intros H. apply upcoming_loop_ok in H; auto.
  destruct H as (es & -> & HF). exact HF.
Qed.

Lemma congratulates_name (today : date) (rs : list Record.t)
    (out : list entry) :
  Forall2 (congratulates today) rs out ->
  List.map entry_name out = List.map name_of rs.
Proof.
  induction 1 as [|r e rs out [Hn _] _ IH]; simpl; [reflexivity|].
  rewrite Hn, IH. reflexivity.
Qed.

Lemma weekday_after_saturday (x y : date) :
  weekday x = 5 -> toordinal y = toordinal x + 2 -> weekday y = 0.
Proof. unfold weekday. intros H1 H2. rewrite H2. Z.div_mod_to_equations. lia. Qed.

Lemma weekday_after_sunday (x y : date) :
  weekday x = 6 -> toordinal y = toordinal x + 1 -> weekday y = 0.
Proof. unfold weekday. intros H1 H2. rewrite H2. Z.div_mod_to_equations. lia. Qed.

(** From the year 1000 on [strftime] gives the form DD.MM.YYYY. *)
Lemma strftime_is_DDMMYYYY (d : date) :
  valid d -> 1000 <= year d -> is_DDMMYYYY (strftime_dmY d) d.
Proof.
  intros (Hy & Hm & Hd) Hy1000. unfold MINYEAR, MAXYEAR in Hy.
  rewrite days_in_month_eq in Hd.
  pose proof (month_bounds (_is_leap (year d)) (month d) Hm) as Hb.
  assert (Hd31 : day d <= 31) by lia.
  exists (day d / 10 mod 10), (day d mod 10),
         (month d / 10 mod 10), (month d mod 10),
         (year d / 1000 mod 10), (year d / 100 mod 10),
         (year d / 10 mod 10), (year d mod 10).
  split; [|split].
  - repeat constructor; Z.div_mod_to_equations; lia.
  - unfold strftime_dmY. rewrite fmt_d_four by lia. reflexivity.
  - repeat split; Z.div_mod_to_equations; lia.
Qed.

Lemma congratulates_weekend_rule (today : date) (r : Record.t) (e : entry) :
  valid today -> 1000 <= year today ->
  qualifies today r = true ->
  congratulates today r e -> weekend_rule today r e.
Proof.
  intros Ht Hy1000 Hq (Hn & b & cd & Hb & Hvnb & Hvcd & Ho & Hs).
  split; [assumption|]. exists b, cd. split; [assumption|]. cbv zeta.
  unfold qualifies in Hq. rewrite Hb in Hq.
  set (nb := next_birthday today (Birthday.value b)) in *.
  split; [assumption|]. split; [assumption|].
  assert (Hge : toordinal today <= toordinal cd).
  { pose proof (weekend_shift_range nb) as Hr.
    unfold in_window, days_until in Hq. apply andb_true_iff in Hq.
    rewrite !Z.leb_le in Hq. lia. }
  unfold weekend_shift in Ho. unfold days_until.
  split; [|split; [|split]].
  - intros H. rewrite H in Ho. simpl in Ho.
    split; [lia|]. eapply weekday_after_saturday; eauto.
  - intros H. rewrite H in Ho. simpl in Ho.
    split; [lia|]. eapply weekday_after_sunday; eauto.
  - intros H5 H6. apply Z.eqb_neq in H5, H6. rewrite H5, H6 in Ho.
    apply toordinal_inj; auto. lia.
  - rewrite Hs. apply strftime_is_DDMMYYYY; [assumption|].
    pose proof (year_le today cd Ht Hvcd Hge). lia.
Qed.

Lemma Forall2_filter_impl {A B} (P Q : A -> B -> Prop) (f : A -> bool)
    (l : list A) (out : list B) :
  (forall a b, f a = true -> P a b -> Q a b) ->
  Forall2 P (filter f l) out -> Forall2 Q (filter f l) out.
Proof.
  intros H HF.
  assert (Hall : Forall (fun a => f a = true) (filter f l)).
  { apply Forall_forall. intros a Ha. apply filter_In in Ha. tauto. }
  induction HF as [|a b l' out' Hab _ IH]; constructor.
  - inversion Hall; subst. auto.
  - inversion Hall; subst. auto.
Qed.

Lemma NoDup_map_inj {A B} (f : A -> B) (l : list A) (x y : A) :
  NoDup (List.map f l) -> In x l -> In y l -> f x = f y -> x = y.
Proof.
  induction l as [|a l IH]; simpl; [intros _ []|].
  intros Hnd Hx Hy E. inversion Hnd as [|? ? Hnin Hnd']; subst.
  destruct Hx as [->|Hx], Hy as [->|Hy]; auto.
  - exfalso. apply Hnin. rewrite E. apply in_map. assumption.
  - exfalso. apply Hnin. rewrite <- E. apply in_map. assumption.
Qed.

Lemma count_absent (n : str) (l : list str) :
  ~ In n l -> List.length (filter (fun x => str_eqb x n) l) = 0%nat.
Proof.
  induction l as [|x l IH]; simpl; [reflexivity|]. intros H.
  destruct (str_eqb x n) eqn:E.
  - apply str_eqb_eq in E. exfalso. apply H. left. assumption.
  - apply IH. intros Hin. apply H. right. assumption.
Qed.

Lemma count_present (n : str) (l : list str) :
  NoDup l -> In n l ->
  List.length (filter (fun x => str_eqb x n) l) = 1%nat.
Proof.
  induction 1 as [|x l Hnin Hnd IH]; simpl; [intros []|].
  intros [->|Hin].
  - rewrite str_eqb_refl. simpl. rewrite count_absent; auto.
  - destruct (str_eqb x n) eqn:E.
    + apply str_eqb_eq in E. subst x. contradiction.
    + auto.
Qed.

Lemma NoDup_map_filter {A B} (f : A -> B) (p : A -> bool) (l : list A) :
  NoDup (List.map f l) -> NoDup (List.map f (filter p l)).
Proof.
  induction l as [|a l IH]; simpl; [auto|].
  intros H. inversion H as [|? ? Hnin Hnd]; subst.
  destruct (p a); simpl; auto. constructor; auto.
  intros Hin. apply Hnin. apply in_map_iff in Hin.
  destruct Hin as (x & Hx & Hin). apply filter_In in Hin.
  rewrite <- Hx. apply in_map. tauto.
Qed.

Lemma entries_named_map (n : str) (out : list entry) :
  entries_named n out
  = List.length (filter (fun x => str_eqb x n) (List.map entry_name out)).
Proof.
  unfold entries_named. induction out as [|e out IH]; simpl; [reflexivity|].
  destruct (str_eqb (entry_name e) n); simpl; rewrite IH; reflexivity.
Qed.

(** When the call returns, the names of its entries are the names of the
    qualifying records, in the order of the book. *)
Lemma upcoming_names (today : date) (book : AddressBook.t) (out : list entry) :
  valid today -> birthdays_valid (values book) ->
  fst (get_upcoming_birthdays today book) = Ok out ->
  List.map entry_name out
  = List.map name_of (filter (qualifies today) (values book)).
Proof.
  intros Ht Hb H. eapply congratulates_name.
  apply get_upcoming_birthdays_ok; eassumption.
Qed.

(** When the call returns and the names of the book are distinct, a record
    has one entry if it qualifies and none otherwise. *)
Lemma upcoming_one_entry_iff (today : date) (book : AddressBook.t)
    (out : list entry) (r : Record.t) :
  valid today -> birthdays_valid (values book) ->
  NoDup (List.map name_of (values book)) ->
  fst (get_upcoming_birthdays today book) = Ok out ->
  In r (values book) ->
  entries_named (name_of r) out = if qualifies today r then 1%nat else 0%nat.
Proof.
  intros Ht Hb Hnd H Hr.
  rewrite entries_named_map, (upcoming_names today book out Ht Hb H).
  destruct (qualifies today r) eqn:Hq.
  - apply count_present; [apply NoDup_map_filter; assumption|].
    apply in_map. apply filter_In. auto.
  - apply count_absent. intros Hin.
    apply in_map_iff in Hin. destruct Hin as (r' & E & Hin').
    apply filter_In in Hin'. destruct Hin' as [Hin' Hq'].
    assert (r' = r) by (eapply NoDup_map_inj; eauto). subst r'.
    congruence.
Qed.

(** A record born on February 29 stops the loop when the current year is
    not a leap year: [bday.replace(year=today.year)] raises. *)
Lemma upcoming_step_feb29 (today nw : date) (r : Record.t) (b : Birthday.t)
    (acc : list entry) :
  valid today -> _is_leap (year today) = false ->
  Record.birthday r = Some b ->
  month (Birthday.value b) = 2 -> day (Birthday.value b) = 29 ->
  upcoming_step today nw r acc = Raise (ValueError (DayOutOfRangeMsg 29)).
Proof.
  intros ((Hy1 & Hy2) & _) Hleap Hb Hm Hd.
  unfold upcoming_step. rewrite Hb.
  unfold replace_year, __new__, _check_date_fields, _days_in_month.
  rewrite Hm, Hd, Hleap.
  destruct (Z.leb_spec MINYEAR (year today)); [|lia].
  destruct (Z.leb_spec (year today) MAXYEAR); [|lia].
  reflexivity.
Qed.

Lemma upcoming_loop_raises (today nw : date) (rs : list Record.t)
    (r : Record.t) :
  In r rs ->
  (forall acc, exists e, upcoming_step today nw r acc = Raise e) ->
  forall acc, exists e, upcoming_loop today nw rs acc = Raise e.
Proof.
  intros Hin Hr. induction rs as [|x rs IH]; [destruct Hin|].
  intros acc. simpl. unfold bind.
  destruct (upcoming_step today nw x acc) as [acc'|e] eqn:E.
  - destruct Hin as [->|Hin].
    + destruct (Hr acc) as [e He]. congruence.
    + apply IH. assumption.
  - eauto.
Qed.

(** In a year that is not a leap year the call raises for every book that
    holds a record born on February 29. *)
Lemma feb29_never_returns (today : date) (book : AddressBook.t)
    (r : Record.t) (b : Birthday.t) :
  valid today -> _is_leap (year today) = false ->
  In r (values book) -> Record.birthday r = Some b ->
  month (Birthday.value b) = 2 -> day (Birthday.value b) = 29 ->
  exists e, fst (get_upcoming_birthdays today book) = Raise e.
Proof.
  intros Ht Hleap Hin Hb Hm Hd.
  unfold get_upcoming_birthdays, mbind, lift, get.
  destruct (__add__ today 7) as [nw|e]; simpl; [|eauto].
  apply (upcoming_loop_raises today nw (values book) r Hin).
  intros acc. eexists. eapply upcoming_step_feb29; eassumption.
Qed.

Lemma replace_year_valid (b : date) (y : Z) :
  valid b -> MINYEAR <= y <= MAXYEAR ->
  ~ (month b = 2 /\ day b = 29) ->
  replace_year b y = Ok (in_year y b) /\ valid (in_year y b).
Proof.
  intros (_ & Hm & Hd) Hy Hn.
  assert (Hv : valid (in_year y b)).
  { unfold valid, in_year. simpl. split; [assumption|]. split; [assumption|].
    rewrite days_in_month_eq in *. unfold dim in *.
    destruct (Z.eqb_spec (month b) 2) as [E|E]; simpl in *.
    - rewrite E in *. change (item _DAYS_IN_MONTH 2) with 28 in *.
      destruct (_is_leap (year b)), (_is_leap y); lia.
    - assumption. }
  split; [|assumption]. unfold replace_year. apply new_valid. exact Hv.
Qed.

(** The call returns for every date before the year 9999 and every book
    without a birthday on February 29. *)
Lemma upcoming_returns (today : date) (book : AddressBook.t) :
  valid today -> year today < MAXYEAR ->
  birthdays_valid (values book) ->
  (forall r b, In r (values book) -> Record.birthday r = Some b ->
               ~ (month (Birthday.value b) = 2 /\ day (Birthday.value b) = 29)) ->
  exists out, get_upcoming_birthdays today book = (Ok out, book).
Proof.
  intros Ht Hy Hb Hn.
  pose proof (toordinal_year_bounds today Ht) as Hyb.
  pose proof (days_before_year_mono (year today + 1) 9999
                ltac:(unfold MAXYEAR in Hy; lia)) as Hmono.
  change (_days_before_year 9999) with 3651694 in Hmono.
  pose proof (toordinal_range today Ht) as Hr. unfold _MAXORDINAL in Hr.
  unfold get_upcoming_birthdays, mbind, lift, get.
  destruct (add_ok today 7 Ht ltac:(unfold _MAXORDINAL; lia))
    as (nw & -> & Hnw & Hnw7).
  assert (Hloop : forall acc, exists out,
            upcoming_loop today nw (values book) acc = Ok out).
  { induction (values book) as [|r rs IH]; intros acc; simpl; [eauto|].
    assert (Hstep : exists acc', upcoming_step today nw r acc = Ok acc').
    { unfold upcoming_step.
      destruct (Record.birthday r) as [b|] eqn:Eb; [|eauto].
      assert (Hvb : valid (Birthday.value b))
        by (eapply Hb; [left; reflexivity|eassumption]).
      assert (Hnb : ~ (month (Birthday.value b) = 2
                       /\ day (Birthday.value b) = 29))
        by (eapply Hn; [left; reflexivity|eassumption]).
      destruct Ht as (Hty & Htm & Htd).
      destruct (replace_year_valid (Birthday.value b) (year today) Hvb Hty Hnb)
        as [-> Hv1]. simpl.
      assert (exists d2,
        (if __lt__ (in_year (year today) (Birthday.value b)) today
         then replace_year (in_year (year today) (Birthday.value b))
                           (year today + 1)
         else Ok (in_year (year today) (Birthday.value b))) = Ok d2
        /\ valid d2) as (d2 & -> & Hv2).
      { destruct (__lt__ _ today); [|eauto].
        destruct (replace_year_valid (in_year (year today) (Birthday.value b))
                    (year today + 1) Hv1
                    ltac:(unfold MINYEAR, MAXYEAR in *; lia) Hnb)
          as [-> Hv2]. eauto. }
      simpl.
      rewrite !le_toordinal by (unfold valid; auto).
      destruct (Z.leb_spec (toordinal today) (toordinal d2)); simpl; [|eauto].
      destruct (Z.leb_spec (toordinal d2) (toordinal nw)); simpl; [|eauto].
      assert (Hs := weekend_shift_range d2). unfold weekend_shift in Hs.
      destruct (weekday d2 =? 5).
      - destruct (add_ok d2 2 Hv2 ltac:(unfold _MAXORDINAL; lia))
          as (cd & -> & _). simpl. eauto.
      - destruct (weekday d2 =? 6).
        + destruct (add_ok d2 1 Hv2 ltac:(unfold _MAXORDINAL; lia))
            as (cd & -> & _). simpl. eauto.
        + simpl. eauto. }
    destruct Hstep as [acc' ->]. simpl.
    apply IH.
    - intros r' b' Hin. apply Hb. right. assumption.
    - intros r' b' Hin. apply Hn. right. assumption. }
  destruct (Hloop []) as [out ->]. eauto.
Qed.

End UpcomingFacts.

(** C1 (failing input).  Bob's birthday is 29.02.2024 and today is
    1 June 2025, a year that is not a leap year.  The call does not return:
    [bday.replace(year=today.year)] raises [ValueError] for the day 29, and
    nothing in [get_upcoming_birthdays] handles it. *)
Theorem feb29_birthday_raises :
  AddressBook.values leap_book
  = [Record.mk (Name.mk (ascii_str "Bob")) []
               (Some (Birthday.mk (Date.mkdate 2024 2 29)))]
  /\ Date._is_leap 2025 = false
  /\ AddressBook.get_upcoming_birthdays (Date.mkdate 2025 6 1) leap_book
     = (Raise (ValueError (DayOutOfRangeMsg 29)), leap_book).
Proof. repeat split; vm_compute; reflexivity. Qed.

(** C2 (failing input).  Today is 1 January 2025; Alice's birthday,
    3 January, lies in the window, but the book also holds Bob, born on
    February 29: the call raises and returns no entry at all. *)
Theorem feb29_hides_upcoming_birthday :
  List.map name_of (AddressBook.values alice_and_bob)
  = [ascii_str "Alice"; ascii_str "Bob"]
  /\ List.map (Spec.qualifies (Date.mkdate 2025 1 1))
              (AddressBook.values alice_and_bob) = [true; false]
  /\ fst (AddressBook.get_upcoming_birthdays (Date.mkdate 2025 1 1)
                                             alice_and_bob)
     = Raise (ValueError (DayOutOfRangeMsg 29)).
Proof. repeat split; vm_compute; reflexivity. Qed.

(** C4.  Whenever [get_upcoming_birthdays] returns, its entries are those
    of the qualifying records, in the order of the book, and the entry of
    a record carries the text DD.MM.YYYY of a date [cd] such that, for the
    birthday date [nb] in the window: [cd] is two days after [nb] and a
    Monday when [nb] is a Saturday, one day after [nb] and a Monday when
    [nb] is a Sunday, and [nb] itself on the other days.  The current
    date is of the year 1000 or later, as the date of a clock is: the
    text of a year has four digits from then on. *)
Theorem congratulation_date_spec (today : Date.date) (book : AddressBook.t)
    (out : list AddressBook.entry) :
  Date.valid today -> 1000 <= Date.year today ->
  Spec.birthdays_valid (AddressBook.values book) ->
  fst (AddressBook.get_upcoming_birthdays today book) = Ok out ->
  Forall2 (Spec.weekend_rule today)
          (filter (Spec.qualifies today) (AddressBook.values book)) out.
Proof.
  intros Ht Hy Hb H.
  apply (Forall2_filter_impl (Spec.congratulates today)).
  - intros r e Hq Hc. apply congratulates_weekend_rule; assumption.
  - apply get_upcoming_birthdays_ok; assumption.
Qed.

Lemma congratulation_date_spec_witness :
  Forall2 (Spec.weekend_rule (Date.mkdate 2026 11 4))
    (filter (Spec.qualifies (Date.mkdate 2026 11 4))
            (AddressBook.values november_book))
    [AddressBook.mkentry (ascii_str "Fay") (ascii_str "06.11.2026");
     AddressBook.mkentry (ascii_str "Sam") (ascii_str "09.11.2026");
     AddressBook.mkentry (ascii_str "Sue") (ascii_str "09.11.2026")].
Proof.
  apply (congratulation_date_spec (Date.mkdate 2026 11 4) november_book).
  - vm_compute. repeat split; discriminate.
  - simpl. lia.
  - intros r b Hin Hb. vm_compute in Hin.
    repeat (destruct Hin as [<-|Hin];
            [ try discriminate Hb; injection Hb as <-;
              vm_compute; repeat split; discriminate | ]).
    destruct Hin.
  - vm_compute. reflexivity.
Defined.

(* ================================================================== *)
(** * Texts of dates: [strptime] and [strftime] *)

Section StrptimeFacts.
Import Date DateAux Unicode Strptime Spec StrptimeAux.

Lemma chr_true (a : ascii) (c : N) : chr a c = true -> c = ch a.
Proof. unfold chr. apply N.eqb_eq. Qed.

Lemma chr_false (a : ascii) (c : N) : chr a c = false -> c <> ch a.
Proof. unfold chr. apply N.eqb_neq. Qed.

Lemma rng_true (a b : ascii) (c : N) :
  rng a b c = true -> (ch a <= c <= ch b)%N.
Proof. unfold rng. apply in_range_spec. Qed.

Lemma rng_false (a b : ascii) (c : N) :
  rng a b c = false -> (c < ch a \/ ch b < c)%N.
Proof.
  unfold rng, in_range. intros H. apply andb_false_iff in H.
  rewrite !N.leb_gt in H. lia.
Qed.

(** A decimal digit is neither a dot nor a blank, and an ASCII character
    is a decimal digit exactly when it is one of ['0'..'9']. *)
Lemma is_decimal_ascii (c : N) :
  (c < 128)%N -> is_decimal c = is_ascii_digit c.
Proof.
  intros Hc. unfold is_decimal, in_ranges, decimal_ranges.
  cbn [existsb fst snd].
  assert (Hout : forall lo hi, (128 <= lo)%N -> in_range lo hi c = false).
  { intros lo hi Hlo. unfold in_range.
    destruct (N.leb_spec lo c); [lia | reflexivity]. }
  repeat match goal with
         | |- context [in_range ?lo ?hi c] => rewrite (Hout lo hi) by lia
         end.
  rewrite !orb_false_r. reflexivity.
Qed.

Lemma is_decimal_not_below_48 (c : N) :
  is_decimal c = true -> (48 <= c)%N.
Proof.
  intros H. destruct (N.lt_ge_cases c 48) as [Hlt|]; [|assumption].
  rewrite is_decimal_ascii in H by lia.
  apply in_range_spec in H. lia.
Qed.

Ltac charfacts :=
  repeat match goal with
  | H : chr _ _ = true |- _ => apply chr_true in H
  | H : chr _ _ = false |- _ => apply chr_false in H
  | H : rng _ _ _ = true |- _ => apply rng_true in H
  | H : rng _ _ _ = false |- _ => apply rng_false in H
  | H : is_decimal _ = true |- _ => apply is_decimal_not_below_48 in H
  end;
  unfold ch in *; simpl N_of_ascii in *.

Ltac split_tests :=
  repeat match goal with
  | |- context [chr ?x ?c] => destruct (chr x c) eqn:?
  | |- context [rng ?x ?y ?c] => destruct (rng x y c) eqn:?
  end.

Ltac absurd_chars := exfalso; charfacts; lia.

Lemma re_d_complete {A} (K : str -> str -> option A) (ds rest : str) :
  day_token ds = true ->
  re_d (fun d => re_dot (K d)) (ds ++ 46%N :: rest) = K ds rest.
Proof.
  intros H. destruct ds as [|a [|b [|c ds]]]; try discriminate H;
    unfold day_token in H.
  - unfold re_d, re_dot, cls, orelse. cbn [app].
    change (is_decimal 46) with false.
    split_tests; try discriminate; try absurd_chars;
      destruct (K [a] rest); reflexivity.
  - unfold re_d, re_dot, cls, orelse. cbn [app].
    destruct (is_decimal b) eqn:Hb;
    split_tests; try discriminate; try absurd_chars;
      destruct (K [a; b] rest); reflexivity.
Qed.

Lemma re_m_complete {A} (K : str -> str -> option A) (ms rest : str) :
  month_token ms = true ->
  re_m (fun m => re_dot (K m)) (ms ++ 46%N :: rest) = K ms rest.
Proof.
  intros H. destruct ms as [|a [|b [|c ms]]]; try discriminate H;
    unfold month_token in H;
    unfold re_m, re_dot, cls, orelse; cbn [app];
    split_tests; try discriminate; try absurd_chars;
    match goal with |- context [K ?x rest] => destruct (K x rest) end;
    reflexivity.
Qed.

Lemma re_Y_complete {A} (K : str -> str -> option A) (ys rest : str) :
  year_token ys = true -> re_Y K (ys ++ rest) = K ys rest.
Proof.
  intros H. destruct ys as [|a [|b [|c [|d [|e ys]]]]]; try discriminate H.
  unfold year_token in H. rewrite !andb_true_iff in H.
  destruct H as [[[Ha Hb] Hc] Hd].
  unfold re_Y, cls. cbn [app]. rewrite Ha, Hb, Hc, Hd. reflexivity.
Qed.

Ltac split_conts K :=
  repeat match goal with
  | |- context [K ?d ?r] => destruct (K d r) eqn:?
  end.

Ltac token_holds :=
  repeat match goal with H : _ = _ |- _ => rewrite H end;
  rewrite ?orb_true_r; reflexivity.

Ltac give ds rest tok :=
  exists ds, rest; split; [reflexivity|]; split; [|assumption];
  unfold tok; token_holds.

Lemma re_d_sound {A} (K : str -> str -> option A) (s : str) (x : A) :
  re_d K s = Some x ->
  exists ds rest, s = ds ++ rest /\ day_token ds = true /\ K ds rest = Some x.
Proof.
  unfold re_d, cls, orelse.
  destruct s as [|a [|b rest]]; [discriminate| |].
  - split_tests; split_conts K; try discriminate; intros [= <-];
      give [a] (@nil N) day_token.
  - destruct (is_decimal b) eqn:Hb; split_tests; split_conts K;
      try discriminate; intros [= <-];
    first
      [ give [a; b] rest day_token | give [a] (b :: rest) day_token ].
Qed.

Lemma re_m_sound {A} (K : str -> str -> option A) (s : str) (x : A) :
  re_m K s = Some x ->
  exists ms rest,
    s = ms ++ rest /\ month_token ms = true /\ K ms rest = Some x.
Proof.
  unfold re_m, cls, orelse.
  destruct s as [|a [|b rest]]; [discriminate| |].
  - split_tests; split_conts K; try discriminate; intros [= <-];
      give [a] (@nil N) month_token.
  - split_tests; split_conts K; try discriminate; intros [= <-];
    first
      [ give [a; b] rest month_token | give [a] (b :: rest) month_token ].
Qed.

Lemma re_Y_sound {A} (K : str -> str -> option A) (s : str) (x : A) :
  re_Y K s = Some x ->
  exists ys rest,
    s = ys ++ rest /\ year_token ys = true /\ K ys rest = Some x.
Proof.
  unfold re_Y, cls.
  destruct s as [|a [|b [|c [|d rest]]]];
    repeat match goal with
    | |- context [is_decimal ?c] => destruct (is_decimal c) eqn:?
    end; try discriminate.
  intros H. exists [a; b; c; d], rest.
  split; [reflexivity|]. split; [|assumption].
  unfold year_token. token_holds.
Qed.

Lemma re_dot_sound {A} (K : str -> option A) (s : str) (x : A) :
  re_dot K s = Some x -> exists rest, s = 46%N :: rest /\ K rest = Some x.
Proof.
  unfold re_dot, cls. destruct s as [|c rest]; [discriminate|].
  destruct (chr "." c) eqn:E; [|discriminate].
  apply chr_true in E. subst c. eauto.
Qed.

(** What the regular expression matches. *)
Lemma format_regex_match_spec (s d m Y rest : str) :
  format_regex_match s = Some (d, m, Y, rest)
  <-> s = d ++ [46%N] ++ m ++ [46%N] ++ Y ++ rest
      /\ day_token d = true /\ month_token m = true /\ year_token Y = true.
Proof.
  unfold format_regex_match. split.
  - intros H.
    apply re_d_sound in H. destruct H as (ds & r1 & -> & Hd & H).
    apply re_dot_sound in H. destruct H as (r2 & -> & H).
    apply re_m_sound in H. destruct H as (ms & r3 & -> & Hm & H).
    apply re_dot_sound in H. destruct H as (r4 & -> & H).
    apply re_Y_sound in H. destruct H as (ys & r5 & -> & HY & H).
    injection H as <- <- <- <-. auto.
  - intros (-> & Hd & Hm & HY). simpl.
    rewrite (re_d_complete
               (fun d0 => re_m (fun m0 => re_dot (re_Y (fun Y0 rest0 =>
                  Some (d0, m0, Y0, rest0))))) d _ Hd).
    rewrite (re_m_complete
               (fun m0 => re_Y (fun Y0 rest0 => Some (d, m0, Y0, rest0)))
               m _ Hm).
    rewrite re_Y_complete by assumption. reflexivity.
Qed.

Lemma int_raises (s : str) (e : exn) :
  int s = Raise e -> exists m, e = ValueError m.
Proof.
  unfold int. destruct (lstrip_blank s); [intros [= <-]; eauto|].
  destruct (int_acc 0 _); [discriminate|]. intros [= <-]; eauto.
Qed.

Lemma new_raises (y m d : Z) (e : exn) :
  __new__ y m d = Raise e -> exists msg, e = ValueError msg.
Proof.
  unfold __new__, _check_date_fields, bind.
  repeat match goal with
  | |- context [if ?c then _ else _] => destruct c
  end; try discriminate; intros [= <-]; eauto.
Qed.

Lemma strptime_spec (s : str) (y m d : Z) :
  _strptime s = Ok (y, m, d)
  <-> exists ds ms ys,
        s = ds ++ [46%N] ++ ms ++ [46%N] ++ ys
        /\ day_token ds = true /\ month_token ms = true
        /\ year_token ys = true
        /\ int ds = Ok d /\ int ms = Ok m /\ int ys = Ok y
        /\ valid (mkdate y m d).
Proof.
  unfold _strptime. split.
  - destruct (format_regex_match s) as [[[[ds ms] ys] rest]|] eqn:E;
      [|discriminate].
    apply format_regex_match_spec in E. destruct E as (-> & Hd & Hm & HY).
    destruct rest as [|c rest]; [|discriminate]. simpl negb. cbv iota.
    unfold bind.
    destruct (int ys) as [y'|] eqn:Ey; [|discriminate].
    destruct (int ms) as [m'|] eqn:Em; [|discriminate].
    destruct (int ds) as [d'|] eqn:Ed; [|discriminate].
    destruct (__new__ y' m' d') as [x|] eqn:En; [|discriminate].
    intros [= <- <- <-]. apply new_ok in En. destruct En as [-> Hv].
    exists ds, ms, ys. rewrite app_nil_r. auto 10.
  - intros (ds & ms & ys & -> & Hd & Hm & HY & Ed & Em & Ey & Hv).
    assert (E : format_regex_match (ds ++ [46%N] ++ ms ++ [46%N] ++ ys)
                = Some (ds, ms, ys, [])).
    { apply format_regex_match_spec. rewrite app_nil_r. auto. }
    rewrite E. simpl negb. cbv iota. unfold bind.
    rewrite Ey, Em, Ed, (new_valid _ _ _ Hv). reflexivity.
Qed.

Lemma strptime_raises (s : str) (e : exn) :
  _strptime s = Raise e -> exists m, e = ValueError m.
Proof.
  unfold _strptime.
  destruct (format_regex_match s) as [[[[ds ms] ys] rest]|];
    [|intros [= <-]; eauto].
  destruct (negb (len rest =? 0)); [intros [= <-]; eauto|].
  unfold bind.
  destruct (int ys) eqn:Ey; [|intros [= <-]; eapply int_raises; eauto].
  destruct (int ms) eqn:Em; [|intros [= <-]; eapply int_raises; eauto].
  destruct (int ds) eqn:Ed; [|intros [= <-]; eapply int_raises; eauto].
  destruct (__new__ _ _ _) eqn:En; [discriminate|].
  intros [= <-]. eapply new_raises; eauto.
Qed.

Lemma strptime_date_spec (s : str) (x : date) :
  strptime_date s = Ok x <-> denotes s x.
Proof.
  unfold strptime_date, bind, denotes. split.
  - destruct (_strptime s) as [[[y m] d]|] eqn:E; [|discriminate].
    intros En. apply new_ok in En. destruct En as [-> Hv].
    apply strptime_spec in E. exact E.
  - intros H. destruct x as [y m d]. simpl in H.
    pose proof H as (_ & _ & _ & _ & _ & _ & _ & _ & _ & _ & Hv).
    apply strptime_spec in H. rewrite H. apply new_valid. exact Hv.
Qed.

Lemma strptime_date_raises (s : str) (e : exn) :
  strptime_date s = Raise e -> exists m, e = ValueError m.
Proof.
  unfold strptime_date, bind.
  destruct (_strptime s) as [[[y m] d]|] eqn:E.
  - apply new_raises.
  - intros [= <-]. eapply strptime_raises; eauto.
Qed.

Lemma birthday_init_ok (s : str) (b : Birthday.t) :
  Birthday.__init__ s = Ok b <-> denotes s (Birthday.value b).
Proof.
  rewrite <- strptime_date_spec. unfold Birthday.__init__, bind.
  destruct (strptime_date s) as [x|e] eqn:E; simpl.
  - destruct b as [d]. simpl. split; congruence.
  - split; [|discriminate]. destruct e; discriminate.
Qed.

Lemma birthday_init_raises (s : str) (e : exn) :
  Birthday.__init__ s = Raise e -> e = ValueError InvalidDateFormatMsg.
Proof.
  unfold Birthday.__init__, bind.
  destruct (strptime_date s) as [x|e'] eqn:E; simpl; [discriminate|].
  apply strptime_date_raises in E. destruct E as [m ->]. simpl.
  congruence.
Qed.

Lemma digit_table : forallb digit_ok (seq 0 10) = true.
Proof. vm_compute. reflexivity. Qed.

Lemma digit_facts (v : Z) :
  0 <= v <= 9 ->
  is_decimal (digit_char v) = true /\ is_ascii_digit (digit_char v) = true
  /\ N.eqb (digit_char v) 32 = false
  /\ decimal_value (digit_char v) = Some v.
Proof.
  intros Hv. pose proof digit_table as T. rewrite forallb_forall in T.
  specialize (T (Z.to_nat v) ltac:(apply in_seq; lia)).
  unfold digit_ok in T. cbv zeta in T. rewrite Z2Nat.id in T by lia.
  rewrite !andb_true_iff, negb_true_iff in T.
  destruct T as [[[H1 H2] H3] H4].
  destruct (decimal_value (digit_char v)); [|discriminate].
  apply Z.eqb_eq in H4. subst. auto.
Qed.

Lemma two_digits_facts (tok : str -> bool) (lo hi a b : Z) :
  two_digits_table tok lo hi = true ->
  0 <= a <= 9 -> 0 <= b <= 9 -> lo <= 10 * a + b <= hi ->
  tok [digit_char a; digit_char b] = true
  /\ int [digit_char a; digit_char b] = Ok (10 * a + b).
Proof.
  intros T Ha Hb Hv. unfold two_digits_table in T.
  rewrite forallb_forall in T.
  specialize (T (Z.to_nat a) ltac:(apply in_seq; lia)).
  rewrite forallb_forall in T.
  specialize (T (Z.to_nat b) ltac:(apply in_seq; lia)).
  unfold two_digits_ok in T. cbv zeta in T. rewrite !Z2Nat.id in T by lia.
  destruct (Z.leb_spec lo (10 * a + b)); [|lia].
  destruct (Z.leb_spec (10 * a + b) hi); [|lia].
  cbn [andb implb] in T. apply andb_true_iff in T. destruct T as [T1 T2].
  split; [assumption|].
  destruct (int _); [|discriminate]. apply Z.eqb_eq in T2.
  f_equal. exact T2.
Qed.

Lemma day_table : two_digits_table day_token 1 31 = true.
Proof. vm_compute. reflexivity. Qed.

Lemma month_table12 : two_digits_table month_token 1 12 = true.
Proof. vm_compute. reflexivity. Qed.

Lemma year_digits_facts (y3 y2 y1 y0 : Z) :
  0 <= y3 <= 9 -> 0 <= y2 <= 9 -> 0 <= y1 <= 9 -> 0 <= y0 <= 9 ->
  let ys := [digit_char y3; digit_char y2; digit_char y1; digit_char y0] in
  year_token ys = true
  /\ int ys = Ok (1000 * y3 + 100 * y2 + 10 * y1 + y0).
Proof.
  intros H3 H2 H1 H0 ys.
  destruct (digit_facts y3 H3) as (A3 & _ & B3 & C3).
  destruct (digit_facts y2 H2) as (A2 & _ & B2 & C2).
  destruct (digit_facts y1 H1) as (A1 & _ & B1 & C1).
  destruct (digit_facts y0 H0) as (A0 & _ & B0 & C0).
  split.
  - unfold ys, year_token. rewrite A3, A2, A1, A0. reflexivity.
  - unfold ys, int. cbn [lstrip_blank]. rewrite B3.
    cbn [int_acc]. rewrite C3, C2, C1, C0. f_equal. lia.
Qed.

(** A date of the calendar written in the exact form DD.MM.YYYY reads as
    that date. *)
Lemma DDMMYYYY_denotes (s : str) (d : date) :
  valid d -> is_DDMMYYYY s d -> denotes s d.
Proof.
  intros Hv (d1 & d0 & m1 & m0 & y3 & y2 & y1 & y0 & HF & -> & Hd & Hm & Hy).
  repeat match goal with
  | H : Forall _ (_ :: _) |- _ => inversion H; clear H; subst
  end.
  pose proof Hv as (Hvy & Hvm & Hvd).
  rewrite days_in_month_eq in Hvd.
  pose proof (month_bounds (_is_leap (year d)) (month d) Hvm) as Hb.
  destruct (two_digits_facts day_token 1 31 d1 d0 day_table) as [Td Id];
    try lia.
  destruct (two_digits_facts month_token 1 12 m1 m0 month_table12)
    as [Tm Im]; try lia.
  destruct (year_digits_facts y3 y2 y1 y0) as [Ty Iy]; try lia.
  exists [digit_char d1; digit_char d0], [digit_char m1; digit_char m0],
         [digit_char y3; digit_char y2; digit_char y1; digit_char y0].
  rewrite <- Hd in Id. rewrite <- Hm in Im. rewrite <- Hy in Iy.
  split; [reflexivity|]. do 6 (split; [assumption|]). exact Hv.
Qed.

Lemma DDMMYYYY_exact_shape (s : str) (d : date) :
  is_DDMMYYYY s d -> exact_shape s = true.
Proof.
  intros (d1 & d0 & m1 & m0 & y3 & y2 & y1 & y0 & HF & -> & _).
  repeat match goal with
  | H : Forall _ (_ :: _) |- _ => inversion H; clear H; subst
  end.
  unfold exact_shape. cbn [forallb].
  repeat match goal with
  | H : 0 <= ?v <= 9 |- _ =>
      rewrite (proj1 (proj2 (digit_facts v H))); clear H
  end. reflexivity.
Qed.

(** [Birthday] reads back what [strftime] writes for a date of the year
    1000 or later. *)
Lemma birthday_of_strftime (d : date) :
  valid d -> 1000 <= year d ->
  Birthday.__init__ (strftime_dmY d) = Ok (Birthday.mk d).
Proof.
  intros Hv Hy. apply birthday_init_ok. simpl.
  apply DDMMYYYY_denotes; [assumption|].
  apply strftime_is_DDMMYYYY; assumption.
Qed.

Lemma digit_char_range (v : Z) :
  0 <= v <= 9 -> (48 <= digit_char v <= 57)%N.
Proof. unfold digit_char. lia. Qed.

Lemma any_two_digits : two_digits_table (fun _ => true) 0 99 = true.
Proof. vm_compute. reflexivity. Qed.

(** A text of the exact form DD.MM.YYYY splits into day, month and year
    in one way only. *)
Lemma exact_decomposition (d1 d0 m1 m0 y3 y2 y1 y0 : Z) (ds ms ys : str) :
  Forall (fun v => 0 <= v <= 9) [d1; d0; m1; m0; y3; y2; y1; y0] ->
  [digit_char d1; digit_char d0; 46%N; digit_char m1; digit_char m0; 46%N;
   digit_char y3; digit_char y2; digit_char y1; digit_char y0]
  = ds ++ [46%N] ++ ms ++ [46%N] ++ ys ->
  day_token ds = true -> month_token ms = true ->
  ds = [digit_char d1; digit_char d0]
  /\ ms = [digit_char m1; digit_char m0]
  /\ ys = [digit_char y3; digit_char y2; digit_char y1; digit_char y0].
Proof.
  intros HF H Hd Hm.
  repeat match goal with
  | H : Forall _ (_ :: _) |- _ => inversion H; clear H; subst
  end.
  repeat match goal with
  | H : 0 <= ?v <= 9 |- _ => apply digit_char_range in H
  end.
  destruct ds as [|a [|b [|c ds]]]; try discriminate Hd.
  - simpl in H. injection H as _ H _. lia.
  - simpl in H. injection H as <- <- H.
    destruct ms as [|x [|y [|z ms]]]; try discriminate Hm.
    + simpl in H. injection H as _ H _. lia.
    + simpl in H. injection H as <- <- <-. auto.
Qed.

Lemma DDMMYYYY_unique (s : str) (d x : date) :
  is_DDMMYYYY s d -> denotes s x -> x = d.
Proof.
  intros (d1 & d0 & m1 & m0 & y3 & y2 & y1 & y0 & HF & -> & Hd & Hm & Hy)
         (ds & ms & ys & E & Td & Tm & Ty & Id & Im & Iy & Hv).
  destruct (exact_decomposition _ _ _ _ _ _ _ _ _ _ _ HF E Td Tm)
    as (-> & -> & ->).
  repeat match goal with
  | H : Forall _ (_ :: _) |- _ => inversion H; clear H; subst
  end.
  destruct (two_digits_facts (fun _ => true) 0 99 d1 d0 any_two_digits)
    as [_ Id']; try lia.
  destruct (two_digits_facts (fun _ => true) 0 99 m1 m0 any_two_digits)
    as [_ Im']; try lia.
  destruct (year_digits_facts y3 y2 y1 y0) as [_ Iy']; try lia.
  cbv zeta in Iy'. rewrite Id' in Id. rewrite Im' in Im. rewrite Iy' in Iy.
  destruct x as [xy xm xd], d as [dy dm dd]. simpl in *. congruence.
Qed.

(** Two digits, a dot, two digits, a dot and fewer than four characters
    read as no date: the year of [%Y] has four digits. *)
Lemma short_year_denotes_nothing (d1 d0 m1 m0 : Z) (ys : str) (x : date) :
  0 <= d0 <= 9 -> 0 <= m0 <= 9 -> (List.length ys <= 3)%nat ->
  ~ denotes ([digit_char d1; digit_char d0; 46%N;
              digit_char m1; digit_char m0; 46%N] ++ ys) x.
Proof.
  intros Hd0 Hm0 Hl (ds & ms & yt & E & Td & Tm & Ty & _).
  apply digit_char_range in Hd0, Hm0.
  destruct ds as [|a [|b [|c ds]]]; try discriminate Td.
  - simpl in E. injection E as _ E _. lia.
  - simpl in E. injection E as _ _ E.
    destruct ms as [|u [|v [|w ms]]]; try discriminate Tm.
    + simpl in E. injection E as _ E _. lia.
    + simpl in E. injection E as _ _ E. subst yt.
      destruct ys as [|y3 [|y2 [|y1 [|y0 ys]]]]; try discriminate Ty.
      simpl in Hl. lia.
Qed.

(** What [strftime] writes for a date before the year 1000 is shorter
    than DD.MM.YYYY and [Birthday] rejects it. *)
Lemma strftime_short_year (d : date) :
  valid d -> year d < 1000 ->
  (List.length (strftime_dmY d) < 10)%nat
  /\ Birthday.__init__ (strftime_dmY d)
     = Raise (ValueError InvalidDateFormatMsg).
Proof.
  intros (Hy & _) Hlt. unfold MINYEAR in Hy.
  pose proof (fmt_d_short (year d) ltac:(lia)) as Hl.
  split.
  - unfold strftime_dmY, fmt_02d. rewrite !length_app.
    cbn [List.length]. lia.
  - destruct (Birthday.__init__ (strftime_dmY d)) as [b|e] eqn:E.
    + apply birthday_init_ok in E. exfalso.
      refine (short_year_denotes_nothing
                (day d / 10 mod 10) (day d mod 10)
                (month d / 10 mod 10) (month d mod 10)
                (fmt_d (year d)) (Birthday.value b) _ _ Hl E);
        Z.div_mod_to_equations; lia.
    + rewrite (birthday_init_raises _ _ E). reflexivity.
Qed.

End StrptimeFacts.

(** C5 (counterexample).  The text 1.2.2024 is not of the form DD.MM.YYYY
    (day and month have one digit), and [Birthday] accepts it as
    1 February 2024. *)
Lemma birthday_accepts_short_form :
  Birthday.__init__ (ascii_str "1.2.2024")
  = Ok (Birthday.mk (Date.mkdate 2024 2 1))
  /\ Spec.exact_shape (ascii_str "1.2.2024") = false
  /\ forall d, ~ Spec.is_DDMMYYYY (ascii_str "1.2.2024") d.
Proof.
  split; [vm_compute; reflexivity|]. split; [vm_compute; reflexivity|].
  intros d H. apply DDMMYYYY_exact_shape in H. vm_compute in H.
  discriminate H.
Qed.

(** C5 (amended).  [Birthday(s)] succeeds exactly when [s] reads as a date
    of the calendar in the grammar of [%d.%m.%Y]: a day written 1..9,
    01..09, 10..31 or blank and 1..9, a dot, a month written 1..9, 01..09
    or 10..12, a dot, and a year of four decimal digits; the stored value
    is that date.  Every other string fails with the validation error.
    In particular a text of the exact form DD.MM.YYYY is accepted when it
    names a date of the calendar, and rejected with the validation error
    when it does not. *)
Theorem birthday_init_spec (s : str) :
  (forall b, Birthday.__init__ s = Ok b <-> Spec.denotes s (Birthday.value b))
  /\ ((forall d, ~ Spec.denotes s d) ->
      Birthday.__init__ s = Raise (ValueError InvalidDateFormatMsg))
  /\ (forall d, Spec.is_DDMMYYYY s d -> Date.valid d ->
      Birthday.__init__ s = Ok (Birthday.mk d))
  /\ (forall d, Spec.is_DDMMYYYY s d -> ~ Date.valid d ->
      Birthday.__init__ s = Raise (ValueError InvalidDateFormatMsg)).
Proof.
  assert (Hfail : (forall d, ~ Spec.denotes s d) ->
                  Birthday.__init__ s = Raise (ValueError InvalidDateFormatMsg)).
  { intros Hn. destruct (Birthday.__init__ s) as [b|e] eqn:E.
    - apply birthday_init_ok in E. destruct (Hn _ E).
    - rewrite (birthday_init_raises s e E). reflexivity. }
  split; [|split; [|split]].
  - intros b. apply birthday_init_ok.
  - exact Hfail.
  - intros d Hs Hv. apply birthday_init_ok. simpl.
    apply DDMMYYYY_denotes; assumption.
  - intros d Hs Hv. apply Hfail. intros x Hx.
    pose proof (DDMMYYYY_unique s d x Hs Hx) as ->.
    apply Hv. destruct Hx as (_ & _ & _ & _ & _ & _ & _ & _ & _ & _ & H).
    exact H.
Qed.

Lemma birthday_init_spec_witness :
  Birthday.__init__ (ascii_str "29.02.2024")
  = Ok (Birthday.mk (Date.mkdate 2024 2 29))
  /\ Birthday.__init__ (ascii_str "31.02.2024")
     = Raise (ValueError InvalidDateFormatMsg).
Proof.
  split.
  - apply (proj1 (proj2 (proj2 (birthday_init_spec (ascii_str "29.02.2024"))))
                 (Date.mkdate 2024 2 29)).
    + exists 2, 9, 0, 2, 2, 0, 2, 4.
      split; [repeat constructor; lia|]. repeat split; reflexivity.
    + vm_compute. repeat split; discriminate.
  - apply (proj2 (proj2 (proj2 (birthday_init_spec (ascii_str "31.02.2024"))))
                 (Date.mkdate 2024 2 31)).
    + exists 3, 1, 0, 2, 2, 0, 2, 4.
      split; [repeat constructor; lia|]. repeat split; reflexivity.
    + vm_compute. intros (_ & _ & _ & H). apply H. reflexivity.
Defined.




(* ================================================================== *)
(** * Further properties of the classes *)

Section ClassFacts.
Import Date DateAux AddressBook Spec.

(** X1.  [remove_phone(phone)] removes the first phone whose value is
    [phone]: the record it leaves has the other phones in their order, one
    phone less, and the name and birthday it had; when no phone has that
    value it raises the not-found [ValueError] and the record stays as it
    was. *)
Theorem remove_phone_spec (self : Record.t) (phone : str) :
  (forall l1 p l2,
      Record.phones self = l1 ++ p :: l2 ->
      Forall (differs phone) l1 -> Phone.value p = phone ->
      exists self',
        Record.remove_phone phone self = (Ok tt, self')
        /\ Record.phones self' = l1 ++ l2
        /\ S (List.length (Record.phones self'))
           = List.length (Record.phones self)
        /\ Record.name self' = Record.name self
        /\ Record.birthday self' = Record.birthday self)
  /\ (Forall (differs phone) (Record.phones self) ->
      Record.remove_phone phone self
      = (Raise (ValueError
                  (PhoneNotFoundMsg phone (Name.value (Record.name self)))),
         self)).
Proof.
  split.
  - intros l1 p l2 Hps Hl Hp.
    rewrite (remove_phone_found self phone l1 p l2 Hps Hl Hp).
    eexists. split; [reflexivity|].
    cbn [Record.set_phones Record.phones Record.name Record.birthday].
    split; [reflexivity|]. split; [|split; reflexivity].
    rewrite Hps, !length_app. simpl. lia.
  - apply remove_phone_absent.
Qed.

(** X2.  [find_phone(phone)] never raises and never changes the record;
    it returns the first phone whose value is [phone], and [None] exactly
    when no phone of the record has that value. *)
Theorem find_phone_spec (self : Record.t) (phone : str) :
  snd (Record.find_phone phone self) = self
  /\ (forall l1 p l2,
      Record.phones self = l1 ++ p :: l2 ->
      Forall (differs phone) l1 -> Phone.value p = phone ->
      fst (Record.find_phone phone self) = Ok (Some p))
  /\ (Forall (differs phone) (Record.phones self) <->
      fst (Record.find_phone phone self) = Ok None).
Proof.
  unfold Record.find_phone, mbind, get, ret. simpl. split; [reflexivity|].
  split.
  - intros l1 p l2 -> Hl Hp. rewrite find_phone_in_first; auto.
  - rewrite <- find_phone_in_none. split; congruence.
Qed.

(** X3.  A call [add_phone(phone)] that returns has put [Phone(phone)]
    at the end of the list, behind the phones that were there (also when
    one of them has the same value), has kept name and birthday, was given
    ten digits, and a later [find_phone(phone)] finds a phone of that
    value. *)
Theorem add_phone_appends (self : Record.t) (phone : str) (self' : Record.t) :
  Record.add_phone phone self = (Ok tt, self') ->
  Record.name self' = Record.name self
  /\ Record.birthday self' = Record.birthday self
  /\ Record.phones self' = Record.phones self ++ [Phone.mk phone]
  /\ Unicode.isdigit phone = true /\ len phone = 10
  /\ exists q, fst (Record.find_phone phone self') = Ok (Some q)
               /\ Phone.value q = phone.
Proof.
  unfold Record.add_phone, mbind, lift, get, put.
  destruct (Phone.__init__ phone) as [p|e] eqn:E; [|discriminate].
  intros [= <-]. simpl.
  unfold Phone.__init__ in E.
  destruct (Unicode.isdigit phone) eqn:E1; [|discriminate].
  destruct (Z.eqb_spec (len phone) 10) as [E2|]; [|discriminate].
  simpl in E. injection E as <-.
  repeat (split; [reflexivity || assumption|]).
  unfold Record.find_phone, mbind, get, ret. simpl.
  destruct (Record.find_phone_in (Record.phones self ++ [Phone.mk phone]) phone)
    as [q|] eqn:F.
  - exists q. split; [reflexivity|].
    apply find_phone_in_some in F. destruct F as (_ & _ & _ & H & _). exact H.
  - exfalso. apply find_phone_in_none in F.
    rewrite Forall_app in F. destruct F as [_ F]. inversion F; subst.
    apply H1. reflexivity.
Qed.


Lemma dict_delitem_absent (d : AddressBook.t) (k : str) :
  ~ In k (keys d) -> dict_delitem d k = d.
Proof.
  induction d as [|[k0 v0] d IH]; simpl; [reflexivity|]. intros H.
  destruct (str_eqb k0 k) eqn:E.
  - apply str_eqb_eq in E. exfalso. apply H. left. assumption.
  - rewrite IH; [reflexivity|]. intros Hin. apply H. right. assumption.
Qed.

Lemma dict_get_absent (d : AddressBook.t) (k : str) :
  ~ In k (keys d) <-> dict_get d k = None.
Proof.
  induction d as [|[k0 v0] d IH]; simpl; [tauto|].
  destruct (str_eqb k0 k) eqn:E.
  - apply str_eqb_eq in E. split; [intros H; exfalso; auto|discriminate].
  - apply str_eqb_neq in E. rewrite <- IH. tauto.
Qed.

Lemma keys_delitem (d : AddressBook.t) (k : str) :
  NoDup (keys d) ->
  keys (dict_delitem d k) = filter (fun x => negb (str_eqb x k)) (keys d).
Proof.
  induction d as [|[k0 v0] d IH]; simpl; [reflexivity|]. intros H.
  inversion H as [|? ? Hnin Hnd]; subst.
  destruct (str_eqb k0 k) eqn:E; simpl.
  - apply str_eqb_eq in E. subst k0.
    clear IH H Hnd. induction (keys d) as [|x l IHl]; simpl; [reflexivity|].
    destruct (str_eqb x k) eqn:E2.
    + apply str_eqb_eq in E2. exfalso. apply Hnin. left. assumption.
    + simpl. f_equal. apply IHl. intros Hin. apply Hnin. right. assumption.
  - f_equal. apply IH. assumption.
Qed.

Lemma dict_get_delitem_other (d : AddressBook.t) (k n : str) :
  n <> k -> dict_get (dict_delitem d k) n = dict_get d n.
Proof.
  intros Hne. induction d as [|[k0 v0] d IH]; simpl; [reflexivity|].
  destruct (str_eqb k0 k) eqn:E; simpl.
  - apply str_eqb_eq in E. subst k0.
    assert (str_eqb k n = false) as -> by (apply str_eqb_neq; congruence).
    reflexivity.
  - rewrite IH. reflexivity.
Qed.

Lemma dict_get_delitem_same (d : AddressBook.t) (k : str) :
  NoDup (keys d) -> dict_get (dict_delitem d k) k = None.
Proof.
  intros H. apply dict_get_absent. rewrite keys_delitem by assumption.
  intros Hin. apply filter_In in Hin. destruct Hin as [_ Hin].
  rewrite str_eqb_refl in Hin. discriminate.
Qed.

(** [delete] never raises, and leaves the dictionary without the first
    entry under [name]. *)
Lemma delete_eq (book : AddressBook.t) (name : str) :
  delete name book = (Ok tt, dict_delitem book name).
Proof.
  unfold delete, mbind, get, put, ret.
  destruct (dict_contains book name) eqn:E; [reflexivity|].
  rewrite dict_delitem_absent; [reflexivity|].
  rewrite <- dict_contains_In, E. discriminate.
Qed.

(** X5.  [delete(name)] never raises.  When [name] is not a key the book
    stays as it was; in any case [find(name)] returns [None] afterwards,
    the entries of the other names are the same, and the remaining keys
    keep their order. *)
Theorem delete_spec (book : AddressBook.t) (name : str) :
  NoDup (keys book) ->
  fst (delete name book) = Ok tt
  /\ (~ In name (keys book) -> snd (delete name book) = book)
  /\ fst (find name (snd (delete name book))) = Ok None
  /\ (forall n, n <> name ->
        fst (find n (snd (delete name book))) = fst (find n book))
  /\ keys (snd (delete name book))
     = filter (fun x => negb (str_eqb x name)) (keys book).
Proof.
  intros Hnd. rewrite delete_eq. unfold find, mbind, get, ret. simpl.
  split; [reflexivity|]. split; [apply dict_delitem_absent|].
  split; [rewrite dict_get_delitem_same by assumption; reflexivity|].
  split; [|apply keys_delitem; assumption].
  intros n Hn. rewrite dict_get_delitem_other by assumption. reflexivity.
Qed.

Lemma delitem_setitem_fresh (d : AddressBook.t) (k : str) (v : Record.t) :
  ~ In k (keys d) -> dict_delitem (dict_setitem d k v) k = d.
Proof.
  induction d as [|[k0 v0] d IH]; simpl; intros H.
  - rewrite str_eqb_refl. reflexivity.
  - destruct (str_eqb k0 k) eqn:E.
    + apply str_eqb_eq in E. exfalso. apply H. left. assumption.
    + simpl. rewrite E, IH; [reflexivity|].
      intros Hin. apply H. right. assumption.
Qed.

(** X6.  For a record whose name is not yet a key, [add_record] followed
    by [delete] of that name gives back the book as it was, and in between
    [find] returns the record. *)
Theorem delete_after_add_record (book : AddressBook.t) (r : Record.t) :
  ~ In (name_of r) (keys book) ->
  snd (delete (name_of r) (snd (add_record r book))) = book
  /\ fst (find (name_of r) (snd (add_record r book))) = Ok (Some r).
Proof.
  intros H. rewrite delete_eq.
  unfold add_record, find, mbind, get, put, ret. simpl.
  fold (name_of r). rewrite dict_get_setitem_same. split; [|reflexivity].
  apply delitem_setitem_fresh. assumption.
Qed.

(** X7.  On a record that has no phone of the value [phone], a phone
    number of ten digits can be added, and removing it again gives back
    the record as it was. *)
Theorem remove_after_add_phone (self : Record.t) (phone : str) :
  Forall (differs phone) (Record.phones self) ->
  Unicode.isdigit phone = true -> len phone = 10 ->
  exists self',
    Record.add_phone phone self = (Ok tt, self')
    /\ Record.remove_phone phone self' = (Ok tt, self).
Proof.
  intros Habs Hd Hl.
  unfold Record.add_phone, mbind, lift, get, put, Phone.__init__.
  rewrite Hd, Hl. simpl. eexists. split; [reflexivity|].
  rewrite (remove_phone_found _ phone (Record.phones self) (Phone.mk phone) []);
    auto.
  rewrite app_nil_r. destruct self; reflexivity.
Qed.

Lemma Forall2_Forall_r {A B} (P : A -> B -> Prop) (Q : B -> Prop)
    (l : list A) (out : list B) :
  Forall2 P l out -> (forall a b, In a l -> P a b -> Q b) -> Forall Q out.
Proof.
  induction 1 as [|a b l out Hab _ IH]; intros H; constructor.
  - apply (H a b); [left; reflexivity|assumption].
  - apply IH. intros a' b' Hin. apply H. right. assumption.
Qed.

Lemma weekday_range (d : date) : 0 <= weekday d <= 6.
Proof. unfold weekday. Z.div_mod_to_equations. lia. Qed.

(** X8.  Whenever [get_upcoming_birthdays] returns, every
    [congratulation_date] is the text of a date that is a Monday to Friday
    and lies at most 9 days after today (never before today).  The
    current date is of the year 1000 or later, so that the text has a year
    of four digits and reads back as its date. *)
Theorem upcoming_dates_are_working_days (today : date)
    (book : AddressBook.t) (out : list entry) :
  valid today -> 1000 <= year today -> birthdays_valid (values book) ->
  fst (get_upcoming_birthdays today book) = Ok out ->
  Forall (fun e => exists cd,
            Birthday.__init__ (congratulation_date e) = Ok (Birthday.mk cd)
            /\ 0 <= weekday cd <= 4
            /\ 0 <= days_until today cd <= 9) out.
Proof.
  intros Ht Hy Hb H.
  apply (Forall2_Forall_r (congratulates today) _
           (filter (qualifies today) (values book)) out).
  - apply get_upcoming_birthdays_ok; assumption.
  - intros r e Hin (_ & b & cd & Eb & Hvnb & Hvcd & Ho & Hs).
    apply filter_In in Hin. destruct Hin as [_ Hq].
    unfold qualifies in Hq. rewrite Eb in Hq.
    set (nb := next_birthday today (Birthday.value b)) in *.
    unfold in_window in Hq. apply andb_true_iff in Hq.
    rewrite !Z.leb_le in Hq.
    assert (Hycd : 1000 <= year cd).
    { pose proof (weekend_shift_range nb) as Hs2. unfold days_until in Hq.
      pose proof (year_le today cd Ht Hvcd ltac:(lia)). lia. }
    exists cd. rewrite Hs. split; [apply birthday_of_strftime; assumption|].
    unfold days_until in *.
    pose proof (weekday_range nb) as Hr.
    unfold weekend_shift in Ho. unfold weekday in *.
    destruct (Z.eqb_spec ((toordinal nb + 6) mod 7) 5) as [E5|E5].
    + rewrite Ho. split; [Z.div_mod_to_equations; lia|lia].
    + destruct (Z.eqb_spec ((toordinal nb + 6) mod 7) 6) as [E6|E6].
      * rewrite Ho. split; [Z.div_mod_to_equations; lia|lia].
      * rewrite Ho, Z.add_0_r. lia.
Qed.

(** X9.  Whenever [get_upcoming_birthdays] returns, the names of its
    entries are the names of the records that qualify, in the order of the
    book: there are at most as many entries as records, and when the names
    of the book differ a record has one entry if it qualifies and none
    otherwise. *)
Theorem upcoming_entries_follow_book (today : date) (book : AddressBook.t)
    (out : list entry) :
  valid today -> birthdays_valid (values book) ->
  fst (get_upcoming_birthdays today book) = Ok out ->
  List.map entry_name out
  = List.map name_of (filter (qualifies today) (values book))
  /\ (List.length out <= List.length (values book))%nat
  /\ (NoDup (List.map name_of (values book)) ->
      forall r, In r (values book) ->
        entries_named (name_of r) out
        = if qualifies today r then 1%nat else 0%nat).
Proof.
  intros Ht Hb H.
  pose proof (upcoming_names today book out Ht Hb H) as Hn.
  split; [assumption|]. split.
  - rewrite <- (length_map entry_name), Hn, length_map.
    apply filter_length_le.
  - intros Hnd r Hr. apply (upcoming_one_entry_iff today book); assumption.
Qed.

(** X10.  For a date before the year 9999 and a book in which no
    birthday is February 29, [get_upcoming_birthdays] returns a list, and
    leaves the book as it was. *)
Theorem upcoming_returns_without_feb29 (today : date) (book : AddressBook.t) :
  valid today -> year today < MAXYEAR ->
  birthdays_valid (values book) ->
  (forall r b, In r (values book) -> Record.birthday r = Some b ->
               ~ (month (Birthday.value b) = 2 /\ day (Birthday.value b) = 29)) ->
  exists out,
    get_upcoming_birthdays today book = (Ok out, book)
    /\ List.map entry_name out
       = List.map name_of (filter (qualifies today) (values book)).
Proof.
  intros Ht Hy Hb Hn.
  destruct (upcoming_returns today book Ht Hy Hb Hn) as [out E].
  exists out. split; [assumption|].
  apply upcoming_names; [assumption|assumption|]. rewrite E. reflexivity.
Qed.

Lemma upcoming_raises_kind (today : Date.date) (book : AddressBook.t)
    (e : exn) :
  fst (get_upcoming_birthdays today book) = Raise e ->
  (exists m, e = ValueError m) \/ e = OverflowError DateValueOutOfRangeMsg.
Proof.
  assert (Hadd : forall d k e',
            Date.__add__ d k = Raise e' ->
            (exists m, e' = ValueError m)
            \/ e' = OverflowError DateValueOutOfRangeMsg).
  { intros d k e'. unfold Date.__add__. cbv zeta.
    destruct (_ && _); [|intros [= <-]; auto].
    unfold Date.fromordinal. destruct (Date._ord2ymd _) as [[y m] dd].
    intros H. left. eapply new_raises; eauto. }
  assert (Hrep : forall d y e',
            Date.replace_year d y = Raise e' -> exists m, e' = ValueError m).
  { intros d y e'. unfold Date.replace_year. apply new_raises. }
  unfold get_upcoming_birthdays, mbind, lift, get.
  destruct (Date.__add__ today 7) as [nw|e0] eqn:E0; cbn [fst];
    [|intros [= <-]; eapply Hadd; eauto].
  generalize (@nil entry).
  induction (values book) as [|r rs IH]; intros acc; cbn; [discriminate|].
  unfold bind at 1.
  destruct (upcoming_step today nw r acc) as [acc'|e1] eqn:E1; [apply IH|].
  intros [= <-]. revert E1. unfold upcoming_step.
  destruct (Record.birthday r) as [b|]; [|discriminate].
  unfold bind at 1.
  destruct (Date.replace_year _ _) as [d1|] eqn:R1;
    [|intros [= <-]; left; eapply Hrep; eauto].
  unfold bind at 1.
  destruct (if Date.__lt__ d1 today then _ else _) as [d2|] eqn:R2.
  - destruct (_ && _); [|discriminate]. unfold bind.
    destruct (if Date.weekday d2 =? 5 then _ else _) as [cd|] eqn:R3;
      [discriminate|].
    intros [= <-]. revert R3.
    destruct (Date.weekday d2 =? 5); [apply Hadd|].
    destruct (Date.weekday d2 =? 6); [apply Hadd|discriminate].
  - intros [= <-]. left. destruct (Date.__lt__ d1 today); [|discriminate].
    eapply Hrep; eauto.
Qed.

(** Before the year 9999 the only exceptions of [get_upcoming_birthdays]
    are the [ValueError]s of [date.replace]. *)
Lemma upcoming_raises_value_error (today : Date.date)
    (book : AddressBook.t) (e : exn) :
  Date.valid today -> Date.year today < Date.MAXYEAR ->
  fst (get_upcoming_birthdays today book) = Raise e ->
  exists m, e = ValueError m.
Proof.
  intros Ht Hy.
  pose proof (toordinal_year_bounds today Ht) as Hyb.
  pose proof (days_before_year_mono (Date.year today + 1) 9999
                ltac:(unfold Date.MAXYEAR in Hy; lia)) as Hmono.
  change (Date._days_before_year 9999) with 3651694 in Hmono.
  pose proof (toordinal_range today Ht) as Hr.
  unfold Date._MAXORDINAL in Hr.
  unfold get_upcoming_birthdays, mbind, lift, get.
  destruct (add_ok today 7 Ht ltac:(unfold Date._MAXORDINAL; lia))
    as (nw & -> & Hnw & Hnw7).
  cbn [fst]. generalize (@nil entry).
  induction (values book) as [|r rs IH]; intros acc; cbn; [discriminate|].
  unfold bind at 1.
  destruct (upcoming_step today nw r acc) as [acc'|e1] eqn:E1; [apply IH|].
  intros [= <-]. revert E1. unfold upcoming_step.
  destruct (Record.birthday r) as [b|]; [|discriminate].
  unfold bind at 1.
  destruct (Date.replace_year _ _) as [d1|] eqn:R1;
    [|intros [= <-]; eapply new_raises; eauto].
  apply replace_year_ok in R1. destruct R1 as [_ Hv1].
  unfold bind at 1.
  destruct (Date.__lt__ d1 today).
  - destruct (Date.replace_year d1 _) as [d2|] eqn:R2;
      [|intros [= <-]; eapply new_raises; eauto].
    apply replace_year_ok in R2. destruct R2 as [_ Hv2].
    rewrite !le_toordinal by assumption.
    destruct (Z.leb_spec (Date.toordinal today) (Date.toordinal d2));
      [|discriminate].
    destruct (Z.leb_spec (Date.toordinal d2) (Date.toordinal nw));
      [|discriminate].
    cbn [andb]. unfold bind.
    destruct (Date.weekday d2 =? 5).
    + destruct (add_ok d2 2 Hv2 ltac:(unfold Date._MAXORDINAL; lia))
        as (cd & -> & _). discriminate.
    + destruct (Date.weekday d2 =? 6); [|discriminate].
      destruct (add_ok d2 1 Hv2 ltac:(unfold Date._MAXORDINAL; lia))
        as (cd & -> & _). discriminate.
  - rewrite !le_toordinal by assumption.
    destruct (Z.leb_spec (Date.toordinal today) (Date.toordinal d1));
      [|discriminate].
    destruct (Z.leb_spec (Date.toordinal d1) (Date.toordinal nw));
      [|discriminate].
    cbn [andb]. unfold bind.
    destruct (Date.weekday d1 =? 5).
    + destruct (add_ok d1 2 Hv1 ltac:(unfold Date._MAXORDINAL; lia))
        as (cd & -> & _). discriminate.
    + destruct (Date.weekday d1 =? 6); [|discriminate].
      destruct (add_ok d1 1 Hv1 ltac:(unfold Date._MAXORDINAL; lia))
        as (cd & -> & _). discriminate.
Qed.

Lemma leap_then_not_leap (y : Z) :
  _is_leap y = true -> _is_leap (y + 1) = false.
Proof.
  unfold _is_leap.
  repeat match goal with
  | |- context [?a =? ?b] => destruct (Z.eqb_spec a b); simpl
  end; try reflexivity; try discriminate;
  intros _; exfalso; Z.div_mod_to_equations; lia.
Qed.

Lemma upcoming_step_feb29_passed (today nw : date) (r : Record.t)
    (b : Birthday.t) (acc : list entry) :
  valid today -> _is_leap (year today) = true ->
  __lt__ (mkdate (year today) 2 29) today = true ->
  Record.birthday r = Some b ->
  month (Birthday.value b) = 2 -> day (Birthday.value b) = 29 ->
  exists e, upcoming_step today nw r acc = Raise e.
Proof.
  intros ((Hy1 & Hy2) & _) Hleap Hlt Hb Hm Hd.
  unfold upcoming_step. rewrite Hb.
  assert (E1 : replace_year (Birthday.value b) (year today)
               = Ok (mkdate (year today) 2 29)).
  { unfold replace_year. rewrite Hm, Hd. apply new_valid.
    unfold valid, _days_in_month. simpl. rewrite Hleap. simpl. lia. }
  rewrite E1. simpl bind. rewrite Hlt.
  unfold replace_year, __new__, _check_date_fields, _days_in_month. simpl.
  rewrite (leap_then_not_leap _ Hleap). simpl.
  destruct (negb _); simpl; eauto.
Qed.

(** X11.  When the book holds a record born on February 29, the call
    raises in every year that is not a leap year, and also in a leap year
    once February 29 has passed (the date is rolled to the next year,
    which has no February 29).  Before the year 9999 the exception is a
    [ValueError]. *)
Theorem feb29_birthday_raises_unless_leap_day_ahead (today : date)
    (book : AddressBook.t) (r : Record.t) (b : Birthday.t) :
  valid today ->
  In r (values book) -> Record.birthday r = Some b ->
  month (Birthday.value b) = 2 -> day (Birthday.value b) = 29 ->
  _is_leap (year today) = false
  \/ __lt__ (mkdate (year today) 2 29) today = true ->
  exists e, fst (get_upcoming_birthdays today book) = Raise e
            /\ (year today < MAXYEAR -> exists m, e = ValueError m).
Proof.
  intros Ht Hin Hb Hm Hd Hcase.
  assert (H : exists e, fst (get_upcoming_birthdays today book) = Raise e);
    [|destruct H as [e He]; exists e; split; [exact He|];
      intros Hy; eapply upcoming_raises_value_error; eassumption].
  destruct (_is_leap (year today)) eqn:Hleap.
  - destruct Hcase as [|Hlt]; [discriminate|].
    unfold get_upcoming_birthdays, mbind, lift, get.
    destruct (__add__ today 7) as [nw|e]; simpl; [|eauto].
    apply (upcoming_loop_raises today nw (values book) r Hin).
    intros acc. eapply upcoming_step_feb29_passed; eassumption.
  - eapply feb29_never_returns; eassumption.
Qed.

(** X12.  [get_upcoming_birthdays] computes [today + 7 days] first: on a
    new book it returns the empty list when that date exists, and for
    every book it raises [OverflowError] when today is within the last
    seven days of the year 9999. *)
Theorem upcoming_needs_a_week_ahead (today : date) :
  valid today ->
  (toordinal today + 7 <= _MAXORDINAL ->
   get_upcoming_birthdays today AddressBook.__init__
   = (Ok [], AddressBook.__init__))
  /\ (_MAXORDINAL < toordinal today + 7 ->
      forall book,
        get_upcoming_birthdays today book
        = (Raise (OverflowError DateValueOutOfRangeMsg), book)).
Proof.
  intros Ht. pose proof (toordinal_range today Ht) as Hr.
  unfold get_upcoming_birthdays, mbind, lift, get. split.
  - intros H. destruct (add_ok today 7 Ht ltac:(lia)) as (nw & -> & _).
    reflexivity.
  - intros H book. rewrite add_overflow by lia. reflexivity.
Qed.


End ClassFacts.

(* ================================================================== *)
(** * The command handlers *)

Section HandlerFacts.
Import AddressBook Handlers.

Lemma dict_get_In (d : AddressBook.t) (k : str) (r : Record.t) :
  dict_get d k = Some r -> In (k, r) d.
Proof.
  induction d as [|[k0 v0] d IH]; simpl; [discriminate|].
  destruct (str_eqb k0 k) eqn:E.
  - apply str_eqb_eq in E. intros [= ->]. left. congruence.
  - intros H. right. auto.
Qed.

Lemma dict_get_contains (d : AddressBook.t) (k : str) (r : Record.t) :
  dict_get d k = Some r -> dict_contains d k = true.
Proof.
  intros H. apply dict_contains_In. apply dict_get_In in H.
  apply (in_map fst) in H. exact H.
Qed.

Lemma dict_setitem_same_value (d : AddressBook.t) (k : str) (r : Record.t) :
  dict_get d k = Some r -> dict_setitem d k r = d.
Proof.
  induction d as [|[k0 v0] d IH]; simpl; [discriminate|].
  destruct (str_eqb k0 k) eqn:E.
  - intros [= ->]. reflexivity.
  - intros H. rewrite IH by assumption. reflexivity.
Qed.

Lemma dict_setitem_twice (d : AddressBook.t) (k : str) (r r' : Record.t) :
  dict_setitem (dict_setitem d k r) k r' = dict_setitem d k r'.
Proof.
  induction d as [|[k0 v0] d IH]; simpl.
  - rewrite str_eqb_refl. reflexivity.
  - destruct (str_eqb k0 k) eqn:E; simpl; rewrite E; [reflexivity|].
    rewrite IH. reflexivity.
Qed.

Lemma dict_setitem_fresh (d : AddressBook.t) (k : str) (r : Record.t) :
  dict_get d k = None -> dict_setitem d k r = d ++ [(k, r)].
Proof.
  induction d as [|[k0 v0] d IH]; simpl; [reflexivity|].
  destruct (str_eqb k0 k) eqn:E; [discriminate|].
  intros H. rewrite IH by assumption. reflexivity.
Qed.

Lemma values_setitem_ok (P : Record.t -> Prop) (d : AddressBook.t) (k : str)
    (r : Record.t) :
  Forall P (values d) -> P r -> Forall P (values (dict_setitem d k r)).
Proof.
  unfold values. induction d as [|[k0 v0] d IH]; simpl; intros H Hr.
  - constructor; [assumption|constructor].
  - inversion H; subst. destruct (str_eqb k0 k); simpl; constructor; auto.
Qed.

Lemma book_ok_setitem (book : AddressBook.t) (r : Record.t) :
  book_ok book -> record_ok r -> book_ok (dict_setitem book (name_of r) r).
Proof.
  intros (Hn & Hk & Hv) Hr. split; [|split].
  - apply NoDup_keys_setitem. assumption.
  - apply keyed_by_name_setitem. assumption.
  - apply values_setitem_ok; assumption.
Qed.

Lemma book_ok_get (book : AddressBook.t) (name : str) (r : Record.t) :
  book_ok book -> dict_get book name = Some r ->
  record_ok r /\ name_of r = name.
Proof.
  intros (_ & Hk & Hv) H. apply dict_get_In in H. split.
  - unfold values in Hv. rewrite Forall_forall in Hv. apply Hv.
    apply (in_map snd) in H. exact H.
  - unfold keyed_by_name in Hk. rewrite Forall_forall in Hk.
    specialize (Hk _ H). simpl in Hk. congruence.
Qed.

Lemma phone_init_ok (s : str) (p : Phone.t) :
  Phone.__init__ s = Ok p -> p = Phone.mk s /\ phone_ok p.
Proof.
  unfold Phone.__init__, phone_ok.
  destruct (Unicode.isdigit s) eqn:E1; [|discriminate].
  destruct (Z.eqb_spec (len s) 10) as [E2|]; [|discriminate].
  simpl. intros [= <-]. simpl. auto.
Qed.

(** What [add_phone] does. *)
Lemma add_phone_eq (self : Record.t) (phone : str) :
  Record.add_phone phone self =
  match Phone.__init__ phone with
  | Ok p => (Ok tt, Record.set_phones self (Record.phones self ++ [p]))
  | Raise e => (Raise (ValueError (PhoneFormatMsg phone)), self)
  end.
Proof.
  unfold Record.add_phone, mbind, lift, get, put.
  destruct (Phone.__init__ phone) as [p|e] eqn:E; [reflexivity|].
  rewrite (phone_init_raises _ _ E). reflexivity.
Qed.

(** What [Record.add_birthday] does. *)
Lemma add_birthday_eq (self : Record.t) (text : str) :
  Record.add_birthday text self =
  match Birthday.__init__ text with
  | Ok b => (Ok tt, Record.set_birthday self (Some b))
  | Raise e => (Raise (ValueError InvalidDateFormatMsg), self)
  end.
Proof.
  unfold Record.add_birthday, mbind, lift, get, put.
  destruct (Birthday.__init__ text) as [b|e] eqn:E; [reflexivity|].
  rewrite (birthday_init_raises _ _ E). reflexivity.
Qed.

Lemma add_phone_mutator (phone : str) : mutator_ok (Record.add_phone phone).
Proof.
  intros self. rewrite add_phone_eq.
  destruct (Phone.__init__ phone) as [p|e] eqn:E; simpl.
  - split; [reflexivity|]. split; [|discriminate].
    intros [Hp Hb]. split; [|exact Hb]. simpl.
    apply Forall_app. split; [assumption|].
    constructor; [|constructor]. apply (phone_init_ok _ _ E).
  - split; [reflexivity|]. split; [auto|]. intros e' [= <-]. eauto.
Qed.

Lemma edit_phone_mutator (old new : str) :
  mutator_ok (Record.edit_phone old new).
Proof.
  intros self.
  destruct (phones_split_or_absent (Record.phones self) old)
    as [(l1 & p & l2 & Hps & Hl & Hp)|Habs].
  - rewrite (edit_phone_found self old new l1 p l2 Hps Hl Hp).
    destruct (Phone.__init__ new) as [q|e] eqn:E; simpl.
    + split; [reflexivity|]. split; [|discriminate].
      intros [Hok Hb]. split; [|exact Hb]. simpl. rewrite Hps in Hok.
      apply Forall_app in Hok. destruct Hok as [H1 H2].
      inversion H2; subst. apply Forall_app. split; [assumption|].
      constructor; [|assumption]. apply (phone_init_ok _ _ E).
    + split; [reflexivity|]. split; [auto|]. intros e' [= <-].
      rewrite (phone_init_raises _ _ E). eauto.
  - rewrite (edit_phone_absent self old new Habs). simpl.
    split; [reflexivity|]. split; [auto|]. intros e' [= <-]. eauto.
Qed.

Lemma add_birthday_mutator (text : str) :
  mutator_ok (Record.add_birthday text).
Proof.
  intros self. rewrite add_birthday_eq.
  destruct (Birthday.__init__ text) as [b|e] eqn:E; simpl.
  - split; [reflexivity|]. split; [|discriminate].
    intros [Hp Hb]. split; [exact Hp|]. simpl. intros b' [= <-].
    apply birthday_init_ok in E.
    destruct E as (_ & _ & _ & _ & _ & _ & _ & _ & _ & _ & H). exact H.
  - split; [reflexivity|]. split; [auto|]. intros e' [= <-]. eauto.
Qed.

(** A mutator applied to the record found under [name]. *)
Lemma on_record_ok (book : AddressBook.t) (name : str) (r : Record.t)
    (m : M Record.t unit) :
  mutator_ok m -> book_ok book -> dict_get book name = Some r ->
  book_ok (snd (on_record name r m book))
  /\ (forall e, fst (on_record name r m book) = Raised e ->
        snd (on_record name r m book) = book
        /\ exists msg, e = Core (ValueError msg)).
Proof.
  intros Hm Hok Hget. unfold on_record.
  destruct (Hm r) as (Hname & Hrok & Hraise).
  destruct (book_ok_get book name r Hok Hget) as [Hr Hn].
  destruct (m r) as [x r'] eqn:E. simpl in *. split.
  - rewrite <- Hn. unfold name_of. rewrite <- Hname. fold (name_of r').
    apply book_ok_setitem; auto.
  - intros e He. destruct x as [u|e0]; [discriminate|].
    simpl in He. injection He as <-.
    destruct (Hraise e0 eq_refl) as [-> [msg ->]].
    split; [apply dict_setitem_same_value; assumption|eauto].
Qed.

Ltac run_handler :=
  cbv beta iota zeta delta
    [add_contact change_contact show_phone add_birthday show_birthday
     birthdays add_contact_body change_contact_body show_phone_body
     add_birthday_body show_birthday_body birthdays_body
     input_error hbind hret hraise call unpack1 unpack2 unpack3
     find add_record mbind get put ret fst snd].

Lemma add_contact_eq (name phone : str) (rest : list str)
    (book : AddressBook.t) :
  add_contact (name :: phone :: rest) book =
  match dict_get book name with
  | Some r =>
      if len phone =? 0
      then (Return (Text (ascii_str "Contact updated.")), book)
      else match Phone.__init__ phone with
           | Ok p =>
               (Return (Text (ascii_str "Contact updated.")),
                dict_setitem book name
                  (Record.set_phones r (Record.phones r ++ [p])))
           | Raise _ => (Return (ErrorText (PhoneFormatMsg phone)), book)
           end
  | None =>
      if len phone =? 0
      then (Return (Text (ascii_str "Contact added.")),
            book ++ [(name, Record.__init__ name)])
      else match Phone.__init__ phone with
           | Ok p =>
               (Return (Text (ascii_str "Contact added.")),
                book ++ [(name, Record.mk (Name.mk name) [p] None)])
           | Raise _ =>
               (Return (ErrorText (PhoneFormatMsg phone)),
                book ++ [(name, Record.__init__ name)])
           end
  end.
Proof.
  run_handler.
  destruct (dict_get book name) as [r|] eqn:G; cbn [of_result fst snd].
  - destruct (len phone =? 0); cbn [negb]; [reflexivity|].
    unfold on_record. rewrite add_phone_eq.
    destruct (Phone.__init__ phone) as [p|e]; cbn [of_result]; [reflexivity|].
    rewrite dict_setitem_same_value by assumption. reflexivity.
  - change (Name.value (Record.name (Record.__init__ name))) with name.
    destruct (len phone =? 0); cbn [negb of_result].
    + rewrite (dict_setitem_fresh book name _ G). reflexivity.
    + unfold on_record. rewrite add_phone_eq.
      destruct (Phone.__init__ phone) as [p|e]; cbn [of_result];
        rewrite dict_setitem_twice, (dict_setitem_fresh book name _ G);
        reflexivity.
Qed.

Lemma short_args_2 (args : list str) :
  (List.length args < 2)%nat ->
  args = [] \/ exists a, args = [a].
Proof.
  destruct args as [|a [|b args]]; simpl; intros H; eauto. lia.
Qed.


(** X15.  [add_contact] stores a new contact before it looks at the
    phone: when the phone is rejected the reply is the validation error,
    and when the phone is the empty string the reply is "Contact added.",
    but in both cases the book now holds the new name with no phones. *)
Theorem add_contact_keeps_new_contact_without_phone (name phone : str)
    (rest : list str) (book : AddressBook.t) :
  dict_get book name = None ->
  (forall e, Phone.__init__ phone = Raise e -> phone <> [] ->
     add_contact (name :: phone :: rest) book
     = (Return (ErrorText (PhoneFormatMsg phone)),
        book ++ [(name, Record.__init__ name)]))
  /\ (phone = [] ->
      add_contact (name :: phone :: rest) book
      = (Return (Text (ascii_str "Contact added.")),
         book ++ [(name, Record.__init__ name)])).
Proof.
  intros G. rewrite add_contact_eq, G. split.
  - intros e He Hne. rewrite He.
    destruct phone as [|c phone]; [congruence|]. reflexivity.
  - intros ->. reflexivity.
Qed.

(** X16.  [change_contact]: an unknown name gives the not-found reply of
    [KeyError]; for a known name the reply is "Contact updated." and the
    record found under the name afterwards has [Phone(new)] in the place
    of the first phone of value [old], the other phones, the name and the
    birthday as before, the keys of the book and the records of the other
    names being untouched; when [old] is absent, or [new] is malformed,
    the reply is the text of that [ValueError] and the book stays as it
    was. *)
Theorem change_contact_spec (name old new : str) (rest : list str)
    (book : AddressBook.t) :
  (dict_get book name = None ->
   change_contact (name :: old :: new :: rest) book
   = (Return (ContactNotFoundText name), book))
  /\ (forall r l1 p l2 q,
      dict_get book name = Some r ->
      Record.phones r = l1 ++ p :: l2 ->
      Forall (differs old) l1 -> Phone.value p = old ->
      Phone.__init__ new = Ok q ->
      exists book' r',
        change_contact (name :: old :: new :: rest) book
        = (Return (Text (ascii_str "Contact updated.")), book')
        /\ dict_get book' name = Some r'
        /\ Record.phones r' = l1 ++ Phone.mk new :: l2
        /\ Record.name r' = Record.name r
        /\ Record.birthday r' = Record.birthday r
        /\ keys book' = keys book
        /\ forall n, n <> name -> dict_get book' n = dict_get book n)
  /\ (forall r,
      dict_get book name = Some r ->
      Forall (differs old) (Record.phones r) ->
      change_contact (name :: old :: new :: rest) book
      = (Return (ErrorText (PhoneNotFoundMsg old (name_of r))), book))
  /\ (forall r e,
      dict_get book name = Some r ->
      ~ Forall (differs old) (Record.phones r) ->
      Phone.__init__ new = Raise e ->
      change_contact (name :: old :: new :: rest) book
      = (Return (ErrorText (PhoneFormatMsg new)), book)).
Proof.
  split; [|split; [|split]].
  - intros G. run_handler. rewrite G. reflexivity.
  - intros r l1 p l2 q G Hps Hl Hp Hq.
    assert (E : change_contact (name :: old :: new :: rest) book
                = (Return (Text (ascii_str "Contact updated.")),
                   dict_setitem book name
                     (Record.set_phones r (l1 ++ q :: l2)))).
    { run_handler. rewrite G. cbn [of_result]. unfold on_record.
      rewrite (edit_phone_found r old new l1 p l2 Hps Hl Hp), Hq.
      reflexivity. }
    rewrite E. eexists. eexists. split; [reflexivity|].
    split; [apply dict_get_setitem_same|].
    cbn [Record.set_phones Record.phones Record.name Record.birthday].
    split.
    { apply phone_init_value in Hq. destruct q as [v]. simpl in Hq.
      subst v. reflexivity. }
    do 2 (split; [reflexivity|]). split.
    + rewrite keys_setitem, (dict_get_contains _ _ _ G). reflexivity.
    + intros n Hn. apply dict_get_setitem_other. exact Hn.
  - intros r G Habs. run_handler. rewrite G. cbn [of_result].
    unfold on_record. rewrite (edit_phone_absent r old new Habs).
    cbn [of_result]. rewrite dict_setitem_same_value by assumption.
    reflexivity.
  - intros r e G Hpres He. run_handler. rewrite G. cbn [of_result].
    unfold on_record.
    destruct (phones_split_or_absent (Record.phones r) old)
      as [(l1 & p & l2 & Hps & Hl & Hp)|Habs]; [|contradiction].
    rewrite (edit_phone_found r old new l1 p l2 Hps Hl Hp), He.
    rewrite (phone_init_raises _ _ He). cbn [of_result].
    rewrite dict_setitem_same_value by assumption. reflexivity.
Qed.

Lemma input_error_snd (f : H reply) (book : AddressBook.t) :
  snd (input_error f book) = snd (f book).
Proof.
  unfold input_error. destruct (f book) as [[r|[[m|m|m]|x y|k]] b];
    reflexivity.
Qed.

(** The decorator turns a raised [Core (ValueError m)] into a text and
    never produces the text of the [IndexError] branch unless the body
    raises [IndexError]. *)
Lemma input_error_fst (f : H reply) (book : AddressBook.t) :
  fst (input_error f book) =
  match fst (f book) with
  | Return r => Return r
  | Raised (Core (ValueError m)) => Return (ErrorText m)
  | Raised (NotEnoughValues x y) => Return (NotEnoughValuesText x y)
  | Raised (Core (IndexError _)) => Return NotEnoughArgumentsText
  | Raised (KeyError k) => Return (ContactNotFoundText k)
  | Raised e => Raised e
  end.
Proof.
  unfold input_error. destruct (f book) as [[r|[[m|m|m]|x y|k]] b];
    reflexivity.
Qed.

(** A handler body that looks the record up and applies one mutator. *)
Lemma on_record_then (name : str) (r : Record.t) (m : M Record.t unit)
    (text : reply) (book : AddressBook.t) :
  mutator_ok m -> dict_get book name = Some r ->
  (exists r', m r = (Ok tt, r')
              /\ hbind (on_record name r m) (fun _ => hret text) book
                 = (Return text, dict_setitem book name r'))
  \/ (exists msg, m r = (Raise (ValueError msg), r)
                  /\ hbind (on_record name r m) (fun _ => hret text) book
                     = (Raised (Core (ValueError msg)), book)).
Proof.
  intros Hm G. unfold hbind, on_record, hret.
  destruct (Hm r) as (_ & _ & Hraise).
  destruct (m r) as [[[]|e] r'] eqn:E; cbn [of_result].
  - left. eauto.
  - right. destruct (Hraise e eq_refl) as [Hs [msg ->]]. simpl in Hs.
    subst r'. exists msg. rewrite dict_setitem_same_value by assumption.
    auto.
Qed.

Lemma change_contact_found (name old new : str) (rest : list str)
    (book : AddressBook.t) (r : Record.t) :
  dict_get book name = Some r ->
  change_contact (name :: old :: new :: rest) book
  = input_error (hbind (on_record name r (Record.edit_phone old new))
                       (fun _ => hret (Text (ascii_str "Contact updated."))))
                book.
Proof.
  intros G. unfold change_contact, change_contact_body, input_error,
    unpack3, call, find, mbind, get, ret, hbind, hret.
  cbn [of_result]. rewrite G. reflexivity.
Qed.

Lemma add_birthday_found (name text : str) (rest : list str)
    (book : AddressBook.t) (r : Record.t) :
  dict_get book name = Some r ->
  add_birthday (name :: text :: rest) book
  = input_error (hbind (on_record name r (Record.add_birthday text))
                       (fun _ => hret (Text (ascii_str "Birthday added."))))
                book.
Proof.
  intros G. unfold add_birthday, add_birthday_body, input_error,
    unpack2, call, find, mbind, get, ret, hbind, hret.
  cbn [of_result]. rewrite G. reflexivity.
Qed.

Lemma change_contact_cases (args : list str) (book : AddressBook.t) :
  (exists n, change_contact args book = (Return (NotEnoughValuesText 3 n), book))
  \/ (exists name, change_contact args book
                   = (Return (ContactNotFoundText name), book))
  \/ (exists msg, change_contact args book = (Return (ErrorText msg), book))
  \/ (exists name old new r r',
        dict_get book name = Some r
        /\ Record.edit_phone old new r = (Ok tt, r')
        /\ change_contact args book
           = (Return (Text (ascii_str "Contact updated.")),
              dict_setitem book name r')).
Proof.
  destruct args as [|name [|old [|new rest]]];
    try (left; eexists; reflexivity).
  destruct (dict_get book name) as [r|] eqn:G.
  - rewrite (change_contact_found name old new rest book r G).
    unfold input_error.
    destruct (on_record_then name r (Record.edit_phone old new)
                (Text (ascii_str "Contact updated.")) book
                (edit_phone_mutator old new) G)
      as [(r' & E & ->)|(msg & E & ->)].
    + right. right. right. exists name, old, new, r, r'. auto.
    + right. right. left. eauto.
  - right. left. exists name. run_handler. rewrite G. reflexivity.
Qed.

Lemma add_birthday_cases (args : list str) (book : AddressBook.t) :
  (exists n, add_birthday args book = (Return (NotEnoughValuesText 2 n), book))
  \/ (exists name, add_birthday args book
                   = (Return (ContactNotFoundText name), book))
  \/ (exists msg, add_birthday args book = (Return (ErrorText msg), book))
  \/ (exists name text r r',
        dict_get book name = Some r
        /\ Record.add_birthday text r = (Ok tt, r')
        /\ add_birthday args book
           = (Return (Text (ascii_str "Birthday added.")),
              dict_setitem book name r')).
Proof.
  destruct args as [|name [|text rest]];
    try (left; eexists; reflexivity).
  destruct (dict_get book name) as [r|] eqn:G.
  - rewrite (add_birthday_found name text rest book r G).
    unfold input_error.
    destruct (on_record_then name r (Record.add_birthday text)
                (Text (ascii_str "Birthday added.")) book
                (add_birthday_mutator text) G)
      as [(r' & E & ->)|(msg & E & ->)].
    + right. right. right. exists name, text, r, r'. auto.
    + right. right. left. eauto.
  - right. left. exists name. run_handler. rewrite G. reflexivity.
Qed.

Lemma show_phone_cases (args : list str) (book : AddressBook.t) :
  match args with
  | [] => show_phone args book = (Return (NotEnoughValuesText 1 0), book)
  | name :: _ =>
      show_phone args book =
      match dict_get book name with
      | None => (Return (ContactNotFoundText name), book)
      | Some r =>
          (Return (Text (join (ascii_str "; ")
                              (List.map Phone.value (Record.phones r)))),
           book)
      end
  end.
Proof.
  destruct args as [|name rest]; [reflexivity|]. run_handler.
  destruct (dict_get book name); reflexivity.
Qed.

Lemma show_birthday_cases (args : list str) (book : AddressBook.t) :
  match args with
  | [] => show_birthday args book = (Return (NotEnoughValuesText 1 0), book)
  | name :: _ =>
      show_birthday args book =
      match dict_get book name with
      | None => (Return (ContactNotFoundText name), book)
      | Some r =>
          match Record.birthday r with
          | None => (Return (BirthdayNotSetText name), book)
          | Some b => (Return (Text (Birthday.__str__ b)), book)
          end
      end
  end.
Proof.
  destruct args as [|name rest]; [reflexivity|]. run_handler.
  destruct (dict_get book name) as [r|]; [|reflexivity].
  cbn [of_result]. destruct (Record.birthday r); reflexivity.
Qed.

Lemma birthdays_cases (today : Date.date) (args : list str)
    (book : AddressBook.t) :
  birthdays today args book =
  match fst (get_upcoming_birthdays today book) with
  | Ok [] => (Return NoBirthdaysText, book)
  | Ok upcoming =>
      (Return (Text (join [10%N] (List.map entry_line upcoming))), book)
  | Raise (ValueError m) => (Return (ErrorText m), book)
  | Raise (IndexError _) => (Return NotEnoughArgumentsText, book)
  | Raise e => (Raised (Core e), book)
  end.
Proof.
  unfold birthdays, birthdays_body, input_error, hbind, call, hret.
  unfold get_upcoming_birthdays, mbind, lift, get.
  destruct (Date.__add__ today 7) as [nw|e]; cbn [fst].
  - destruct (upcoming_loop today nw (values book) []) as [[|x out]|e];
      cbn [of_result]; try reflexivity; destruct e; reflexivity.
  - destruct e; reflexivity.
Qed.

Lemma book_ok_after_mutator (book : AddressBook.t) (name : str)
    (r r' : Record.t) (m : M Record.t unit) :
  mutator_ok m -> book_ok book -> dict_get book name = Some r ->
  m r = (Ok tt, r') -> book_ok (dict_setitem book name r').
Proof.
  intros Hm Hok G E. destruct (Hm r) as (Hname & Hrok & _).
  rewrite E in Hname, Hrok. simpl in Hname, Hrok.
  destruct (book_ok_get book name r Hok G) as [Hr Hn].
  rewrite <- Hn. unfold name_of. rewrite <- Hname. fold (name_of r').
  apply book_ok_setitem; auto.
Qed.

Lemma book_ok_new_contact (book : AddressBook.t) (name : str)
    (ps : list Phone.t) :
  book_ok book -> dict_get book name = None -> Forall phone_ok ps ->
  book_ok (book ++ [(name, Record.mk (Name.mk name) ps None)]).
Proof.
  intros Hok G Hps. rewrite <- (dict_setitem_fresh book name _ G).
  apply (book_ok_setitem book (Record.mk (Name.mk name) ps None) Hok).
  split; [exact Hps|]. simpl. discriminate.
Qed.

(** X17.  Every handler keeps the book well formed: the keys differ,
    every record is stored under its own name, every phone is a
    ten-digit number and every birthday a date of the calendar. *)
Theorem handlers_keep_book_well_formed (book : AddressBook.t)
    (today : Date.date) (args : list str) :
  book_ok book ->
  book_ok (snd (add_contact args book))
  /\ book_ok (snd (change_contact args book))
  /\ book_ok (snd (show_phone args book))
  /\ book_ok (snd (add_birthday args book))
  /\ book_ok (snd (show_birthday args book))
  /\ book_ok (snd (birthdays today args book)).
Proof.
  intros Hok. split; [|split; [|split; [|split; [|split]]]].
  - destruct args as [|name [|phone rest]]; try exact Hok.
    rewrite add_contact_eq.
    destruct (dict_get book name) as [r|] eqn:G.
    + destruct (len phone =? 0); [exact Hok|].
      pose proof (add_phone_eq r phone) as E.
      destruct (Phone.__init__ phone) as [p|e]; [|exact Hok]. simpl.
      eapply book_ok_after_mutator;
        [apply (add_phone_mutator phone)|exact Hok|exact G|exact E].
    + destruct (len phone =? 0).
      * apply book_ok_new_contact; auto.
      * destruct (Phone.__init__ phone) as [p|e] eqn:E; simpl.
        -- apply book_ok_new_contact; auto.
           constructor; [|constructor]. apply (phone_init_ok _ _ E).
        -- apply book_ok_new_contact; auto.
  - destruct (change_contact_cases args book)
      as [[n ->]|[[n ->]|[[m ->]|(name & old & new & r & r' & G & E & ->)]]];
      try exact Hok.
    simpl. eapply book_ok_after_mutator;
      [apply (edit_phone_mutator old new)|exact Hok|exact G|exact E].
  - pose proof (show_phone_cases args book) as E.
    destruct args as [|name rest]; [rewrite E; exact Hok|].
    rewrite E. destruct (dict_get book name); exact Hok.
  - destruct (add_birthday_cases args book)
      as [[n ->]|[[n ->]|[[m ->]|(name & text & r & r' & G & E & ->)]]];
      try exact Hok.
    simpl. eapply book_ok_after_mutator;
      [apply (add_birthday_mutator text)|exact Hok|exact G|exact E].
  - pose proof (show_birthday_cases args book) as E.
    destruct args as [|name rest]; [rewrite E; exact Hok|].
    rewrite E. destruct (dict_get book name) as [r|]; [|exact Hok].
    destruct (Record.birthday r); exact Hok.
  - rewrite birthdays_cases.
    destruct (fst (get_upcoming_birthdays today book)) as [[|x out]|[m|m|m]];
      exact Hok.
Qed.

(** X18.  [show_phone], [show_birthday] and [birthdays] never change the
    book, and [change_contact] and [add_birthday] change it only when they
    reply with their success text. *)
Theorem failed_commands_leave_book (book : AddressBook.t)
    (today : Date.date) (args : list str) :
  snd (show_phone args book) = book
  /\ snd (show_birthday args book) = book
  /\ snd (birthdays today args book) = book
  /\ (fst (change_contact args book)
        <> Return (Text (ascii_str "Contact updated.")) ->
      snd (change_contact args book) = book)
  /\ (fst (add_birthday args book)
        <> Return (Text (ascii_str "Birthday added.")) ->
      snd (add_birthday args book) = book).
Proof.
  split; [|split; [|split; [|split]]].
  - pose proof (show_phone_cases args book) as E.
    destruct args as [|name rest]; [rewrite E; reflexivity|].
    rewrite E. destruct (dict_get book name); reflexivity.
  - pose proof (show_birthday_cases args book) as E.
    destruct args as [|name rest]; [rewrite E; reflexivity|].
    rewrite E. destruct (dict_get book name) as [r|]; [|reflexivity].
    destruct (Record.birthday r); reflexivity.
  - rewrite birthdays_cases.
    destruct (fst (get_upcoming_birthdays today book)) as [[|x out]|[m|m|m]];
      reflexivity.
  - destruct (change_contact_cases args book)
      as [[n ->]|[[n ->]|[[m ->]|(name & old & new & r & r' & G & E & ->)]]];
      try reflexivity.
    intros H. exfalso. apply H. reflexivity.
  - destruct (add_birthday_cases args book)
      as [[n ->]|[[n ->]|[[m ->]|(name & text & r & r' & G & E & ->)]]];
      try reflexivity.
    intros H. exfalso. apply H. reflexivity.
Qed.

(** X20.  A handler that is given too few arguments replies with the
    text of the [ValueError] of the unpacking and leaves the book as it
    was.  No handler ever replies with the text of the [IndexError]
    branch of [input_error]. *)
Theorem missing_arguments_reply (book : AddressBook.t) (today : Date.date)
    (args : list str) :
  ((List.length args < 2)%nat ->
     add_contact args book
     = (Return (NotEnoughValuesText 2 (count args)), book)
     /\ add_birthday args book
        = (Return (NotEnoughValuesText 2 (count args)), book))
  /\ ((List.length args < 3)%nat ->
      change_contact args book
      = (Return (NotEnoughValuesText 3 (count args)), book))
  /\ (args = [] ->
      show_phone args book = (Return (NotEnoughValuesText 1 0), book)
      /\ show_birthday args book = (Return (NotEnoughValuesText 1 0), book))
  /\ fst (add_contact args book) <> Return NotEnoughArgumentsText
  /\ fst (change_contact args book) <> Return NotEnoughArgumentsText
  /\ fst (show_phone args book) <> Return NotEnoughArgumentsText
  /\ fst (add_birthday args book) <> Return NotEnoughArgumentsText
  /\ fst (show_birthday args book) <> Return NotEnoughArgumentsText
  /\ fst (birthdays today args book) <> Return NotEnoughArgumentsText.
Proof.
  split; [|split; [|split]].
  - intros H. destruct args as [|a [|b args]]; simpl in H; try lia;
      split; reflexivity.
  - intros H. destruct args as [|a [|b [|c args]]]; simpl in H; try lia;
      reflexivity.
  - intros ->. split; reflexivity.
  - split; [|split; [|split; [|split; [|split]]]].
    + destruct args as [|name [|phone rest]]; try discriminate.
      rewrite add_contact_eq.
      destruct (dict_get book name); destruct (len phone =? 0);
        try discriminate; destruct (Phone.__init__ phone); discriminate.
    + destruct (change_contact_cases args book)
        as [[n ->]|[[n ->]|[[m ->]|(name & old & new & r & r' & G & E & ->)]]];
        discriminate.
    + pose proof (show_phone_cases args book) as E.
      destruct args as [|name rest]; rewrite E; [discriminate|].
      destruct (dict_get book name); discriminate.
    + destruct (add_birthday_cases args book)
        as [[n ->]|[[n ->]|[[m ->]|(name & text & r & r' & G & E & ->)]]];
        discriminate.
    + pose proof (show_birthday_cases args book) as E.
      destruct args as [|name rest]; rewrite E; [discriminate|].
      destruct (dict_get book name) as [r|]; [|discriminate].
      destruct (Record.birthday r); discriminate.
    + rewrite birthdays_cases.
      destruct (fst (get_upcoming_birthdays today book))
        as [[|x out]|e] eqn:E; try discriminate.
      destruct (upcoming_raises_kind today book e E) as [[m ->]| ->];
        discriminate.
Qed.

Lemma dict_get_app_fresh (book : AddressBook.t) (name : str) (r : Record.t) :
  dict_get book name = None -> dict_get (book ++ [(name, r)]) name = Some r.
Proof.
  intros G. rewrite <- (dict_setitem_fresh book name r G).
  apply dict_get_setitem_same.
Qed.

(** X19.  The [birthdays] command: a [ValueError] of
    [get_upcoming_birthdays] (the February 29 case) comes back as a reply
    text and the book stays as it was; the [OverflowError] of the last
    week of the year 9999 is not caught by [input_error] and leaves the
    handler; an empty result gives the "no birthdays" reply. *)
Theorem birthdays_command_errors (today : Date.date) (book : AddressBook.t)
    (args : list str) :
  Date.valid today ->
  (forall e, fst (get_upcoming_birthdays today book) = Raise e ->
     Date.year today < Date.MAXYEAR ->
     exists m, birthdays today args book = (Return (ErrorText m), book))
  /\ (Date._MAXORDINAL < Date.toordinal today + 7 ->
      birthdays today args book
      = (Raised (Core (OverflowError DateValueOutOfRangeMsg)), book))
  /\ (fst (get_upcoming_birthdays today book) = Ok [] ->
      birthdays today args book = (Return NoBirthdaysText, book)).
Proof.
  intros Ht. split; [|split].
  - intros e E Hy.
    destruct (upcoming_raises_value_error today book e Ht Hy E) as [m ->].
    exists m. rewrite birthdays_cases, E. reflexivity.
  - intros H. rewrite birthdays_cases.
    unfold get_upcoming_birthdays, mbind, lift, get.
    rewrite add_overflow by lia. reflexivity.
  - intros E. rewrite birthdays_cases, E. reflexivity.
Qed.

(** X21.  After the command [add-birthday name text] for a known name
    and a text that reads as the date [d], [show-birthday name] replies
    with the text that [strftime] gives for [d]: the text DD.MM.YYYY of
    [d] when [d] is of the year 1000 or later, and a shorter text, the
    year without zeros in front, when [d] is of an earlier year. *)
Theorem show_birthday_after_add_birthday (name text : str)
    (rest rest' : list str) (book : AddressBook.t) (r : Record.t)
    (d : Date.date) :
  dict_get book name = Some r -> Spec.denotes text d ->
  let book' := dict_setitem book name
                 (Record.set_birthday r (Some (Birthday.mk d))) in
  add_birthday (name :: text :: rest) book
  = (Return (Text (ascii_str "Birthday added.")), book')
  /\ show_birthday (name :: rest') book'
     = (Return (Text (Date.strftime_dmY d)), book')
  /\ (1000 <= Date.year d -> Spec.is_DDMMYYYY (Date.strftime_dmY d) d)
  /\ (Date.year d < 1000 ->
      (List.length (Date.strftime_dmY d) < 10)%nat).
Proof.
  intros G Hd book'.
  assert (E : Birthday.__init__ text = Ok (Birthday.mk d))
    by (apply birthday_init_ok; exact Hd).
  assert (Hv : Date.valid d)
    by (destruct Hd as (_ & _ & _ & _ & _ & _ & _ & _ & _ & _ & H);
        exact H).
  split; [|split; [|split]].
  - rewrite (add_birthday_found name text rest book r G).
    unfold input_error, hbind, on_record, hret.
    rewrite add_birthday_eq, E. reflexivity.
  - pose proof (show_birthday_cases (name :: rest') book') as C.
    cbv beta iota in C. rewrite C. unfold book'.
    rewrite dict_get_setitem_same. reflexivity.
  - intros Hy. apply strftime_is_DDMMYYYY; assumption.
  - intros Hy. apply strftime_short_year; assumption.
Qed.

(** X22.  After [add name phone] with a valid phone, [phone name] replies
    with the phones the contact had before and the new phone, joined by
    "; " in that order. *)
Theorem show_phone_after_add_contact (name phone : str)
    (rest rest' : list str) (book : AddressBook.t) (p : Phone.t) :
  Phone.__init__ phone = Ok p ->
  let before := match dict_get book name with
                | Some r => List.map Phone.value (Record.phones r)
                | None => []
                end in
  let book' := snd (add_contact (name :: phone :: rest) book) in
  show_phone (name :: rest') book'
  = (Return (Text (join (ascii_str "; ") (before ++ [phone]))), book').
Proof.
  intros Hp before book'.
  destruct (phone_init_ok _ _ Hp) as [-> [_ Hl]]. simpl in Hl.
  pose proof (show_phone_cases (name :: rest') book') as C.
  cbv beta iota in C. rewrite C. clear C. unfold book', before.
  rewrite add_contact_eq, Hp.
  assert (E : (len phone =? 0) = false) by (apply Z.eqb_neq; lia).
  rewrite E. destruct (dict_get book name) as [r|] eqn:G; cbn [snd].
  - rewrite dict_get_setitem_same. simpl. rewrite map_app. reflexivity.
  - rewrite dict_get_app_fresh by assumption. reflexivity.
Qed.

End HandlerFacts.

(* ================================================================== *)
(** * Instances of the further properties *)

Section Instances.
Import Handlers.

Lemma remove_phone_spec_witness :
  (exists self',
      Record.remove_phone (ascii_str "2222222222") two_phones = (Ok tt, self')
      /\ Record.phones self' = [Phone.mk (ascii_str "1111111111")]
      /\ S (List.length (Record.phones self'))
         = List.length (Record.phones two_phones)
      /\ Record.name self' = Record.name two_phones
      /\ Record.birthday self' = Record.birthday two_phones)
  /\ Record.remove_phone (ascii_str "9999999999") two_phones
     = (Raise (ValueError (PhoneNotFoundMsg (ascii_str "9999999999")
                                            (ascii_str "Ann"))),
        two_phones).
Proof.
  split.
  - apply (proj1 (remove_phone_spec two_phones (ascii_str "2222222222"))
                 [Phone.mk (ascii_str "1111111111")]
                 (Phone.mk (ascii_str "2222222222")) []);
      [reflexivity | repeat constructor; discriminate | reflexivity].
  - apply (proj2 (remove_phone_spec two_phones (ascii_str "9999999999"))).
    repeat constructor; discriminate.
Defined.

Lemma find_phone_spec_witness :
  fst (Record.find_phone (ascii_str "2222222222") two_phones)
  = Ok (Some (Phone.mk (ascii_str "2222222222"))).
Proof.
  apply (proj1 (proj2 (find_phone_spec two_phones (ascii_str "2222222222")))
               [Phone.mk (ascii_str "1111111111")]
               (Phone.mk (ascii_str "2222222222")) []);
    [reflexivity | repeat constructor; discriminate | reflexivity].
Defined.

Lemma add_phone_appends_witness :
  Record.phones (snd (Record.add_phone (ascii_str "1111111111") two_phones))
  = Record.phones two_phones ++ [Phone.mk (ascii_str "1111111111")].
Proof.
  apply (add_phone_appends two_phones (ascii_str "1111111111")
           (snd (Record.add_phone (ascii_str "1111111111") two_phones))).
  reflexivity.
Defined.

Lemma leap_day_2024_denotes :
  Spec.denotes (ascii_str "29.2.2024") (Date.mkdate 2024 2 29).
Proof.
  exists (ascii_str "29"), (ascii_str "2"), (ascii_str "2024").
  split; [reflexivity|]. do 6 (split; [vm_compute; reflexivity|]).
  vm_compute. repeat split; discriminate.
Defined.


Lemma alice_and_bob_keys_differ : NoDup (AddressBook.keys alice_and_bob).
Proof.
  vm_compute. repeat constructor; simpl; intuition discriminate.
Defined.

Lemma delete_spec_witness :
  fst (AddressBook.find (ascii_str "Bob")
         (snd (AddressBook.delete (ascii_str "Bob") alice_and_bob)))
  = Ok None.
Proof.
  apply (delete_spec alice_and_bob (ascii_str "Bob")).
  exact alice_and_bob_keys_differ.
Defined.

Lemma delete_after_add_record_witness :
  snd (AddressBook.delete (name_of two_phones)
         (snd (AddressBook.add_record two_phones alice_and_bob)))
  = alice_and_bob.
Proof.
  apply (delete_after_add_record alice_and_bob two_phones).
  vm_compute. intuition discriminate.
Defined.

Lemma remove_after_add_phone_witness :
  exists self',
    Record.add_phone (ascii_str "3333333333") two_phones = (Ok tt, self')
    /\ Record.remove_phone (ascii_str "3333333333") self'
       = (Ok tt, two_phones).
Proof.
  apply (remove_after_add_phone two_phones (ascii_str "3333333333")).
  - repeat constructor; discriminate.
  - vm_compute. reflexivity.
  - reflexivity.
Defined.

Lemma wednesday_valid : Date.valid (Date.mkdate 2026 11 4).
Proof. vm_compute. repeat split; discriminate. Defined.

Lemma november_birthdays_valid :
  Spec.birthdays_valid (AddressBook.values november_book).
Proof.
  intros r b Hin Hb. vm_compute in Hin.
  repeat (destruct Hin as [<-|Hin];
          [ try discriminate Hb; injection Hb as <-;
            vm_compute; repeat split; discriminate | ]).
  destruct Hin.
Defined.

Lemma upcoming_dates_are_working_days_witness :
  Forall (fun e => exists cd,
            Birthday.__init__ (AddressBook.congratulation_date e)
            = Ok (Birthday.mk cd)
            /\ 0 <= Date.weekday cd <= 4
            /\ 0 <= Spec.days_until (Date.mkdate 2026 11 4) cd <= 9)
    [AddressBook.mkentry (ascii_str "Fay") (ascii_str "06.11.2026");
     AddressBook.mkentry (ascii_str "Sam") (ascii_str "09.11.2026");
     AddressBook.mkentry (ascii_str "Sue") (ascii_str "09.11.2026")].
Proof.
  apply (upcoming_dates_are_working_days (Date.mkdate 2026 11 4)
                                         november_book).
  - exact wednesday_valid.
  - simpl. lia.
  - exact november_birthdays_valid.
  - vm_compute. reflexivity.
Defined.

Lemma upcoming_entries_follow_book_witness :
  List.map AddressBook.entry_name
    [AddressBook.mkentry (ascii_str "Fay") (ascii_str "06.11.2026");
     AddressBook.mkentry (ascii_str "Sam") (ascii_str "09.11.2026");
     AddressBook.mkentry (ascii_str "Sue") (ascii_str "09.11.2026")]
  = List.map name_of
      (filter (Spec.qualifies (Date.mkdate 2026 11 4))
              (AddressBook.values november_book)).
Proof.
  apply (upcoming_entries_follow_book (Date.mkdate 2026 11 4) november_book).
  - exact wednesday_valid.
  - exact november_birthdays_valid.
  - vm_compute. reflexivity.
Defined.

Lemma upcoming_returns_without_feb29_witness :
  exists out,
    AddressBook.get_upcoming_birthdays (Date.mkdate 2026 11 4) november_book
    = (Ok out, november_book)
    /\ List.map AddressBook.entry_name out
       = List.map name_of
           (filter (Spec.qualifies (Date.mkdate 2026 11 4))
                   (AddressBook.values november_book)).
Proof.
  apply (upcoming_returns_without_feb29 (Date.mkdate 2026 11 4)
                                        november_book).
  - exact wednesday_valid.
  - vm_compute. reflexivity.
  - exact november_birthdays_valid.
  - intros r b Hin Hb. vm_compute in Hin.
    repeat (destruct Hin as [<-|Hin];
            [ try discriminate Hb; injection Hb as <-;
              vm_compute; intros [H _]; discriminate H | ]).
    destruct Hin.
Defined.

Lemma feb29_birthday_raises_unless_leap_day_ahead_witness :
  exists e,
    fst (AddressBook.get_upcoming_birthdays (Date.mkdate 2025 6 1) leap_book)
    = Raise e
    /\ (Date.year (Date.mkdate 2025 6 1) < Date.MAXYEAR ->
        exists m, e = ValueError m).
Proof.
  apply (feb29_birthday_raises_unless_leap_day_ahead
           (Date.mkdate 2025 6 1) leap_book
           (contact "Bob" "29.02.2024")
           (Birthday.mk (Date.mkdate 2024 2 29))).
  - vm_compute. repeat split; discriminate.
  - vm_compute. left. reflexivity.
  - vm_compute. reflexivity.
  - reflexivity.
  - reflexivity.
  - left. vm_compute. reflexivity.
Defined.

Lemma upcoming_needs_a_week_ahead_witness :
  AddressBook.get_upcoming_birthdays (Date.mkdate 2026 11 4)
                                     AddressBook.__init__
  = (Ok [], AddressBook.__init__)
  /\ AddressBook.get_upcoming_birthdays (Date.mkdate 9999 12 28) november_book
     = (Raise (OverflowError DateValueOutOfRangeMsg), november_book).
Proof.
  split.
  - apply (proj1 (upcoming_needs_a_week_ahead (Date.mkdate 2026 11 4)
                                              wednesday_valid)).
    vm_compute. discriminate.
  - apply (fun v => proj2 (upcoming_needs_a_week_ahead
                             (Date.mkdate 9999 12 28) v)).
    + vm_compute. repeat split; discriminate.
    + vm_compute. reflexivity.
Defined.



Lemma add_contact_keeps_new_contact_without_phone_witness :
  add_contact [ascii_str "John"; ascii_str "123"] AddressBook.__init__
  = (Return (ErrorText (PhoneFormatMsg (ascii_str "123"))),
     [(ascii_str "John", Record.__init__ (ascii_str "John"))]).
Proof.
  apply (proj1 (add_contact_keeps_new_contact_without_phone
                  (ascii_str "John") (ascii_str "123") []
                  AddressBook.__init__ eq_refl)
               (ValueError (PhoneFormatMsg (ascii_str "123")))).
  - reflexivity.
  - discriminate.
Defined.

Lemma change_contact_spec_witness :
  (exists book' r',
      change_contact [ascii_str "Ann"; ascii_str "1111111111";
                      ascii_str "3333333333"] (book_of [two_phones])
      = (Return (Text (ascii_str "Contact updated.")), book')
      /\ AddressBook.dict_get book' (ascii_str "Ann") = Some r'
      /\ Record.phones r' = [Phone.mk (ascii_str "3333333333");
                             Phone.mk (ascii_str "2222222222")]
      /\ Record.name r' = Record.name two_phones
      /\ Record.birthday r' = Record.birthday two_phones
      /\ AddressBook.keys book' = AddressBook.keys (book_of [two_phones])
      /\ forall n, n <> ascii_str "Ann" ->
           AddressBook.dict_get book' n
           = AddressBook.dict_get (book_of [two_phones]) n)
  /\ change_contact [ascii_str "Zoe"; ascii_str "1111111111";
                     ascii_str "3333333333"] (book_of [two_phones])
     = (Return (ContactNotFoundText (ascii_str "Zoe")),
        book_of [two_phones]).
Proof.
  split.
  - apply (proj1 (proj2 (change_contact_spec (ascii_str "Ann")
                           (ascii_str "1111111111") (ascii_str "3333333333")
                           [] (book_of [two_phones])))
                 two_phones [] (Phone.mk (ascii_str "1111111111"))
                 [Phone.mk (ascii_str "2222222222")]
                 (Phone.mk (ascii_str "3333333333")));
      [reflexivity | reflexivity | constructor | reflexivity | reflexivity].
  - apply (proj1 (change_contact_spec (ascii_str "Zoe")
                    (ascii_str "1111111111") (ascii_str "3333333333")
                    [] (book_of [two_phones]))).
    reflexivity.
Defined.

Lemma new_book_ok : book_ok AddressBook.__init__.
Proof. repeat constructor. Defined.

Lemma handlers_keep_book_well_formed_witness :
  book_ok (snd (add_contact [ascii_str "John"; ascii_str "1234567890"]
                            AddressBook.__init__)).
Proof.
  apply (handlers_keep_book_well_formed AddressBook.__init__
           (Date.mkdate 2026 11 4)
           [ascii_str "John"; ascii_str "1234567890"]).
  exact new_book_ok.
Defined.

Lemma failed_commands_leave_book_witness :
  snd (change_contact [ascii_str "Ann"; ascii_str "1111111111";
                       ascii_str "33"] (book_of [two_phones]))
  = book_of [two_phones].
Proof.
  apply (failed_commands_leave_book (book_of [two_phones])
           (Date.mkdate 2026 11 4)
           [ascii_str "Ann"; ascii_str "1111111111"; ascii_str "33"]).
  vm_compute. discriminate.
Defined.

Lemma birthdays_command_errors_witness :
  exists m,
    birthdays (Date.mkdate 2025 1 1) [] alice_and_bob
    = (Return (ErrorText m), alice_and_bob).
Proof.
  apply (proj1 (birthdays_command_errors (Date.mkdate 2025 1 1)
                  alice_and_bob [] ltac:(vm_compute; repeat split; discriminate))
               (ValueError (DayOutOfRangeMsg 29))).
  - vm_compute. reflexivity.
  - vm_compute. reflexivity.
Defined.

Lemma missing_arguments_reply_witness :
  add_contact [ascii_str "John"] AddressBook.__init__
  = (Return (NotEnoughValuesText 2 (count [ascii_str "John"])),
     AddressBook.__init__)
  /\ add_birthday [ascii_str "John"] AddressBook.__init__
     = (Return (NotEnoughValuesText 2 (count [ascii_str "John"])),
        AddressBook.__init__).
Proof.
  apply (proj1 (missing_arguments_reply AddressBook.__init__
                  (Date.mkdate 2026 11 4) [ascii_str "John"])).
  simpl. lia.
Defined.

Lemma new_year_999_denotes :
  Spec.denotes (ascii_str "01.01.0999") (Date.mkdate 999 1 1).
Proof.
  exists (ascii_str "01"), (ascii_str "01"), (ascii_str "0999").
  split; [reflexivity|]. do 6 (split; [vm_compute; reflexivity|]).
  vm_compute. repeat split; discriminate.
Defined.

Lemma show_birthday_after_add_birthday_witness :
  show_birthday [ascii_str "Ann"]
    (snd (add_birthday [ascii_str "Ann"; ascii_str "29.2.2024"]
                       (book_of [two_phones])))
  = (Return (Text (ascii_str "29.02.2024")),
     snd (add_birthday [ascii_str "Ann"; ascii_str "29.2.2024"]
                       (book_of [two_phones])))
  /\ show_birthday [ascii_str "Ann"]
       (snd (add_birthday [ascii_str "Ann"; ascii_str "01.01.0999"]
                          (book_of [two_phones])))
     = (Return (Text (ascii_str "01.01.999")),
        snd (add_birthday [ascii_str "Ann"; ascii_str "01.01.0999"]
                          (book_of [two_phones]))).
Proof.
  split.
  - destruct (show_birthday_after_add_birthday (ascii_str "Ann")
                (ascii_str "29.2.2024") [] [] (book_of [two_phones])
                two_phones (Date.mkdate 2024 2 29) eq_refl
                leap_day_2024_denotes) as (Ha & Hs & _).
    rewrite Ha. exact Hs.
  - destruct (show_birthday_after_add_birthday (ascii_str "Ann")
                (ascii_str "01.01.0999") [] [] (book_of [two_phones])
                two_phones (Date.mkdate 999 1 1) eq_refl
                new_year_999_denotes) as (Ha & Hs & _).
    rewrite Ha. exact Hs.
Defined.

Lemma show_phone_after_add_contact_witness :
  show_phone [ascii_str "Ann"]
    (snd (add_contact [ascii_str "Ann"; ascii_str "3333333333"]
                      (book_of [two_phones])))
  = (Return (Text (join (ascii_str "; ")
                        ([ascii_str "1111111111"; ascii_str "2222222222"]
                         ++ [ascii_str "3333333333"]))),
     snd (add_contact [ascii_str "Ann"; ascii_str "3333333333"]
                      (book_of [two_phones]))).
Proof.
  apply (show_phone_after_add_contact (ascii_str "Ann")
           (ascii_str "3333333333") [] [] (book_of [two_phones])
           (Phone.mk (ascii_str "3333333333"))).
  reflexivity.
Defined.

End Instances.

(* ================================================================== *)
(** * Reading a command line *)

Section ConsoleFacts.
Import Console.

Lemma split_from_words (word s : str) :
  forallb (fun c => negb (is_space c)) word = true ->
  Forall is_word (split_from word s).
Proof.
  revert word. induction s as [|c s IH]; intros word Hw; simpl.
  - destruct word; repeat constructor; [discriminate|assumption].
  - destruct (is_space c) eqn:E.
    + destruct word as [|x word].
      * apply IH. reflexivity.
      * constructor; [split; [discriminate|assumption]|].
        apply IH. reflexivity.
    + apply IH. rewrite forallb_app, Hw. simpl. rewrite E. reflexivity.
Qed.

Lemma lstrip_blank (s : str) :
  forallb is_space s = true -> lstrip s = [].
Proof.
  induction s as [|c s IH]; simpl; [reflexivity|].
  intros H. apply andb_true_iff in H. destruct H as [-> H]. auto.
Qed.

Lemma split_from_spaces (word sp s : str) :
  forallb is_space sp = true -> sp <> [] ->
  split_from word (sp ++ s)
  = match word with
    | [] => split_from [] s
    | _ => word :: split_from [] s
    end.
Proof.
  revert word. induction sp as [|c sp IH]; intros word H Hne; [congruence|].
  simpl in H. apply andb_true_iff in H. destruct H as [Hc H].
  simpl. rewrite Hc. destruct sp as [|c' sp'].
  - reflexivity.
  - destruct word; rewrite IH by (auto; discriminate); reflexivity.
Qed.

Lemma split_from_word (word w s : str) :
  forallb (fun c => negb (is_space c)) w = true ->
  split_from word (w ++ s) = split_from (word ++ w) s.
Proof.
  revert word. induction w as [|c w IH]; intros word H; simpl.
  - rewrite app_nil_r. reflexivity.
  - simpl in H. apply andb_true_iff in H. destruct H as [Hc H].
    apply negb_true_iff in Hc. rewrite Hc, IH by assumption.
    rewrite <- app_assoc. reflexivity.
Qed.

Lemma lstrip_split (s : str) : split (lstrip s) = split s.
Proof.
  unfold split. induction s as [|c s IH]; simpl; [reflexivity|].
  destruct (is_space c) eqn:E; [exact IH|]. simpl. rewrite E. reflexivity.
Qed.

Lemma lstrip_decomp (s : str) :
  exists sp, forallb is_space sp = true /\ s = sp ++ lstrip s.
Proof.
  induction s as [|c s (sp & H & E)]; simpl.
  - exists []. auto.
  - destruct (is_space c) eqn:Ec.
    + exists (c :: sp). simpl. rewrite Ec, H. split; [reflexivity|].
      congruence.
    + exists []. auto.
Qed.

Lemma split_from_trailing (word s sp : str) :
  forallb is_space sp = true ->
  split_from word (s ++ sp) = split_from word s.
Proof.
  intros H. revert word. induction s as [|c s IH]; intros word; simpl.
  - destruct sp as [|x sp]; [reflexivity|].
    rewrite <- (app_nil_r (x :: sp)).
    rewrite split_from_spaces by (auto; discriminate).
    destruct word; reflexivity.
  - destruct (is_space c); [destruct word|]; rewrite ?IH; reflexivity.
Qed.

Lemma rstrip_split (s : str) : split (rstrip s) = split s.
Proof.
  unfold rstrip, split.
  destruct (lstrip_decomp (rev s)) as (sp & H & E).
  assert (Es : s = rev (lstrip (rev s)) ++ rev sp).
  { rewrite <- rev_app_distr, <- E, rev_involutive. reflexivity. }
  rewrite Es at 2. rewrite split_from_trailing; [reflexivity|].
  rewrite forallb_forall in *. intros c Hc. apply H. apply in_rev.
  assumption.
Qed.

(** [strip()] before [split()] changes nothing. *)
Lemma strip_split (s : str) : split (strip s) = split s.
Proof. unfold strip. rewrite rstrip_split. apply lstrip_split. Qed.

Lemma split_join (w : str) (ws : list str) :
  Forall is_word (w :: ws) ->
  split (Handlers.join [32%N] (w :: ws)) = w :: ws.
Proof.
  unfold split. revert w. induction ws as [|w' ws IH]; intros w H.
  - inversion H as [|? ? [Hne Hw] _]; subst. simpl.
    pose proof (split_from_word [] w [] Hw) as E.
    rewrite app_nil_r in E. rewrite E. simpl.
    destruct w; [congruence|reflexivity].
  - inversion H as [|? ? [Hne Hw] H']; subst.
    change (Handlers.join [32%N] (w :: w' :: ws))
      with (w ++ [32%N] ++ Handlers.join [32%N] (w' :: ws)).
    rewrite split_from_word by assumption. simpl app at 1.
    rewrite split_from_spaces by (auto; discriminate).
    rewrite IH by assumption. destruct w; [congruence|reflexivity].
Qed.

(** X23.  [parse_input]: every argument it returns is a word (not empty,
    without whitespace); a line of whitespace only gives the empty command
    and no arguments; otherwise the command is the lower-cased first word
    of the line and the arguments are the words after it. *)
Theorem parse_input_words (lower : str -> str) (line : str) :
  Forall is_word (snd (parse_input lower line))
  /\ (forallb is_space line = true -> parse_input lower line = ([], []))
  /\ match split line with
     | [] => parse_input lower line = ([], [])
     | p :: rest => is_word p /\ parse_input lower line = (lower p, rest)
     end.
Proof.
  unfold parse_input. rewrite strip_split. cbv zeta.
  pose proof (split_from_words [] line eq_refl) as Hw. fold (split line) in Hw.
  split; [|split].
  - simpl. destruct (split line); [constructor|].
    inversion Hw; assumption.
  - intros H. unfold split.
    pose proof (split_from_trailing [] [] line H) as E. simpl in E.
    rewrite E. reflexivity.
  - destruct (split line) as [|p rest]; [reflexivity|].
    inversion Hw; subst. auto.
Qed.

(** X24.  [parse_input] reads back a line made of words joined by single
    blanks, also when whitespace stands before or after it: the command is
    the lower-cased first word and the arguments are the other words. *)
Theorem parse_input_of_joined_words (lower : str -> str) (w : str)
    (ws : list str) (before after : str) :
  Forall is_word (w :: ws) ->
  forallb is_space before = true -> forallb is_space after = true ->
  parse_input lower (before ++ Handlers.join [32%N] (w :: ws) ++ after)
  = (lower w, ws).
Proof.
  intros H Hb Ha. unfold parse_input. rewrite strip_split. cbv zeta.
  assert (E : split (before ++ Handlers.join [32%N] (w :: ws) ++ after)
              = w :: ws).
  { unfold split.
    rewrite app_assoc, split_from_trailing by assumption.
    destruct before as [|c before]; [exact (split_join w ws H)|].
    rewrite split_from_spaces by (auto; discriminate).
    exact (split_join w ws H). }
  rewrite E. reflexivity.
Qed.

(** X25.  For arguments that come from [parse_input], a reply of
    [add_contact] that is one of its plain texts ("Contact added." or
    "Contact updated.") means that the phone was stored: the record under
    the name ends with that phone, a ten-digit number.  (The branch for an
    empty phone is never taken for typed input.) *)
Theorem typed_add_command_stores_phone (lower : str -> str) (line : str)
    (name phone : str) (rest : list str) (book : AddressBook.t) (text : str) :
  snd (parse_input lower line) = name :: phone :: rest ->
  fst (Handlers.add_contact (name :: phone :: rest) book) = Handlers.Return (Handlers.Text text) ->
  exists r ps,
    AddressBook.dict_get
      (snd (Handlers.add_contact (name :: phone :: rest) book)) name = Some r
    /\ Record.phones r = ps ++ [Phone.mk phone]
    /\ phone_ok (Phone.mk phone).
Proof.
  intros Hp. destruct (parse_input_words lower line) as [Hw _].
  rewrite Hp in Hw. inversion Hw as [|? ? _ Hw']; subst.
  inversion Hw' as [|? ? [Hne _] _]; subst.
  assert (E : (len phone =? 0) = false).
  { apply Z.eqb_neq. unfold len. destruct phone; [congruence|simpl; lia]. }
  rewrite add_contact_eq, E.
  destruct (AddressBook.dict_get book name) as [r0|] eqn:G;
    destruct (Phone.__init__ phone) as [p|e] eqn:Ep; try discriminate;
    intros _; destruct (phone_init_ok _ _ Ep) as [-> Hok]; cbn [snd].
  - exists (Record.set_phones r0 (Record.phones r0 ++ [Phone.mk phone])),
           (Record.phones r0).
    rewrite dict_get_setitem_same. auto.
  - exists (Record.mk (Name.mk name) [Phone.mk phone] None), [].
    rewrite dict_get_app_fresh by assumption. auto.
Qed.

End ConsoleFacts.

Section ConsoleInstances.
Import Console.

Lemma parse_input_words_witness :
  parse_input (fun s => s) (ascii_str "   ") = ([], []).
Proof.
  apply (proj1 (proj2 (parse_input_words (fun s => s) (ascii_str "   ")))).
  vm_compute. reflexivity.
Defined.

Lemma parse_input_of_joined_words_witness :
  parse_input (fun s => s)
    (ascii_str "  "
     ++ Handlers.join [32%N]
          [ascii_str "add"; ascii_str "John"; ascii_str "1234567890"]
     ++ ascii_str " ")
  = (ascii_str "add", [ascii_str "John"; ascii_str "1234567890"]).
Proof.
  apply (parse_input_of_joined_words (fun s => s) (ascii_str "add")
           [ascii_str "John"; ascii_str "1234567890"]
           (ascii_str "  ") (ascii_str " ")).
  - repeat constructor; try discriminate; vm_compute; reflexivity.
  - vm_compute. reflexivity.
  - vm_compute. reflexivity.
Defined.

Lemma typed_add_command_stores_phone_witness :
  exists r ps,
    AddressBook.dict_get
      (snd (Handlers.add_contact [ascii_str "John"; ascii_str "1234567890"]
                                 AddressBook.__init__))
      (ascii_str "John") = Some r
    /\ Record.phones r = ps ++ [Phone.mk (ascii_str "1234567890")]
    /\ phone_ok (Phone.mk (ascii_str "1234567890")).
Proof.
  apply (typed_add_command_stores_phone (fun s => s)
           (ascii_str "add John 1234567890")
           (ascii_str "John") (ascii_str "1234567890") []
           AddressBook.__init__ (ascii_str "Contact added.")).
  - vm_compute. reflexivity.
  - vm_compute. reflexivity.
Defined.

End ConsoleInstances.
